(** * LLM content evaluation: experiment orchestration and blind evaluation

    A shallow embedding of the services of [llm-content-eval/app]
    ([generation_service.py], [evaluation_service.py], [llm_clients.py] and
    the status and deletion routes of [routers/]) together with the
    properties of the sweep, of the blind-assignment registry and of the
    evaluation intake.

    Modelling choices.
    - The relational store is a record of tables; a table is the list of its
      rows in insertion order, so that [.first()] is [List.find] and
      [.count()] is the length of a [List.filter].
    - [blind_id_cache], a Python dict, is a [gmap string Z].
    - Python [int] is [Z]; Python [float] (latency, cost, percentage) is
      idealised as an exact rational [Q].
    - Code that mutates the store and may raise is written in a state and
      exception monad [M]; as in Python, the mutations made before a
      [raise] stay.
    - Randomness, the wall clock and the answers of the provider SDKs are
      inputs: each call receives them in an environment record.
    - [config.MODELS] and [config.PRICING] are not part of the sources at
      hand and are Section variables.
    - An entry of [selected_models] is the dict the request carried, a
      [gmap string string]: the route stores it unchecked, so a key may be
      missing and the subscript in the sweep may raise.
    - The columns [model_provider] and [prompt_strategy] are [Enum]
      columns: a string compared with them stands for the member whose
      value or name it is ([provider_db_value], [strategy_db_value]). *)

From Stdlib Require Import ZArith QArith Qround String Ascii List Lia Bool.
From stdpp Require Import gmap strings.
Import ListNotations.

Local Open Scope string_scope.
Local Open Scope list_scope.
Local Open Scope Z_scope.

(** ** Data model ([models.py], [schemas.py]) *)

Inductive PromptStrategy := STRUCTURED | EXAMPLE_BASED.

Inductive ContentType := BLOG_INTRO | LINKEDIN | ANNOUNCEMENT.

Definition strategy_value (s : PromptStrategy) : string :=
  match s with
  | STRUCTURED => "structured"
  | EXAMPLE_BASED => "example_based"
  end.

Definition content_type_value (c : ContentType) : string :=
  match c with
  | BLOG_INTRO => "blog_intro"
  | LINKEDIN => "linkedin"
  | ANNOUNCEMENT => "announcement"
  end.

(** The name of a member, the text an [Enum] column stores for it. *)
Definition strategy_name (s : PromptStrategy) : string :=
  match s with
  | STRUCTURED => "STRUCTURED"
  | EXAMPLE_BASED => "EXAMPLE_BASED"
  end.

(** What an [Enum(PromptStrategy)] column makes of a string that is
    written to it or compared with it: the name of the member whose value
    or name the string is, and the string itself when there is none. *)
Definition strategy_db_value (s : string) : string :=
  if String.eqb s "structured" || String.eqb s "STRUCTURED" then "STRUCTURED"
  else if String.eqb s "example_based" || String.eqb s "EXAMPLE_BASED"
  then "EXAMPLE_BASED"
  else s.

(** The same for an [Enum(ModelProvider)] column. *)
Definition provider_db_value (s : string) : string :=
  if String.eqb s "openai" || String.eqb s "OPENAI" then "OPENAI"
  else if String.eqb s "anthropic" || String.eqb s "ANTHROPIC" then "ANTHROPIC"
  else if String.eqb s "google" || String.eqb s "GOOGLE" then "GOOGLE"
  else s.

(** One entry of [selected_models], a [Dict[str, str]] such as
    [{"provider": "openai", "model": "gpt-4"}]. Nothing checks its keys. *)
Definition ModelConfig : Type := gmap string string.

(** The locals [provider] and [model] of the outer loop of the sweep. *)
Record ModelChoice := {
  mc_provider : string;
  mc_model : string
}.

(** The [params] dict of a provider in [config.MODELS]. *)
Record Params := {
  temperature : Q;
  max_tokens : Z
}.

Record Experiment := {
  e_id : Z;
  e_name : string;
  e_description : option string;
  baseline_samples : list string;
  selected_models : list ModelConfig;
  selected_strategies : list string;
  selected_tasks : list string;
  status : string
}.

Record Task := {
  t_id : string;
  t_content_type : ContentType;
  title : string;
  description : string;
  structured_prompt : string;
  example_prompt_template : string
}.

Record Generation := {
  g_id : Z;
  g_experiment_id : Z;
  g_task_id : string;
  model_provider : string;
  model_name : string;
  prompt_strategy : PromptStrategy;
  prompt_used : string;
  generated_content : string;
  generation_params : Params;
  latency_ms : Q;
  prompt_tokens : Z;
  completion_tokens : Z;
  cost_usd : Q
}.

Record Evaluation := {
  ev_id : Z;
  generation_id : Z;
  ev_experiment_id : Z;
  blind_id : string;
  voice_match : Z;
  coherence : Z;
  engaging : Z;
  meets_brief : Z;
  overall_quality : Z;
  edit_time_minutes : Z;
  would_publish : string;
  notes : option string;
  evaluation_time_seconds : option Z
}.

Record EvaluationSubmit := {
  es_blind_id : string;
  es_voice_match : Z;
  es_coherence : Z;
  es_engaging : Z;
  es_meets_brief : Z;
  es_overall_quality : Z;
  es_edit_time_minutes : Z;
  es_would_publish : string;
  es_notes : option string
}.

Record BlindItem := {
  bi_blind_id : string;
  content : string;
  task_title : string;
  task_description : string;
  content_type : string
}.

Record ExperimentCreate := {
  ec_name : string;
  ec_description : option string;
  ec_baseline_samples : list string;
  ec_selected_models : list ModelConfig;
  ec_selected_strategies : list string;
  ec_selected_tasks : list string
}.

(** ** The store and the process-wide registry *)

Record State := {
  experiments : list Experiment;
  tasks : list Task;
  generations : list Generation;
  evaluations : list Evaluation;
  blind_id_cache : gmap string Z
}.

Definition with_experiments (st : State) (l : list Experiment) : State :=
  {| experiments := l; tasks := tasks st; generations := generations st;
     evaluations := evaluations st; blind_id_cache := blind_id_cache st |}.

Definition with_generations (st : State) (l : list Generation) : State :=
  {| experiments := experiments st; tasks := tasks st; generations := l;
     evaluations := evaluations st; blind_id_cache := blind_id_cache st |}.

Definition with_evaluations (st : State) (l : list Evaluation) : State :=
  {| experiments := experiments st; tasks := tasks st;
     generations := generations st; evaluations := l;
     blind_id_cache := blind_id_cache st |}.

Definition with_cache (st : State) (c : gmap string Z) : State :=
  {| experiments := experiments st; tasks := tasks st;
     generations := generations st; evaluations := evaluations st;
     blind_id_cache := c |}.

(** ** Exceptions and the monad of the services *)

Inductive Exception :=
| ExperimentNotFound (experiment_id : Z)
    (* ValueError("Experiment ... not found") *)
| TaskNotFound (task_id : string)
    (* ValueError("Task ... not found") *)
| InvalidStrategy (s : string)
    (* ValueError of PromptStrategy(s) *)
| ModelsKeyError (provider : string)
    (* KeyError of MODELS[provider] *)
| KeyError (key : string)
    (* KeyError of model_config[key] *)
| InvalidBlindId (blind : string)
    (* ValueError("Invalid blind_id: ...") *)
| EvaluationExistsForBlindId (blind : string)
    (* ValueError("Evaluation already exists for blind_id ...") *)
| GenerationNotFound (gid : Z)
    (* ValueError("Generation ... not found") *)
| EvaluationExistsForGeneration (gid : Z)
    (* ValueError("Evaluation already exists for generation ...") *)
| TaskAttributeError
    (* AttributeError: task.title on None *)
| HTTPException (status_code : Z) (detail : string).

Definition M (A : Type) : Type := State -> (Exception + A) * State.

Definition ret {A} (a : A) : M A := fun st => (inr a, st).

Definition bind {A B} (m : M A) (k : A -> M B) : M B :=
  fun st =>
    match m st with
    | (inl e, st') => (inl e, st')
    | (inr a, st') => k a st'
    end.

Definition raise {A} (e : Exception) : M A := fun st => (inl e, st).

Definition get : M State := fun st => (inr st, st).

Definition put (st' : State) : M unit := fun _ => (inr tt, st').

(** [try: m except Exception as e: h e] *)
Definition try_except {A} (m : M A) (h : Exception -> M A) : M A :=
  fun st =>
    match m st with
    | (inl e, st') => h e st'
    | (inr a, st') => (inr a, st')
    end.

Notation "'do' x <- m ; k" := (bind m (fun x => k))
  (at level 10, x name, m at level 100, k at level 200).
Notation "'run' m ; k" := (bind m (fun _ => k))
  (at level 10, m at level 100, k at level 200).

(** ** Queries *)

Definition query_experiment (st : State) (eid : Z) : option Experiment :=
  List.find (fun e => e_id e =? eid) (experiments st).

Definition query_task (st : State) (tid : string) : option Task :=
  List.find (fun t => String.eqb (t_id t) tid) (tasks st).

Definition query_generation (st : State) (gid : Z) : option Generation :=
  List.find (fun g => g_id g =? gid) (generations st).

Definition generations_of (st : State) (eid : Z) : list Generation :=
  List.filter (fun g => g_experiment_id g =? eid) (generations st).

Definition evaluations_of (st : State) (eid : Z) : list Evaluation :=
  List.filter (fun ev => ev_experiment_id ev =? eid) (evaluations st).

Definition count {A} (l : list A) : Z := Z.of_nat (List.length l).

(** The next value of an integer primary key (SQLite row id). *)
Definition next_id (ids : list Z) : Z := 1 + List.fold_right Z.max 0 ids.

(** [experiment.status = s; db.commit()] on the row of the first experiment
    with identifier [eid]. *)
Fixpoint set_status (eid : Z) (s : string) (l : list Experiment)
  : list Experiment :=
  match l with
  | [] => []
  | e :: l' =>
      if e_id e =? eid then
        {| e_id := e_id e; e_name := e_name e;
           e_description := e_description e;
           baseline_samples := baseline_samples e;
           selected_models := selected_models e;
           selected_strategies := selected_strategies e;
           selected_tasks := selected_tasks e;
           status := s |} :: l'
      else e :: set_status eid s l'
  end.

(** ** Strings: [str.replace] *)

(** [s.replace(old, new)] for a non-empty [old] (the two placeholders):
    every occurrence, scanning from the left, without overlap. [skip]
    counts the characters of a match that remain to be dropped. *)
Fixpoint str_replace_from (old new s : string) (skip : nat) : string :=
  match s with
  | EmptyString => EmptyString
  | String c s' =>
      match skip with
      | S k => str_replace_from old new s' k
      | O =>
          if String.prefix old s
          then new +:+ str_replace_from old new s' (String.length old - 1)
          else String c (str_replace_from old new s' 0)
      end
  end.

Definition str_replace (old new s : string) : string :=
  str_replace_from old new s 0.

(** ** Prompt construction ([GenerationService.prepare_prompt]) *)

(** [random.sample(pool, 2)] for a pool of at least two entries: a first
    position among all of them, then a second among the remaining ones.
    [r1] and [r2] are the draws of the generator. *)
Definition random_sample2 (pool : list string) (r1 r2 : nat) : list string :=
  let i := (r1 mod List.length pool)%nat in
  let rest := List.firstn i pool ++ List.skipn (S i) pool in
  let j := (r2 mod List.length rest)%nat in
  [List.nth i pool ""; List.nth j rest ""].

Definition example_samples (pool : list string) (r1 r2 : nat) : list string :=
  if (2 <=? List.length pool)%nat then random_sample2 pool r1 r2
  else pool ++ pool.

Definition prepare_prompt (task : Task) (strategy : PromptStrategy)
    (pool : list string) (r1 r2 : nat) : string :=
  match strategy with
  | STRUCTURED => structured_prompt task
  | EXAMPLE_BASED =>
      let samples := example_samples pool r1 r2 in
      let prompt := example_prompt_template task in
      let prompt :=
        str_replace "{sample1}"
          (match samples with [] => "" | s0 :: _ => s0 end) prompt in
      let prompt :=
        str_replace "{sample2}"
          (if (1 <? List.length samples)%nat then List.nth 1 samples "" else "")
          prompt in
      prompt
  end.


(** ** Numbers: [round(x, ndigits)] on the idealised floats *)

Definition round_half_even (x : Q) : Z :=
  let f := Qfloor x in
  match Qcompare (x - inject_Z f) (1 # 2) with
  | Lt => f
  | Gt => f + 1
  | Eq => if Z.even f then f else f + 1
  end.

Definition round_ndigits (x : Q) (n : nat) : Q :=
  (inject_Z (round_half_even (x * inject_Z (10 ^ Z.of_nat n)))
   / inject_Z (10 ^ Z.of_nat n))%Q.

(** ** The environment of one provider call *)

(** What a provider SDK answers: an exception (network error, timeout,
    rejected credentials, ...) or a response with its text and usage. *)
Inductive SdkResult :=
| SdkError (msg : string)
| SdkResponse (text : option string) (input_tokens output_tokens : Z).

Record CallEnv := {
  draw1 : nat;
  draw2 : nat;
  sdk_call : string -> string -> string -> Params -> SdkResult;
  elapsed_ms : Q
}.

Record Metadata := {
  md_error : option string;
  md_latency_ms : Q;
  md_prompt_tokens : Z;
  md_completion_tokens : Z;
  md_cost_usd : Q
}.

(** The fields of [LLMClient]: [true] when the client object was built
    from an API key, [false] when it is [None]. *)
Record LLMClient := {
  openai_client : bool;
  anthropic_client : bool
}.

Record Pricing := {
  price_input : Q;
  price_output : Q
}.

(** Locals of the sweep: the returned list, the counter and what the
    progress callback received. *)
Record SweepLocals := {
  sw_generations : list Generation;
  sw_completed : Z;
  sw_progress : list (Z * Z)
}.

Record GenerationProgress := {
  gp_experiment_id : Z;
  gp_status : string;
  gp_total : Z;
  gp_completed : Z;
  gp_failed : Z;
  gp_in_progress : Z;
  gp_percentage : Q
}.

(** [PromptStrategy(s)] *)
Definition PromptStrategy_of (s : string) : M PromptStrategy :=
  if String.eqb s "structured" then ret STRUCTURED
  else if String.eqb s "example_based" then ret EXAMPLE_BASED
  else raise (InvalidStrategy s).

Section Services.

(** [config.MODELS]: provider to its [params]; [config.PRICING]: provider
    to model to prices per 1000 tokens. *)
Variable MODELS : gmap string Params.
Variable PRICING : gmap string (gmap string Pricing).

(** *** [llm_clients.py] *)

Definition _calculate_cost (provider model : string)
    (prompt_tokens completion_tokens : Z) : Q :=
  match PRICING !! provider with
  | Some by_model =>
      match by_model !! model with
      | Some pricing =>
          let input_cost :=
            (inject_Z prompt_tokens / 1000 * price_input pricing)%Q in
          let output_cost :=
            (inject_Z completion_tokens / 1000 * price_output pricing)%Q in
          round_ndigits (input_cost + output_cost)%Q 6
      | None => 0%Q
      end
  | None => 0%Q
  end.

(** The body of the [try] of [LLMClient.generate]: [inl] is an exception
    raised inside it. *)
Definition generate_try (self : LLMClient) (env : CallEnv)
    (provider model prompt : string) (params : Params)
  : string + (option string * Metadata) :=
  let answered (text : option string) (pt ct : Z) :=
    inr (text,
         {| md_error := None; md_latency_ms := elapsed_ms env;
            md_prompt_tokens := pt; md_completion_tokens := ct;
            md_cost_usd := _calculate_cost provider model pt ct |}) in
  if String.eqb provider "openai" then
    if negb (openai_client self) then inl "OpenAI API key not configured"
    else
      match sdk_call env provider model prompt params with
      | SdkError msg => inl msg
      | SdkResponse text pt ct => answered text pt ct
      end
  else if String.eqb provider "anthropic" then
    if negb (anthropic_client self) then inl "Anthropic API key not configured"
    else
      match sdk_call env provider model prompt params with
      | SdkError msg => inl msg
      | SdkResponse text pt ct => answered text pt ct
      end
  else if String.eqb provider "google" then
    match sdk_call env provider model prompt params with
    | SdkError msg => inl msg
    | SdkResponse None _ _ => inl "object of type 'NoneType' has no len()"
    | SdkResponse (Some text) _ _ =>
        answered (Some text)
          (Z.of_nat (String.length prompt) / 4)
          (Z.of_nat (String.length text) / 4)
    end
  else inl ("Unknown provider: " +:+ provider).

Definition generate (self : LLMClient) (env : CallEnv)
    (provider model prompt : string) (params : option Params)
  : M (option string * Metadata) :=
  match match params with
        | Some p => Some p
        | None => MODELS !! provider
        end with
  | None => raise (ModelsKeyError provider)
  | Some params =>
      match generate_try self env provider model prompt params with
      | inr r => ret r
      | inl e =>
          ret (None,
               {| md_error := Some e; md_latency_ms := elapsed_ms env;
                  md_prompt_tokens := 0; md_completion_tokens := 0;
                  md_cost_usd := 0%Q |})
      end
  end.

(** *** [generation_service.py] *)

Definition generate_single (self : LLMClient) (env : CallEnv)
    (experiment_id : Z) (task_id provider model : string)
    (strategy : PromptStrategy) : M Generation :=
  do st <- get;
  match query_experiment st experiment_id with
  | None => raise (ExperimentNotFound experiment_id)
  | Some experiment =>
      match query_task st task_id with
      | None => raise (TaskNotFound task_id)
      | Some task =>
          let prompt :=
            prepare_prompt task strategy (baseline_samples experiment)
              (draw1 env) (draw2 env) in
          match MODELS !! provider with
          | None => raise (ModelsKeyError provider)
          | Some params =>
              do r <- generate self env provider model prompt (Some params);
              let generation :=
                {| g_id := next_id (List.map g_id (generations st));
                   g_experiment_id := experiment_id;
                   g_task_id := task_id;
                   model_provider := provider;
                   model_name := model;
                   prompt_strategy := strategy;
                   prompt_used := prompt;
                   generated_content :=
                     match fst r with
                     | Some c => c
                     | None => ""
                     end;
                   generation_params := params;
                   latency_ms := md_latency_ms (snd r);
                   prompt_tokens := md_prompt_tokens (snd r);
                   completion_tokens := md_completion_tokens (snd r);
                   cost_usd := md_cost_usd (snd r) |} in
              do st1 <- get;
              run put (with_generations st1 (generations st1 ++ [generation]));
              ret generation
          end
      end
  end.

(** The query of the sweep: the first Generation of the experiment with
    this task, provider and strategy. The last two are [Enum] columns,
    compared with the strings of the experiment. *)
Definition same_combination (experiment_id : Z) (task_id provider strategy : string)
    (g : Generation) : bool :=
  (g_experiment_id g =? experiment_id)
  && String.eqb (g_task_id g) task_id
  && String.eqb (provider_db_value (model_provider g)) (provider_db_value provider)
  && String.eqb (strategy_name (prompt_strategy g)) (strategy_db_value strategy).

Definition existing_generation (st : State) (experiment_id : Z)
    (task_id provider strategy : string) : option Generation :=
  List.find (same_combination experiment_id task_id provider strategy)
    (generations st).

(** [model_config[key]] *)
Definition getitem (model_config : ModelConfig) (key : string) : M string :=
  match model_config !! key with
  | Some v => ret v
  | None => raise (KeyError key)
  end.

(** The iterations of the two inner [for] loops for one entry of
    [selected_models], in their order. *)
Definition inner_combinations (e : Experiment) (mc : ModelChoice)
  : list (ModelChoice * string * string) :=
  List.flat_map (fun strategy =>
    List.map (fun task_id => (mc, strategy, task_id)) (selected_tasks e))
    (selected_strategies e).

Definition total_combinations (e : Experiment) : Z :=
  count (selected_models e) * count (selected_strategies e)
  * count (selected_tasks e).

Definition report (total : Z) (loc : SweepLocals) : SweepLocals :=
  {| sw_generations := sw_generations loc;
     sw_completed := sw_completed loc + 1;
     sw_progress := sw_progress loc ++ [(sw_completed loc + 1, total)] |}.

Definition appended (g : Generation) (loc : SweepLocals) : SweepLocals :=
  {| sw_generations := sw_generations loc ++ [g];
     sw_completed := sw_completed loc;
     sw_progress := sw_progress loc |}.

(** The body of the innermost loop: the [try] and its [except]. *)
Definition sweep_attempt (self : LLMClient) (env : CallEnv)
    (experiment_id total : Z) (c : ModelChoice * string * string)
    (loc : SweepLocals) : M SweepLocals :=
  let '(mc, strategy, task_id) := c in
  let provider := mc_provider mc in
  let model := mc_model mc in
  try_except
    (do st <- get;
     do g <-
       match existing_generation st experiment_id task_id provider strategy with
       | Some existing => ret existing
       | None =>
           do s <- PromptStrategy_of strategy;
           generate_single self env experiment_id task_id provider model s
       end;
     ret (report total (appended g loc)))
    (fun _ => ret (report total loc)).

(** The two inner loops; [envs k] is the environment of the [k]-th
    iteration of the sweep. *)
Fixpoint sweep_loop (self : LLMClient) (envs : nat -> CallEnv)
    (experiment_id total : Z) (k : nat)
    (cs : list (ModelChoice * string * string)) (loc : SweepLocals)
  : M SweepLocals :=
  match cs with
  | [] => ret loc
  | c :: cs' =>
      do loc' <- sweep_attempt self (envs k) experiment_id total c loc;
      sweep_loop self envs experiment_id total (S k) cs' loc'
  end.

(** The outer loop. Its two subscripts stand outside the [try]: a
    [KeyError] of theirs ends the sweep. *)
Fixpoint sweep_models (self : LLMClient) (envs : nat -> CallEnv)
    (experiment_id total : Z) (experiment : Experiment) (k : nat)
    (model_configs : list ModelConfig) (loc : SweepLocals)
  : M SweepLocals :=
  match model_configs with
  | [] => ret loc
  | model_config :: rest =>
      do provider <- getitem model_config "provider";
      do model <- getitem model_config "model";
      let cs :=
        inner_combinations experiment
          {| mc_provider := provider; mc_model := model |} in
      do loc' <- sweep_loop self envs experiment_id total k cs loc;
      sweep_models self envs experiment_id total experiment
        (k + List.length cs) rest loc'
  end.

Definition generate_all_for_experiment (self : LLMClient)
    (envs : nat -> CallEnv) (experiment_id : Z) : M SweepLocals :=
  do st <- get;
  match query_experiment st experiment_id with
  | None => raise (ExperimentNotFound experiment_id)
  | Some experiment =>
      run put (with_experiments st
                 (set_status experiment_id "generating" (experiments st)));
      do loc <-
        sweep_models self envs experiment_id (total_combinations experiment)
          experiment 0 (selected_models experiment)
          {| sw_generations := []; sw_completed := 0; sw_progress := [] |};
      do st' <- get;
      run put (with_experiments st'
                 (set_status experiment_id "evaluating" (experiments st')));
      ret loc
  end.

(** [None] is the dict [{"error": "Experiment not found"}]. *)
Definition get_generation_progress (st : State) (experiment_id : Z)
  : option GenerationProgress :=
  match query_experiment st experiment_id with
  | None => None
  | Some experiment =>
      let total_expected := total_combinations experiment in
      let completed := count (generations_of st experiment_id) in
      let failed :=
        count (List.filter (fun g => String.eqb (generated_content g) "")
                 (generations_of st experiment_id)) in
      Some {| gp_experiment_id := experiment_id;
              gp_status := status experiment;
              gp_total := total_expected;
              gp_completed := completed;
              gp_failed := failed;
              gp_in_progress :=
                if String.eqb (status experiment) "generating"
                then total_expected - completed else 0;
              gp_percentage :=
                if 0 <? total_expected
                then round_ndigits
                       (inject_Z completed / inject_Z total_expected * 100)%Q 1
                else 0%Q |}
  end.

(** *** [evaluation_service.py] *)

(** [random.choice] and the eight draws of [random.choices]. *)
Record EvalEnv := {
  choice : nat;
  id_draws : nat -> nat
}.

Definition alphabet : list ascii :=
  list_ascii_of_string "ABCDEFGHIJKLMNOPQRSTUVWXYZ0123456789".

Definition generate_blind_id (draws : nat -> nat) : string :=
  string_of_list_ascii
    (List.map (fun i => List.nth (draws i mod 36)%nat alphabet "A"%char)
       (List.seq 0 8)).

(** [Generation.evaluation.has()] *)
Definition has_evaluation (st : State) (g : Generation) : bool :=
  List.existsb (fun ev => generation_id ev =? g_id g) (evaluations st).

Definition unevaluated (st : State) (experiment_id : Z) : list Generation :=
  List.filter
    (fun g => (g_experiment_id g =? experiment_id) && negb (has_evaluation st g))
    (generations st).

Definition get_next_blind_item (env : EvalEnv) (experiment_id : Z)
  : M (option BlindItem) :=
  do st <- get;
  match unevaluated st experiment_id with
  | [] => ret None
  | g0 :: _ =>
      let pool := unevaluated st experiment_id in
      let generation := List.nth (choice env mod List.length pool)%nat pool g0 in
      let blind := generate_blind_id (id_draws env) in
      run put (with_cache st (<[blind := g_id generation]> (blind_id_cache st)));
      match query_task st (g_task_id generation) with
      | None => raise TaskAttributeError
      | Some task =>
          ret (Some {| bi_blind_id := blind;
                       content := generated_content generation;
                       task_title := title task;
                       task_description := description task;
                       content_type := content_type_value (t_content_type task) |})
      end
  end.

Definition _check_experiment_completion (experiment_id : Z) : M unit :=
  do st <- get;
  let total_generations := count (generations_of st experiment_id) in
  let total_evaluations := count (evaluations_of st experiment_id) in
  if (0 <? total_generations) && (total_generations =? total_evaluations) then
    match query_experiment st experiment_id with
    | Some _ =>
        put (with_experiments st
               (set_status experiment_id "complete" (experiments st)))
    | None => ret tt
    end
  else ret tt.

(** [if not generation_id]: the identifier is absent from the dict, or is 0. *)
Definition truthy (o : option Z) : option Z :=
  match o with
  | Some g => if g =? 0 then None else Some g
  | None => None
  end.

Definition submit_evaluation (evaluation_data : EvaluationSubmit)
    (evaluation_time : option Z) : M Evaluation :=
  do st <- get;
  let blind := es_blind_id evaluation_data in
  match truthy (blind_id_cache st !! blind) with
  | None =>
      match List.find (fun ev => String.eqb (blind_id ev) blind)
              (evaluations st) with
      | Some _ => raise (EvaluationExistsForBlindId blind)
      | None => raise (InvalidBlindId blind)
      end
  | Some gid =>
      match query_generation st gid with
      | None => raise (GenerationNotFound gid)
      | Some generation =>
          match List.find (fun ev => generation_id ev =? gid)
                  (evaluations st) with
          | Some _ => raise (EvaluationExistsForGeneration gid)
          | None =>
              let evaluation :=
                {| ev_id := next_id (List.map ev_id (evaluations st));
                   generation_id := gid;
                   ev_experiment_id := g_experiment_id generation;
                   blind_id := blind;
                   voice_match := es_voice_match evaluation_data;
                   coherence := es_coherence evaluation_data;
                   engaging := es_engaging evaluation_data;
                   meets_brief := es_meets_brief evaluation_data;
                   overall_quality := es_overall_quality evaluation_data;
                   edit_time_minutes := es_edit_time_minutes evaluation_data;
                   would_publish := es_would_publish evaluation_data;
                   notes := es_notes evaluation_data;
                   evaluation_time_seconds := evaluation_time |} in
              run put (with_evaluations st (evaluations st ++ [evaluation]));
              do st1 <- get;
              run put (with_cache st1 (delete blind (blind_id_cache st1)));
              run _check_experiment_completion (g_experiment_id generation);
              ret evaluation
          end
      end
  end.

Definition skip_blind_item (blind : string) : M bool :=
  do st <- get;
  match blind_id_cache st !! blind with
  | Some _ =>
      run put (with_cache st (delete blind (blind_id_cache st)));
      ret true
  | None => ret false
  end.

(** *** Routes of [routers/experiments.py] and [routers/evaluations.py] *)

Definition valid_statuses : list string :=
  ["setup"; "generating"; "evaluating"; "complete"].

Definition update_experiment_status (experiment_id : Z) (new_status : string)
  : M unit :=
  do st <- get;
  match query_experiment st experiment_id with
  | None => raise (HTTPException 404 "Experiment not found")
  | Some _ =>
      if List.existsb (String.eqb new_status) valid_statuses then
        put (with_experiments st
               (set_status experiment_id new_status (experiments st)))
      else raise (HTTPException 400 "Invalid status")
  end.

Definition create_experiment (experiment : ExperimentCreate) : M Experiment :=
  do st <- get;
  match List.find (fun tid => match query_task st tid with
                              | Some _ => false
                              | None => true
                              end) (ec_selected_tasks experiment) with
  | Some _ => raise (HTTPException 400 "Task not found")
  | None =>
      let db_experiment :=
        {| e_id := next_id (List.map e_id (experiments st));
           e_name := ec_name experiment;
           e_description := ec_description experiment;
           baseline_samples := ec_baseline_samples experiment;
           selected_models := ec_selected_models experiment;
           selected_strategies := ec_selected_strategies experiment;
           selected_tasks := ec_selected_tasks experiment;
           status := "setup" |} in
      run put (with_experiments st (experiments st ++ [db_experiment]));
      ret db_experiment
  end.

Fixpoint remove_evaluation (evaluation_id : Z) (l : list Evaluation)
  : list Evaluation :=
  match l with
  | [] => []
  | ev :: l' =>
      if ev_id ev =? evaluation_id then l'
      else ev :: remove_evaluation evaluation_id l'
  end.

Definition delete_evaluation (evaluation_id : Z) : M unit :=
  do st <- get;
  match List.find (fun ev => ev_id ev =? evaluation_id) (evaluations st) with
  | None => raise (HTTPException 404 "Evaluation not found")
  | Some _ =>
      put (with_evaluations st (remove_evaluation evaluation_id (evaluations st)))
  end.

(** ** The system as a transition system *)

(** The requests a running instance serves. [generation_service] is the
    client built once when the process starts. *)
Variable generation_service : LLMClient.

Inductive Op :=
| CreateExperiment (experiment : ExperimentCreate)
| UpdateStatus (experiment_id : Z) (new_status : string)
| GenerateSingle (env : CallEnv) (experiment_id : Z)
    (task_id provider model : string) (strategy : PromptStrategy)
| GenerateAll (envs : nat -> CallEnv) (experiment_id : Z)
| NextBlindItem (env : EvalEnv) (experiment_id : Z)
| Submit (evaluation_data : EvaluationSubmit) (evaluation_time : option Z)
| Skip (blind : string)
| DeleteEvaluation (evaluation_id : Z).

(** The state a request leaves behind, whether it returns or raises. *)
Definition exec (op : Op) (st : State) : State :=
  match op with
  | CreateExperiment e => snd (create_experiment e st)
  | UpdateStatus eid s => snd (update_experiment_status eid s st)
  | GenerateSingle env eid tid provider model strategy =>
      snd (generate_single generation_service env eid tid provider model
             strategy st)
  | GenerateAll envs eid =>
      snd (generate_all_for_experiment generation_service envs eid st)
  | NextBlindItem env eid => snd (get_next_blind_item env eid st)
  | Submit data t => snd (submit_evaluation data t st)
  | Skip blind => snd (skip_blind_item blind st)
  | DeleteEvaluation id => snd (delete_evaluation id st)
  end.

Definition exec_all (ops : list Op) (st : State) : State :=
  List.fold_left (fun s op => exec op s) ops st.

(** A fresh instance: the task catalog is loaded, nothing else exists. *)
Definition initial_state (catalog : list Task) : State :=
  {| experiments := []; tasks := catalog; generations := [];
     evaluations := []; blind_id_cache := ∅ |}.

Inductive reachable (catalog : list Task) : State -> Prop :=
| reachable_init : reachable catalog (initial_state catalog)
| reachable_step st op :
    reachable catalog st -> reachable catalog (exec op st).

Definition status_of (st : State) (experiment_id : Z) : option string :=
  option_map status (query_experiment st experiment_id).

End Services.

(** ** Notions used by the statements *)

(** The position of a status in [setup, generating, evaluating, complete];
    a string that is no status sits after all of them. *)
Fixpoint index_of (s : string) (l : list string) : nat :=
  match l with
  | [] => O
  | x :: l' => if String.eqb s x then O else S (index_of s l')
  end.

Definition status_rank (s : string) : nat := index_of s valid_statuses.

(** No two outstanding blind identifiers stand for the same Generation. *)
Definition exclusive_assignments (st : State) : Prop :=
  forall b1 b2 g1 g2,
    b1 <> b2 ->
    blind_id_cache st !! b1 = Some g1 ->
    blind_id_cache st !! b2 = Some g2 ->
    g1 <> g2.

(** What the evaluator may learn of a Generation: its content and its
    task; the identifiers only select the row. *)
Definition same_visible (g1 g2 : Generation) : Prop :=
  g_id g1 = g_id g2 /\
  g_experiment_id g1 = g_experiment_id g2 /\
  g_task_id g1 = g_task_id g2 /\
  generated_content g1 = generated_content g2.

(** Two states that differ at most in the provenance (provider, model,
    strategy, prompt, parameters, usage) of their Generations. *)
Definition same_but_provenance (st1 st2 : State) : Prop :=
  Forall2 same_visible (generations st1) (generations st2) /\
  experiments st1 = experiments st2 /\
  tasks st1 = tasks st2 /\
  evaluations st1 = evaluations st2 /\
  blind_id_cache st1 = blind_id_cache st2.

(** The template with its two placeholders filled with [s1] and [s2]. *)
Definition filled (task : Task) (s1 s2 : string) : string :=
  str_replace "{sample2}" s2
    (str_replace "{sample1}" s1 (example_prompt_template task)).

(** The provider call of [LLMClient.generate] raises: an SDK error or
    timeout, missing credentials, an unknown provider. *)
Definition provider_call_fails (MODELS : gmap string Params)
    (PRICING : gmap string (gmap string Pricing)) (self : LLMClient)
    (env : CallEnv) (provider model prompt : string) : Prop :=
  forall params, MODELS !! provider = Some params ->
    exists msg, generate_try PRICING self env provider model prompt params = inl msg.

(** The subscript of the outer loop of the sweep that fails first, if
    one does: [None] when every entry has its two keys. *)
Fixpoint missing_key (model_configs : list ModelConfig) : option string :=
  match model_configs with
  | [] => None
  | model_config :: rest =>
      match model_config !! "provider", model_config !! "model" with
      | None, _ => Some "provider"
      | Some _, None => Some "model"
      | Some _, Some _ => missing_key rest
      end
  end.

(** The entries the outer loop gets through, with what it reads of them:
    those before the first entry that lacks a key. *)
Fixpoint swept_models (model_configs : list ModelConfig) : list ModelChoice :=
  match model_configs with
  | [] => []
  | model_config :: rest =>
      match model_config !! "provider", model_config !! "model" with
      | Some provider, Some model =>
          {| mc_provider := provider; mc_model := model |} :: swept_models rest
      | _, _ => []
      end
  end.

(** The triples the three nested [for] loops run through, in their
    order: all of them when no entry lacks a key. *)
Definition combinations (e : Experiment)
  : list (ModelChoice * string * string) :=
  List.flat_map (inner_combinations e) (swept_models (selected_models e)).

(** The key of the existence check of the sweep, for a triple of the
    loops: the task, and the provider and the strategy as their columns
    hold them. *)
Definition combination_key (c : ModelChoice * string * string)
  : string * string * string :=
  let '(mc, strategy, task_id) := c in
  (task_id, provider_db_value (mc_provider mc), strategy_db_value strategy).

Definition combination_stored (st : State) (experiment_id : Z)
    (c : ModelChoice * string * string) : bool :=
  let '(mc, strategy, task_id) := c in
  match existing_generation st experiment_id task_id (mc_provider mc) strategy with
  | Some _ => true
  | None => false
  end.

(** N: the combinations of the experiment that have a stored Generation. *)
Definition stored_combinations (st : State) (e : Experiment) : Z :=
  count (List.filter (combination_stored st (e_id e)) (combinations e)).

(** Every combination can be attempted: its strategy is one of the two,
    its task is in the catalog, its entry of [selected_models] has the
    two keys and its provider is configured. *)
Definition attemptable (MODELS : gmap string Params) (st : State)
    (e : Experiment) : Prop :=
  (forall s, In s (selected_strategies e) ->
     s = "structured" \/ s = "example_based") /\
  (forall t, In t (selected_tasks e) -> exists task, query_task st t = Some task) /\
  (forall model_config, In model_config (selected_models e) ->
     exists provider model params,
       model_config !! "provider" = Some provider /\
       model_config !! "model" = Some model /\
       MODELS !! provider = Some params).

(** The item built by [get_next_blind_item] for a Generation and its task. *)
Definition issued_item (env : EvalEnv) (g : Generation) (task : Task)
  : BlindItem :=
  {| bi_blind_id := generate_blind_id (id_draws env);
     content := generated_content g;
     task_title := title task;
     task_description := description task;
     content_type := content_type_value (t_content_type task) |}.

(** The status the completion check leaves in the table of experiments. *)
Definition completion_checked (st : State) (eid : Z) : list Experiment :=
  if (0 <? count (generations_of st eid))
     && (count (generations_of st eid) =? count (evaluations_of st eid))
  then set_status eid "complete" (experiments st)
  else experiments st.

(** A Generation has the task, provider and strategy of a triple of the
    loops: the existence check of the sweep finds it. *)
Definition of_combination (experiment_id : Z)
    (c : ModelChoice * string * string) (g : Generation) : bool :=
  let '(mc, strategy, task_id) := c in
  same_combination experiment_id task_id (mc_provider mc) strategy g.

(** The tables a generation request does not touch. *)
Definition same_but_generations (st st' : State) : Prop :=
  experiments st' = experiments st /\ tasks st' = tasks st /\
  evaluations st' = evaluations st /\ blind_id_cache st' = blind_id_cache st.

(** What the progress callback receives over [n] attempts that start
    from the counter [done]. *)
Definition progress_reports (done total : Z) (n : nat) : list (Z * Z) :=
  List.map (fun i => (done + Z.of_nat i, total)) (List.seq 1 n).

(** A triple whose strategy, task and provider are known. *)
Definition attemptable_combination (MODELS : gmap string Params) (st : State)
    (c : ModelChoice * string * string) : Prop :=
  (exists ps, strategy_value ps = snd (fst c)) /\
  (exists task, query_task st (snd c) = Some task) /\
  (exists params, MODELS !! mc_provider (fst (fst c)) = Some params).

(** Each Evaluation stands for a stored Generation of its experiment,
    and no two Evaluations stand for the same Generation. *)
Definition evaluations_backed (st : State) : Prop :=
  List.NoDup (List.map generation_id (evaluations st)) /\
  forall ev, In ev (evaluations st) ->
    exists g, In g (generations st) /\ g_id g = generation_id ev /\
              g_experiment_id g = ev_experiment_id ev.

(** ** Scenarios *)

Definition demo_task : Task :=
  {| t_id := "A"; t_content_type := BLOG_INTRO; title := "Launch post";
     description := "Introduce the launch";
     structured_prompt := "Write an introduction.";
     example_prompt_template := "In the voice of {sample1} and {sample2}." |}.

Definition demo_models : gmap string Params :=
  {[ "openai" := {| temperature := 7 # 10; max_tokens := 500 |} ]}.

Definition demo_pricing : gmap string (gmap string Pricing) := ∅.

Definition demo_client : LLMClient :=
  {| openai_client := true; anthropic_client := false |}.

(** The provider answers. *)
Definition answering : CallEnv :=
  {| draw1 := 0; draw2 := 0;
     sdk_call := fun _ _ _ _ => SdkResponse (Some "Hello readers") 12 3;
     elapsed_ms := 40 |}.

(** The provider call times out. *)
Definition timing_out : CallEnv :=
  {| draw1 := 0; draw2 := 0;
     sdk_call := fun _ _ _ _ => SdkError "Request timed out";
     elapsed_ms := 30000 |}.

(** Two entries of [selected_models], and what the sweep reads of them. *)
Definition gpt4_entry : ModelConfig :=
  {[ "provider" := "openai"; "model" := "gpt-4" ]}.
Definition gpt35_entry : ModelConfig :=
  {[ "provider" := "openai"; "model" := "gpt-3.5-turbo" ]}.

Definition gpt4 : ModelChoice := {| mc_provider := "openai"; mc_model := "gpt-4" |}.
Definition gpt35 : ModelChoice :=
  {| mc_provider := "openai"; mc_model := "gpt-3.5-turbo" |}.

(** One model, one strategy, one task. *)
Definition demo_create : ExperimentCreate :=
  {| ec_name := "demo"; ec_description := None; ec_baseline_samples := ["A"];
     ec_selected_models := [gpt4_entry];
     ec_selected_strategies := ["structured"];
     ec_selected_tasks := ["A"] |}.

(** Two models of the same provider. *)
Definition two_models_create : ExperimentCreate :=
  {| ec_name := "two models"; ec_description := None;
     ec_baseline_samples := [];
     ec_selected_models := [gpt4_entry; gpt35_entry];
     ec_selected_strategies := ["structured"];
     ec_selected_tasks := ["A"] |}.

(** The draws that mint the identifier made of eight times the [n]-th
    letter, and pick the first eligible Generation. *)
Definition minting (n : nat) : EvalEnv :=
  {| choice := 0; id_draws := fun _ => n |}.

Definition scores_for (blind : string) : EvaluationSubmit :=
  {| es_blind_id := blind; es_voice_match := 4; es_coherence := 4;
     es_engaging := 3; es_meets_brief := 5; es_overall_quality := 5;
     es_edit_time_minutes := 10; es_would_publish := "yes";
     es_notes := Some "" |}.

Definition demo_exec_all : list Op -> State -> State :=
  exec_all demo_models demo_pricing demo_client.

(** One experiment with one stored Generation. *)
Definition st_one_generation : State :=
  demo_exec_all
    [ CreateExperiment demo_create;
      GenerateAll (fun _ => answering) 1 ]
    (initial_state [demo_task]).

(** The same Generation issued twice, under two identifiers. *)
Definition st_issued_twice : State :=
  demo_exec_all
    [ NextBlindItem (minting 0) 1; NextBlindItem (minting 1) 1 ]
    st_one_generation.

(** Two Generations; the first was evaluated under "AAAAAAAA", and the
    generator then minted "AAAAAAAA" again for the second. *)
Definition st_reminted : State :=
  demo_exec_all
    [ GenerateSingle answering 1 "A" "openai" "gpt-4" STRUCTURED;
      NextBlindItem (minting 0) 1;
      Submit (scores_for "AAAAAAAA") None;
      NextBlindItem (minting 0) 1 ]
    st_one_generation.

(** The single Generation evaluated: the experiment is complete. *)
Definition st_complete : State :=
  demo_exec_all
    [ NextBlindItem (minting 0) 1; Submit (scores_for "AAAAAAAA") None ]
    st_one_generation.

(** A second Generation for the only combination, during generation. *)
Definition st_regenerated : State :=
  demo_exec_all
    [ CreateExperiment demo_create;
      GenerateSingle answering 1 "A" "openai" "gpt-4" STRUCTURED;
      GenerateSingle answering 1 "A" "openai" "gpt-4" STRUCTURED;
      UpdateStatus 1 "generating" ]
    (initial_state [demo_task]).

(** An experiment with two models of one provider, before its sweep. *)
Definition st_two_models : State :=
  demo_exec_all [ CreateExperiment two_models_create ]
    (initial_state [demo_task]).

(** The store of [st_one_generation], had its Generation come from
    another provider, model, strategy and prompt. *)
Definition st_other_provenance : State :=
  with_generations st_one_generation
    [ {| g_id := 1; g_experiment_id := 1; g_task_id := "A";
         model_provider := "anthropic"; model_name := "claude-3-opus";
         prompt_strategy := EXAMPLE_BASED;
         prompt_used := "In the voice of A and A.";
         generated_content := "Hello readers";
         generation_params := {| temperature := 1; max_tokens := 100 |};
         latency_ms := 900; prompt_tokens := 7; completion_tokens := 9;
         cost_usd := 1 # 100 |} ].

(** Two strategies; the sweep is resumed after the first was generated. *)
Definition two_strategies_create : ExperimentCreate :=
  {| ec_name := "two strategies"; ec_description := None;
     ec_baseline_samples := ["A"; "B"];
     ec_selected_models := [gpt4_entry];
     ec_selected_strategies := ["structured"; "example_based"];
     ec_selected_tasks := ["A"] |}.

Definition two_strategies : Experiment :=
  {| e_id := 1; e_name := "two strategies"; e_description := None;
     baseline_samples := ["A"; "B"];
     selected_models := [gpt4_entry];
     selected_strategies := ["structured"; "example_based"];
     selected_tasks := ["A"];
     status := "setup" |}.

Definition st_interrupted : State :=
  demo_exec_all
    [ CreateExperiment two_strategies_create;
      GenerateSingle answering 1 "A" "openai" "gpt-4" STRUCTURED ]
    (initial_state [demo_task]).

Definition two_models : Experiment :=
  {| e_id := 1; e_name := "two models"; e_description := None;
     baseline_samples := [];
     selected_models := [gpt4_entry; gpt35_entry];
     selected_strategies := ["structured"];
     selected_tasks := ["A"];
     status := "setup" |}.

(** An experiment whose second entry of [selected_models] has no
    "provider" key. *)
Definition keyless_entry : ModelConfig := {[ "model" := "gpt-4" ]}.

Definition keyless_create : ExperimentCreate :=
  {| ec_name := "keyless"; ec_description := None;
     ec_baseline_samples := [];
     ec_selected_models := [gpt4_entry; keyless_entry];
     ec_selected_strategies := ["structured"];
     ec_selected_tasks := ["A"] |}.

Definition keyless : Experiment :=
  {| e_id := 1; e_name := "keyless"; e_description := None;
     baseline_samples := [];
     selected_models := [gpt4_entry; keyless_entry];
     selected_strategies := ["structured"];
     selected_tasks := ["A"];
     status := "setup" |}.

Definition st_keyless : State :=
  demo_exec_all [ CreateExperiment keyless_create ]
    (initial_state [demo_task]).

(** ** Further operations of the services and of the routes *)

Record EvaluationProgress := {
  ep_experiment_id : Z;
  ep_status : string;
  ep_total : Z;
  ep_completed : Z;
  ep_remaining : Z;
  ep_percentage : Q
}.

(** [EvaluationService.get_evaluation_progress]; [None] is the dict
    [{"error": "Experiment not found"}]. *)
Definition get_evaluation_progress (st : State) (experiment_id : Z)
  : option EvaluationProgress :=
  match query_experiment st experiment_id with
  | None => None
  | Some experiment =>
      let total_generations := count (generations_of st experiment_id) in
      let completed_evaluations := count (evaluations_of st experiment_id) in
      Some {| ep_experiment_id := experiment_id;
              ep_status := status experiment;
              ep_total := total_generations;
              ep_completed := completed_evaluations;
              ep_remaining := total_generations - completed_evaluations;
              ep_percentage :=
                if 0 <? total_generations
                then round_ndigits
                       (inject_Z completed_evaluations
                        / inject_Z total_generations * 100)%Q 1
                else 0%Q |}
  end.

(** [EvaluationService.get_all_evaluations] *)
Definition get_all_evaluations (st : State) (experiment_id : Z)
  : list Evaluation :=
  evaluations_of st experiment_id.

Record RevealedScores := {
  rs_voice_match : Z;
  rs_coherence : Z;
  rs_engaging : Z;
  rs_meets_brief : Z;
  rs_overall_quality : Z
}.

Record RevealedDetails := {
  rd_blind_id : string;
  rd_model_provider : string;
  rd_model_name : string;
  rd_prompt_strategy : string;
  rd_task_title : string;
  rd_content_type : string;
  rd_cost_usd : Q;
  rd_latency_ms : Q;
  rd_scores : RevealedScores;
  rd_would_publish : string;
  rd_edit_time_minutes : Z
}.

(** What [reveal_generation_details] gives: the dict
    [{"error": "Evaluation not found"}], an [AttributeError] (the
    Generation of the Evaluation, or its task, is [None]), or the details. *)
Inductive Revealed :=
| RevealNotFound
| RevealAttributeError
| RevealDetails (d : RevealedDetails).

(** [EvaluationService.reveal_generation_details]; [evaluation.generation]
    and [generation.task] are the rows their foreign keys select. *)
Definition reveal_generation_details (st : State) (blind : string) : Revealed :=
  match List.find (fun ev => String.eqb (blind_id ev) blind) (evaluations st) with
  | None => RevealNotFound
  | Some evaluation =>
      match query_generation st (generation_id evaluation) with
      | None => RevealAttributeError
      | Some generation =>
          match query_task st (g_task_id generation) with
          | None => RevealAttributeError
          | Some task =>
              RevealDetails
                {| rd_blind_id := blind;
                   rd_model_provider := model_provider generation;
                   rd_model_name := model_name generation;
                   rd_prompt_strategy :=
                     strategy_value (prompt_strategy generation);
                   rd_task_title := title task;
                   rd_content_type := content_type_value (t_content_type task);
                   rd_cost_usd := cost_usd generation;
                   rd_latency_ms := latency_ms generation;
                   rd_scores :=
                     {| rs_voice_match := voice_match evaluation;
                        rs_coherence := coherence evaluation;
                        rs_engaging := engaging evaluation;
                        rs_meets_brief := meets_brief evaluation;
                        rs_overall_quality := overall_quality evaluation |};
                   rd_would_publish := would_publish evaluation;
                   rd_edit_time_minutes := edit_time_minutes evaluation |}
          end
      end
  end.

Section Routes.

Variable MODELS : gmap string Params.
Variable PRICING : gmap string (gmap string Pricing).
Variable generation_service : LLMClient.

(** [str(e)], the text of an exception. *)
Variable str : Exception -> string.

(** [run_all_generations] of [routers/generations.py], the background
    task of the sweep: whatever the sweep raises is printed and dropped. *)
Definition run_all_generations (envs : nat -> CallEnv) (experiment_id : Z)
  : M unit :=
  try_except
    (run generate_all_for_experiment MODELS PRICING generation_service envs
           experiment_id;
     ret tt)
    (fun _ => ret tt).

(** The route [POST /api/generations/single]: the strategy arrives as a
    string, and every exception becomes a response with status 500. *)
Definition generate_single_route (env : CallEnv) (experiment_id : Z)
    (task_id provider model strategy : string) : M Generation :=
  try_except
    (do s <- PromptStrategy_of strategy;
     generate_single MODELS PRICING generation_service env experiment_id
       task_id provider model s)
    (fun e => raise (HTTPException 500 (str e))).

(** The route [POST /api/evaluations/]: a [ValueError] of the service
    becomes a response with status 400. *)
Definition submit_evaluation_route (evaluation : EvaluationSubmit)
    (evaluation_time : option Z) : M Evaluation :=
  try_except (submit_evaluation evaluation evaluation_time)
    (fun e => raise (HTTPException 400 (str e))).

(** The route [POST /api/evaluations/skip/{blind_id}]. *)
Definition skip_blind_item_route (blind : string) : M unit :=
  do success <- skip_blind_item blind;
  if success then ret tt else raise (HTTPException 404 "Blind item not found").

End Routes.

(** ** Well-formed stores *)

(** What holds of the rows of every store the system builds: the
    identifiers of the Generations are positive and pairwise different,
    the task of each Generation is in the catalog, and each outstanding
    blind identifier stands for a stored Generation. *)
Definition well_formed (st : State) : Prop :=
  List.NoDup (List.map g_id (generations st)) /\
  (forall g, In g (generations st) ->
     0 < g_id g /\ exists task, query_task st (g_task_id g) = Some task) /\
  (forall blind gid, blind_id_cache st !! blind = Some gid ->
     exists g, In g (generations st) /\ g_id g = gid).

(** The submission of the scores of [scores_for] under another blind
    identifier. *)
Definition submission (blind : string) (v c e m q : Z) : EvaluationSubmit :=
  {| es_blind_id := blind; es_voice_match := v; es_coherence := c;
     es_engaging := e; es_meets_brief := m; es_overall_quality := q;
     es_edit_time_minutes := 5; es_would_publish := "with_edits";
     es_notes := None |}.

(** A string without an opening brace: no placeholder starts in it. *)
Definition brace_free (s : string) : bool :=
  List.forallb (fun c => negb (Ascii.eqb c "{")) (list_ascii_of_string s).

(** ** Analysis by strategy ([analysis_service.py]) *)

Record AvgScores := {
  avg_voice_match : Q;
  avg_coherence : Q;
  avg_engaging : Q;
  avg_meets_brief : Q;
  avg_overall_quality : Q
}.

Record StrategyAnalysis := {
  sa_strategy : string;
  sa_avg_scores : AvgScores;
  sa_evaluation_count : Z;
  sa_would_publish_rate : Q
}.

(** [db.query(Evaluation).join(Generation).filter(cond)]: the Evaluations
    whose Generation, the row of their foreign key, satisfies [cond]. *)
Definition joined_evaluations (st : State) (cond : Generation -> bool)
  : list Evaluation :=
  List.filter
    (fun ev =>
       match query_generation st (generation_id ev) with
       | Some g => cond g
       | None => false
       end)
    (evaluations st).

Definition strategy_eqb (a b : PromptStrategy) : bool :=
  String.eqb (strategy_value a) (strategy_value b).

(** [sum(f(e) for e in evaluations)] *)
Definition sum_of (f : Evaluation -> Z) (l : list Evaluation) : Z :=
  List.fold_right (fun ev acc => f ev + acc) 0 l.

(** [sum(f(e) for e in evaluations) / len(evaluations)] *)
Definition average (f : Evaluation -> Z) (l : list Evaluation) : Q :=
  (inject_Z (sum_of f l) / inject_Z (count l))%Q.

Definition publishes (ev : Evaluation) : bool :=
  List.existsb (String.eqb (would_publish ev)) ["yes"; "with_edits"].

(** One iteration of the loop of [analyze_by_strategy]: [None] is the
    [continue] for a strategy without Evaluations. *)
Definition analyze_strategy (st : State) (experiment_id : Z)
    (strategy : PromptStrategy) : option StrategyAnalysis :=
  let evaluations :=
    joined_evaluations st
      (fun g => (g_experiment_id g =? experiment_id)
                && strategy_eqb (prompt_strategy g) strategy) in
  match evaluations with
  | [] => None
  | _ :: _ =>
      let would_publish_count := count (List.filter publishes evaluations) in
      let would_publish_rate :=
        (inject_Z would_publish_count / inject_Z (count evaluations))%Q in
      Some {| sa_strategy := strategy_value strategy;
              sa_avg_scores :=
                {| avg_voice_match :=
                     round_ndigits (average voice_match evaluations) 2;
                   avg_coherence :=
                     round_ndigits (average coherence evaluations) 2;
                   avg_engaging :=
                     round_ndigits (average engaging evaluations) 2;
                   avg_meets_brief :=
                     round_ndigits (average meets_brief evaluations) 2;
                   avg_overall_quality :=
                     round_ndigits (average overall_quality evaluations) 2 |};
              sa_evaluation_count := count evaluations;
              sa_would_publish_rate := round_ndigits would_publish_rate 2 |}
  end.

Definition analyze_by_strategy (st : State) (experiment_id : Z)
  : list StrategyAnalysis :=
  List.flat_map
    (fun strategy =>
       match analyze_strategy st experiment_id strategy with
       | Some row => [row]
       | None => []
       end)
    [STRUCTURED; EXAMPLE_BASED].

(** Every score of an Evaluation lies between [lo] and [hi]. *)
Definition scores_within (lo hi : Z) (ev : Evaluation) : Prop :=
  lo <= voice_match ev <= hi /\ lo <= coherence ev <= hi /\
  lo <= engaging ev <= hi /\ lo <= meets_brief ev <= hi /\
  lo <= overall_quality ev <= hi.

(** * Properties *)

Ltac unfold_m :=
  unfold bind, ret, raise, get, put, try_except in *; simpl in *.

(** ** The transition system *)

Lemma reachable_exec_all MODELS PRICING client catalog ops st :
  reachable MODELS PRICING client catalog st ->
  reachable MODELS PRICING client catalog
    (exec_all MODELS PRICING client ops st).
Proof.
  revert st; induction ops as [|op ops IH]; intros st H; simpl; [assumption|].
  apply IH. now constructor.
Qed.

(** ** Completion detection and submission *)

Lemma set_status_absent eid s l :
  List.find (fun e => e_id e =? eid) l = None -> set_status eid s l = l.
Proof.
  induction l as [|e l IH]; simpl; [reflexivity|].
  destruct (e_id e =? eid); [discriminate|]. intros H. now rewrite IH.
Qed.

Lemma check_completion_effect eid st :
  exists st',
    _check_experiment_completion eid st = (inr tt, st') /\
    tasks st' = tasks st /\ generations st' = generations st /\
    evaluations st' = evaluations st /\
    blind_id_cache st' = blind_id_cache st /\
    experiments st' = completion_checked st eid.
Proof.
  unfold _check_experiment_completion, completion_checked; unfold_m.
  destruct (_ && _) eqn:Hc.
  - destruct (query_experiment st eid) eqn:Hq; eexists;
      (split; [reflexivity|]); simpl; repeat split.
    symmetry. now apply set_status_absent.
  - eexists; split; [reflexivity|]; repeat split.
Qed.

(** What a submission that returns has done. *)
Lemma submit_evaluation_returns data t st ev st' :
  submit_evaluation data t st = (inr ev, st') ->
  exists g,
    truthy (blind_id_cache st !! es_blind_id data) = Some (g_id g) /\
    query_generation st (g_id g) = Some g /\
    List.find (fun ev => generation_id ev =? g_id g) (evaluations st) = None /\
    generation_id ev = g_id g /\
    ev_experiment_id ev = g_experiment_id g /\
    blind_id ev = es_blind_id data /\
    evaluations st' = evaluations st ++ [ev] /\
    generations st' = generations st /\
    tasks st' = tasks st /\
    blind_id_cache st' = delete (es_blind_id data) (blind_id_cache st) /\
    experiments st' =
      completion_checked (with_evaluations st (evaluations st ++ [ev]))
        (g_experiment_id g).
Proof.
  unfold submit_evaluation; unfold_m.
  destruct (truthy _) as [gid|] eqn:Ht.
  2:{ destruct (List.find _ _); discriminate. }
  destruct (query_generation st gid) as [g|] eqn:Hg; [|discriminate].
  destruct (List.find _ _) eqn:Hf; [discriminate|].
  match goal with |- context [_check_experiment_completion ?a ?s] =>
    destruct (check_completion_effect a s)
      as (s' & -> & Ht' & Hg' & He' & Hc' & Hx) end.
  intros [= <- <-].
  assert (g_id g = gid) as Hid.
  { unfold query_generation in Hg. apply List.find_some in Hg as [_ Hg].
    now apply Z.eqb_eq in Hg. }
  exists g. rewrite Hid. simpl in *.
  repeat split; assumption.
Qed.

Lemma submit_evaluation_raises data t st e st' :
  submit_evaluation data t st = (inl e, st') -> st' = st.
Proof.
  unfold submit_evaluation; unfold_m.
  destruct (truthy _) as [gid|].
  - destruct (query_generation st gid) as [g|]; [|congruence].
    destruct (List.find _ _); [congruence|].
    match goal with |- context [_check_experiment_completion ?a ?s] =>
      destruct (check_completion_effect a s) as (s' & -> & _) end.
    discriminate.
  - destruct (List.find _ _); congruence.
Qed.

Lemma find_none_iff {A} (f : A -> bool) l :
  List.find f l = None <-> forall x, In x l -> f x = false.
Proof.
  split.
  - apply List.find_none.
  - induction l as [|a l IH]; simpl; intros H; [reflexivity|].
    rewrite (H a) by now left. apply IH. intros; apply H; now right.
Qed.

Lemma find_is_some {A} (f : A -> bool) l x :
  In x l -> f x = true -> exists y, List.find f l = Some y.
Proof.
  intros Hin Hf. destruct (List.find f l) eqn:E; [eauto|].
  rewrite (List.find_none _ _ E _ Hin) in Hf. discriminate.
Qed.

(** C9. A submission that raises, whichever of its four [raise] it is,
    persists no Evaluation and leaves the outstanding blind identifiers as
    they were: it leaves the whole state unchanged. *)
Theorem submit_failure_is_atomic data t st e st' :
  submit_evaluation data t st = (inl e, st') ->
  evaluations st' = evaluations st /\
  blind_id_cache st' = blind_id_cache st /\
  st' = st.
Proof.
  intros H. apply submit_evaluation_raises in H. subst. auto.
Qed.

Lemma submit_failure_is_atomic_witness :
  submit_evaluation (scores_for "ZZZZZZZZ") None st_issued_twice =
    (inl (InvalidBlindId "ZZZZZZZZ"), st_issued_twice) /\
  evaluations st_issued_twice = evaluations st_issued_twice /\
  blind_id_cache st_issued_twice = blind_id_cache st_issued_twice /\
  st_issued_twice = st_issued_twice.
Proof.
  assert (H : submit_evaluation (scores_for "ZZZZZZZZ") None st_issued_twice =
              (inl (InvalidBlindId "ZZZZZZZZ"), st_issued_twice))
    by (vm_compute; reflexivity).
  split; [exact H|].
  exact (submit_failure_is_atomic _ _ _ _ _ H).
Defined.

(** ** C2: rejected submissions *)

(** C2, as stated, fails: in [st_reminted] an Evaluation already carries
    the blind identifier "AAAAAAAA", the identifier is outstanding again
    for another Generation, and the submission is accepted. *)
Lemma reminted_blind_id_is_accepted :
  reachable demo_models demo_pricing demo_client [demo_task] st_reminted /\
  (exists ev, In ev (evaluations st_reminted) /\ blind_id ev = "AAAAAAAA") /\
  blind_id_cache st_reminted !! "AAAAAAAA" = Some 2 /\
  exists ev st',
    submit_evaluation (scores_for "AAAAAAAA") None st_reminted = (inr ev, st') /\
    generation_id ev = 2 /\
    List.length (evaluations st') = 2%nat.
Proof.
  split; [|split; [|split]].
  - unfold st_reminted, st_one_generation, demo_exec_all.
    do 2 apply reachable_exec_all. constructor.
  - eexists; split; [left; reflexivity|]. vm_compute. reflexivity.
  - vm_compute. reflexivity.
  - do 2 eexists. split; [vm_compute; reflexivity|]. split; reflexivity.
Qed.

(** C2, amended. A blind identifier that is not outstanding is rejected:
    with [InvalidBlindId] (the not-found case) when no Evaluation carries
    it, with [EvaluationExistsForBlindId] (a conflict) when one does. An
    outstanding identifier whose Generation already has an Evaluation is
    rejected with [EvaluationExistsForGeneration] (a conflict). Each
    rejection leaves the state as it was, and no submission, rejected or
    not, adds an Evaluation to a Generation that has one. *)
Theorem submit_rejections data t st :
  let blind := es_blind_id data in
  (blind_id_cache st !! blind = None ->
   (forall ev, In ev (evaluations st) -> blind_id ev <> blind) ->
   submit_evaluation data t st = (inl (InvalidBlindId blind), st)) /\
  (blind_id_cache st !! blind = None ->
   (exists ev, In ev (evaluations st) /\ blind_id ev = blind) ->
   submit_evaluation data t st = (inl (EvaluationExistsForBlindId blind), st)) /\
  (forall gid g,
     blind_id_cache st !! blind = Some gid -> gid <> 0 ->
     query_generation st gid = Some g ->
     (exists ev, In ev (evaluations st) /\ generation_id ev = gid) ->
     submit_evaluation data t st =
       (inl (EvaluationExistsForGeneration gid), st)) /\
  (forall e st', submit_evaluation data t st = (inl e, st') ->
     evaluations st' = evaluations st) /\
  (forall r st' gid,
     submit_evaluation data t st = (r, st') ->
     (exists ev, In ev (evaluations st) /\ generation_id ev = gid) ->
     List.filter (fun ev => generation_id ev =? gid) (evaluations st') =
     List.filter (fun ev => generation_id ev =? gid) (evaluations st)).
Proof.
  intros blind. repeat split.
  - intros Hc Hev. unfold submit_evaluation; unfold_m. fold blind.
    rewrite Hc. simpl.
    replace (List.find _ _) with (@None Evaluation); [reflexivity|].
    symmetry. apply find_none_iff. intros ev Hin.
    apply String.eqb_neq. now apply Hev.
  - intros Hc (ev & Hin & Hb). unfold submit_evaluation; unfold_m. fold blind.
    rewrite Hc. simpl.
    destruct (find_is_some (fun ev => String.eqb (blind_id ev) blind)
                (evaluations st) ev Hin) as [y ->]; [|reflexivity].
    now apply String.eqb_eq.
  - intros gid g Hc Hz Hg (ev & Hin & Hgid).
    unfold submit_evaluation; unfold_m. fold blind.
    rewrite Hc. simpl. destruct (Z.eqb_spec gid 0) as [|_]; [contradiction|].
    rewrite Hg.
    destruct (find_is_some (fun ev => generation_id ev =? gid)
                (evaluations st) ev Hin) as [y ->]; [|reflexivity].
    now apply Z.eqb_eq.
  - intros e st' H. now apply submit_evaluation_raises in H as ->.
  - intros [e|ev] st' gid H (ev0 & Hin & Hgid).
    + now apply submit_evaluation_raises in H as ->.
    + apply submit_evaluation_returns in H
        as (g & _ & _ & Hnone & Hg & _ & _ & Hevs & _); rewrite Hevs.
      rewrite List.filter_app. simpl.
      destruct (Z.eqb_spec (generation_id ev) gid) as [Heq|_];
        [|now rewrite List.app_nil_r].
      exfalso. rewrite find_none_iff in Hnone.
      specialize (Hnone ev0 Hin). simpl in Hnone.
      apply Z.eqb_neq in Hnone. congruence.
Qed.

Lemma submit_rejections_witness :
  blind_id_cache st_complete !! "AAAAAAAA" = None /\
  (exists ev, In ev (evaluations st_complete) /\ blind_id ev = "AAAAAAAA") /\
  submit_evaluation (scores_for "AAAAAAAA") None st_complete =
    (inl (EvaluationExistsForBlindId "AAAAAAAA"), st_complete).
Proof.
  assert (Hc : blind_id_cache st_complete !! "AAAAAAAA" = None)
    by (vm_compute; reflexivity).
  assert (Hev : exists ev, In ev (evaluations st_complete) /\
                           blind_id ev = "AAAAAAAA")
    by (eexists; split; [left; reflexivity|vm_compute; reflexivity]).
  split; [exact Hc|]. split; [exact Hev|].
  exact (proj1 (proj2 (submit_rejections (scores_for "AAAAAAAA") None
                         st_complete)) Hc Hev).
Defined.

(** ** C1: the eligible pool *)

(** C1, as stated, fails: in [st_issued_twice] two distinct outstanding
    blind identifiers stand for the same Generation. *)
Lemma same_generation_issued_twice :
  reachable demo_models demo_pricing demo_client [demo_task] st_issued_twice /\
  blind_id_cache st_issued_twice !! "AAAAAAAA" = Some 1 /\
  blind_id_cache st_issued_twice !! "BBBBBBBB" = Some 1 /\
  ~ exclusive_assignments st_issued_twice.
Proof.
  assert (Ha : blind_id_cache st_issued_twice !! "AAAAAAAA" = Some 1)
    by (vm_compute; reflexivity).
  assert (Hb : blind_id_cache st_issued_twice !! "BBBBBBBB" = Some 1)
    by (vm_compute; reflexivity).
  split; [|split; [exact Ha|split; [exact Hb|]]].
  - unfold st_issued_twice, st_one_generation, demo_exec_all.
    do 2 apply reachable_exec_all. constructor.
  - intros H. apply (H "AAAAAAAA" "BBBBBBBB" 1 1); [discriminate|..]; auto.
Qed.

Lemma unevaluated_In st eid g :
  In g (unevaluated st eid) <->
  In g (generations st) /\ g_experiment_id g = eid /\ has_evaluation st g = false.
Proof.
  unfold unevaluated. rewrite List.filter_In, andb_true_iff, Z.eqb_eq,
    negb_true_iff. tauto.
Qed.

(** C1, amended. An issue call that returns an item records its blind
    identifier for a Generation of the experiment that has no Evaluation;
    the pool it draws from is made of all these Generations, whether or
    not one of them already has an outstanding identifier: each of them is
    what some draw of the generator selects. *)
Theorem issue_draws_from_unevaluated eid st :
  (forall env item st',
     get_next_blind_item env eid st = (inr (Some item), st') ->
     exists g,
       In g (generations st) /\ g_experiment_id g = eid /\
       has_evaluation st g = false /\
       content item = generated_content g /\
       blind_id_cache st' = <[bi_blind_id item := g_id g]> (blind_id_cache st)) /\
  (forall g draws,
     In g (generations st) -> g_experiment_id g = eid ->
     has_evaluation st g = false ->
     exists n,
       blind_id_cache
         (snd (get_next_blind_item {| choice := n; id_draws := draws |} eid st))
       !! generate_blind_id draws = Some (g_id g)).
Proof.
  split.
  - intros env item st'. unfold get_next_blind_item; unfold_m.
    destruct (unevaluated st eid) as [|g0 pool'] eqn:Hp; [discriminate|].
    set (pool := g0 :: pool') in *.
    set (g := List.nth _ pool g0).
    assert (In g (unevaluated st eid)) as Hin.
    { rewrite Hp. apply List.nth_In. apply Nat.mod_upper_bound. discriminate. }
    apply unevaluated_In in Hin as (H1 & H2 & H3).
    destruct (query_task st (g_task_id g)); [|discriminate].
    intros [= <- <-]. exists g. simpl. auto.
  - intros g draws H1 H2 H3.
    assert (In g (unevaluated st eid)) as Hin by (apply unevaluated_In; auto).
    destruct (unevaluated st eid) as [|g0 pool'] eqn:Hp; [destruct Hin|].
    destruct (List.In_nth _ _ g0 Hin) as (n & Hn & Hnth).
    exists n. unfold get_next_blind_item, bind, get, put, ret, raise.
    rewrite Hp. cbn [choice id_draws].
    rewrite Nat.mod_small by exact Hn. rewrite Hnth.
    destruct (query_task st (g_task_id g)); cbn [snd blind_id_cache with_cache];
      apply lookup_insert_eq.
Qed.

Lemma issue_draws_from_unevaluated_witness :
  exists g,
    In g (generations st_one_generation) /\ g_experiment_id g = 1 /\
    has_evaluation st_one_generation g = false /\
    "Hello readers" = generated_content g.
Proof.
  destruct (proj1 (issue_draws_from_unevaluated 1 st_one_generation)
              (minting 0)
              {| bi_blind_id := "AAAAAAAA"; content := "Hello readers";
                 task_title := "Launch post";
                 task_description := "Introduce the launch";
                 content_type := "blog_intro" |}
              (snd (get_next_blind_item (minting 0) 1 st_one_generation)))
    as (g & H1 & H2 & H3 & H4 & _).
  - vm_compute. reflexivity.
  - exists g. auto.
Defined.

(** ** C7: what a blind item shows *)

Lemma Forall2_filter {A B} (R : A -> B -> Prop) f g l1 l2 :
  Forall2 R l1 l2 ->
  (forall x y, R x y -> f x = g y) ->
  Forall2 R (List.filter f l1) (List.filter g l2).
Proof.
  intros H Hfg. induction H as [|x y l1 l2 Hxy _ IH]; simpl; [constructor|].
  rewrite (Hfg x y Hxy). destruct (g y); [constructor|]; assumption.
Qed.

Lemma Forall2_nth {A B} (R : A -> B -> Prop) l1 l2 d1 d2 n :
  Forall2 R l1 l2 -> R d1 d2 -> R (List.nth n l1 d1) (List.nth n l2 d2).
Proof.
  intros H Hd. revert n.
  induction H as [|x y l1 l2 Hxy _ IH]; intros [|n]; simpl; auto.
Qed.

Lemma unevaluated_same_visible st1 st2 eid :
  same_but_provenance st1 st2 ->
  Forall2 same_visible (unevaluated st1 eid) (unevaluated st2 eid).
Proof.
  intros (Hg & _ & _ & He & _). unfold unevaluated.
  apply Forall2_filter; [assumption|].
  intros x y (Hid & Hexp & _). unfold has_evaluation.
  now rewrite Hid, Hexp, He.
Qed.

Lemma get_next_blind_item_unfold env eid st :
  get_next_blind_item env eid st =
  match unevaluated st eid with
  | [] => (inr None, st)
  | g0 :: _ =>
      let pool := unevaluated st eid in
      let g := List.nth (choice env mod List.length pool)%nat pool g0 in
      let st' :=
        with_cache st
          (<[generate_blind_id (id_draws env) := g_id g]> (blind_id_cache st)) in
      match query_task st (g_task_id g) with
      | None => (inl TaskAttributeError, st')
      | Some task => (inr (Some (issued_item env g task)), st')
      end
  end.
Proof.
  unfold get_next_blind_item, bind, get, put, ret, raise.
  destruct (unevaluated st eid); [reflexivity|].
  cbv zeta. destruct (query_task st _); reflexivity.
Qed.

(** C7. The item returned for a Generation is made of the blind
    identifier, the content of the Generation and the title, description
    and content type of its task. Provider, model, strategy and prompt do
    not flow into it: two stores that differ only in the provenance of
    their Generations give, for the same draws, the same item (and record
    the same assignment). *)
Theorem blind_item_hides_provenance env eid st1 st2 :
  same_but_provenance st1 st2 ->
  fst (get_next_blind_item env eid st1) = fst (get_next_blind_item env eid st2) /\
  blind_id_cache (snd (get_next_blind_item env eid st1)) =
  blind_id_cache (snd (get_next_blind_item env eid st2)) /\
  (forall item, fst (get_next_blind_item env eid st1) = inr (Some item) ->
     exists g task,
       In g (generations st1) /\ query_task st1 (g_task_id g) = Some task /\
       item = {| bi_blind_id := generate_blind_id (id_draws env);
                 content := generated_content g;
                 task_title := title task;
                 task_description := description task;
                 content_type := content_type_value (t_content_type task) |}).
Proof.
  intros Hsame.
  pose proof (unevaluated_same_visible st1 st2 eid Hsame) as Hpool.
  destruct Hsame as (_ & _ & Ht & _ & Hc).
  rewrite !get_next_blind_item_unfold.
  destruct (unevaluated st1 eid) as [|g1 pool1] eqn:H1;
    destruct (unevaluated st2 eid) as [|g2 pool2] eqn:H2;
    try solve [inversion Hpool].
  { simpl. repeat split; try assumption. discriminate. }
  pose proof (Forall2_length _ _ _ Hpool) as Hlen.
  assert (Hhead : same_visible g1 g2) by now inversion Hpool.
  cbv zeta. rewrite <- Hlen.
  remember (choice env mod List.length (g1 :: pool1))%nat as n eqn:Hn.
  pose proof (Forall2_nth same_visible _ _ g1 g2 n Hpool Hhead)
    as (Hid & _ & Htask & Hcontent).
  assert (In (List.nth n (g1 :: pool1) g1) (generations st1)) as Hin.
  { apply (unevaluated_In st1 eid). rewrite H1. apply List.nth_In.
    subst n. apply Nat.mod_upper_bound. discriminate. }
  remember (List.nth n (g1 :: pool1) g1) as x1.
  remember (List.nth n (g2 :: pool2) g2) as x2.
  unfold query_task. rewrite <- Ht, <- Htask, <- Hid, <- Hc.
  fold (query_task st1 (g_task_id x1)).
  unfold issued_item. rewrite <- Hcontent.
  destruct (query_task st1 (g_task_id x1)) as [task|] eqn:Hq; simpl.
  - repeat split. intros item [= <-]. eauto.
  - repeat split. discriminate.
Qed.

Lemma blind_item_hides_provenance_witness :
  fst (get_next_blind_item (minting 0) 1 st_one_generation) =
  fst (get_next_blind_item (minting 0) 1 st_other_provenance).
Proof.
  refine (proj1 (blind_item_hides_provenance (minting 0) 1
                   st_one_generation st_other_provenance _)).
  unfold same_but_provenance.
  split; [|repeat split; vm_compute; reflexivity].
  repeat constructor.
Defined.

(** ** C8: example-based prompts *)




(** The prompt built from the template of [demo_task]. *)
Example prepare_prompt_demo :
  prepare_prompt demo_task EXAMPLE_BASED ["A"] 0 0
    = "In the voice of A and A." /\
  prepare_prompt demo_task EXAMPLE_BASED [] 0 0
    = "In the voice of  and ." /\
  prepare_prompt demo_task EXAMPLE_BASED ["A"; "B"; "C"] 4 3
    = "In the voice of B and C." /\
  prepare_prompt demo_task EXAMPLE_BASED ["A"; "B"; "C"] 4 2
    = "In the voice of B and A.".
Proof. repeat split; reflexivity. Qed.

(** ** The effect of the generation service on the store *)

Lemma generate_returns MODELS PRICING self env provider model prompt params st :
  exists r,
    generate MODELS PRICING self env provider model prompt (Some params) st
      = (inr r, st) /\
    match generate_try PRICING self env provider model prompt params with
    | inr r' => r = r'
    | inl msg =>
        r = (None,
             {| md_error := Some msg; md_latency_ms := elapsed_ms env;
                md_prompt_tokens := 0; md_completion_tokens := 0;
                md_cost_usd := 0%Q |})
    end.
Proof.
  unfold generate. destruct (generate_try _ _ _ _ _ _ _); eexists; split;
    reflexivity.
Qed.

Lemma generate_single_effect MODELS PRICING self env eid tid provider model
    strategy st :
  exists r st',
    generate_single MODELS PRICING self env eid tid provider model strategy st
      = (r, st') /\
    same_but_generations st st' /\
    match r with
    | inl _ => generations st' = generations st
    | inr g =>
        generations st' = generations st ++ [g] /\
        g_experiment_id g = eid /\ g_task_id g = tid /\
        model_provider g = provider /\ model_name g = model /\
        prompt_strategy g = strategy
    end /\
    (forall e task params,
       query_experiment st eid = Some e -> query_task st tid = Some task ->
       MODELS !! provider = Some params ->
       exists g, r = inr g /\
         prompt_used g =
           prepare_prompt task strategy (baseline_samples e)
             (draw1 env) (draw2 env) /\
         generation_params g = params /\
         match generate_try PRICING self env provider model (prompt_used g)
                 params with
         | inr (text, md) =>
             generated_content g = match text with Some c => c | None => "" end /\
             prompt_tokens g = md_prompt_tokens md /\
             completion_tokens g = md_completion_tokens md /\
             cost_usd g = md_cost_usd md
         | inl _ =>
             generated_content g = "" /\ prompt_tokens g = 0 /\
             completion_tokens g = 0 /\ cost_usd g = 0%Q
         end).
Proof.
  unfold generate_single, same_but_generations; unfold_m.
  destruct (query_experiment st eid) as [e|] eqn:He.
  2:{ do 2 eexists. split; [reflexivity|]. repeat split. discriminate. }
  destruct (query_task st tid) as [task|] eqn:Htask.
  2:{ do 2 eexists. split; [reflexivity|]. repeat split. discriminate. }
  destruct (MODELS !! provider) as [params|] eqn:Hm.
  2:{ do 2 eexists. split; [reflexivity|]. repeat split. discriminate. }
  match goal with |- context [generate ?a ?b ?c ?d ?e ?f ?g (Some ?h) ?s] =>
    destruct (generate_returns a b c d e f g h s) as (r & -> & Hr) end.
  do 2 eexists. split; [reflexivity|]. simpl. repeat split.
  intros e' task' params' [= <-] [= <-] [= <-].
  eexists. split; [reflexivity|]. simpl. repeat split.
  destruct (generate_try _ _ _ _ _ _ _) as [msg|[text md]]; subst r; simpl;
    repeat split.
Qed.

Lemma PromptStrategy_of_value ps st :
  PromptStrategy_of (strategy_value ps) st = (inr ps, st).
Proof. destruct ps; reflexivity. Qed.

Lemma PromptStrategy_of_effect s st :
  exists r, PromptStrategy_of s st = (r, st) /\
    match r with
    | inr ps => strategy_value ps = s
    | inl _ => True
    end.
Proof.
  unfold PromptStrategy_of.
  destruct (String.eqb_spec s "structured") as [->|_];
    [eexists; split; reflexivity|].
  destruct (String.eqb_spec s "example_based") as [->|_];
    eexists; split; reflexivity.
Qed.

Lemma strategy_db_value_value ps :
  strategy_db_value (strategy_value ps) = strategy_name ps.
Proof. destruct ps; reflexivity. Qed.

Lemma combination_stored_find st eid mc strategy tid :
  combination_stored st eid (mc, strategy, tid) =
  match existing_generation st eid tid (mc_provider mc) strategy with
  | Some _ => true
  | None => false
  end.
Proof. reflexivity. Qed.

(** One attempt of the sweep always returns and reports; it adds at most
    one Generation, of its combination, and only when none is stored. *)
Lemma sweep_attempt_effect MODELS PRICING self env eid total c loc st :
  exists loc' st',
    sweep_attempt MODELS PRICING self env eid total c loc st = (inr loc', st') /\
    same_but_generations st st' /\
    sw_completed loc' = sw_completed loc + 1 /\
    sw_progress loc' = sw_progress loc ++ [(sw_completed loc + 1, total)] /\
    (generations st' = generations st \/
     exists g, generations st' = generations st ++ [g] /\
               combination_stored st eid c = false /\
               of_combination eid c g = true) /\
    (combination_stored st eid c = true -> generations st' = generations st) /\
    (forall ps,
       combination_stored st eid c = false ->
       strategy_value ps = snd (fst c) ->
       match generate_single MODELS PRICING self env eid (snd c)
               (mc_provider (fst (fst c))) (mc_model (fst (fst c))) ps st with
       | (inr g, st1) => st' = st1 /\ loc' = report total (appended g loc)
       | (inl _, st1) => st' = st1 /\ loc' = report total loc
       end).
Proof.
  destruct c as [[mc strategy] tid].
  unfold sweep_attempt. rewrite combination_stored_find.
  unfold try_except, bind, get, ret. cbn [fst snd].
  destruct (existing_generation st eid tid (mc_provider mc) strategy)
    as [existing|] eqn:Hex.
  { do 2 eexists. split; [reflexivity|]. unfold same_but_generations.
    repeat split; auto. discriminate. }
  destruct (PromptStrategy_of_effect strategy st) as (r & Hr & Hps).
  rewrite Hr. destruct r as [e|ps].
  { do 2 eexists. split; [reflexivity|]. unfold same_but_generations.
    repeat split; auto; try discriminate.
    intros ps _ Hv. rewrite <- Hv, PromptStrategy_of_value in Hr. discriminate. }
  destruct (generate_single_effect MODELS PRICING self env eid tid
              (mc_provider mc) (mc_model mc) ps st)
    as (r & st1 & Hrun & Hframe & Hgen & _).
  rewrite Hrun.
  assert (Hsame : forall ps', strategy_value ps' = strategy -> ps' = ps)
    by (intros ps' Hv; destruct ps, ps'; simpl in *; congruence).
  destruct r as [e|g].
  - do 2 eexists. split; [reflexivity|].
    split; [exact Hframe|]. do 2 (split; [reflexivity|]).
    split; [now left|]. split; [discriminate|].
    intros ps' _ Hv. rewrite (Hsame ps' Hv), Hrun. now split.
  - destruct Hgen as (Hg & He & Ht & Hp & Hm & Hs).
    do 2 eexists. split; [reflexivity|].
    split; [exact Hframe|]. do 2 (split; [reflexivity|]).
    split; [|split; [discriminate|]].
    + right. exists g. repeat split; [assumption|].
      unfold of_combination, same_combination.
      rewrite He, Ht, Hp, Hs, <- Hps, strategy_db_value_value, Z.eqb_refl,
        !String.eqb_refl.
      reflexivity.
    + intros ps' _ Hv. rewrite (Hsame ps' Hv), Hrun. now split.
Qed.

Lemma progress_reports_cons done total n :
  progress_reports done total (S n) =
  (done + 1, total) :: progress_reports (done + 1) total n.
Proof.
  unfold progress_reports. simpl. f_equal.
  rewrite <- List.seq_shift, List.map_map. apply List.map_ext.
  intros i. f_equal. lia.
Qed.

(** The two inner loops always run to their end: every triple is
    reported, whatever its attempt did, and Generations are only added. *)
Lemma sweep_loop_effect MODELS PRICING self envs eid total cs :
  forall k loc st,
  exists loc' st' news,
    sweep_loop MODELS PRICING self envs eid total k cs loc st = (inr loc', st') /\
    same_but_generations st st' /\
    generations st' = generations st ++ news /\
    sw_completed loc' = sw_completed loc + count cs /\
    sw_progress loc' =
      sw_progress loc ++ progress_reports (sw_completed loc) total (List.length cs).
Proof.
  induction cs as [|c cs IH]; intros k loc st.
  - exists loc, st, []. unfold same_but_generations, count. simpl.
    rewrite !List.app_nil_r. repeat split; auto. lia.
  - simpl sweep_loop. unfold bind.
    destruct (sweep_attempt_effect MODELS PRICING self (envs k) eid total c loc st)
      as (loc1 & st1 & -> & Hf1 & Hc1 & Hp1 & Hg1 & _).
    destruct (IH (S k) loc1 st1) as (loc' & st' & news & -> & Hf & Hg & Hc & Hp).
    destruct Hf1 as (A1 & A2 & A3 & A4). destruct Hf as (B1 & B2 & B3 & B4).
    exists loc', st'.
    destruct Hg1 as [Hg1|(g & Hg1 & _)].
    + exists news. unfold same_but_generations. repeat split; try congruence.
      * rewrite Hc, Hc1. unfold count. simpl List.length. lia.
      * simpl List.length.
        rewrite Hp, Hp1, Hc1, progress_reports_cons, <- List.app_assoc.
        reflexivity.
    + exists (g :: news). unfold same_but_generations.
      repeat split; try congruence.
      * rewrite Hg, Hg1, <- List.app_assoc. reflexivity.
      * rewrite Hc, Hc1. unfold count. simpl List.length. lia.
      * simpl List.length.
        rewrite Hp, Hp1, Hc1, progress_reports_cons, <- List.app_assoc.
        reflexivity.
Qed.

(** ** Status updates *)

Lemma find_set_status eid s l eid' :
  option_map status (List.find (fun e => e_id e =? eid') (set_status eid s l)) =
  option_map (fun x => if eid' =? eid then s else x)
    (option_map status (List.find (fun e => e_id e =? eid') l)).
Proof.
  induction l as [|e l IH]; simpl; [reflexivity|].
  destruct (Z.eqb_spec (e_id e) eid) as [He|He]; simpl.
  - destruct (Z.eqb_spec (e_id e) eid') as [He'|He']; simpl.
    + replace (eid' =? eid) with true by (symmetry; apply Z.eqb_eq; congruence).
      reflexivity.
    + destruct (List.find _ l) as [x|]; simpl; [|reflexivity].
      replace (eid' =? eid) with false; [reflexivity|].
      symmetry. apply Z.eqb_neq. congruence.
  - destruct (Z.eqb_spec (e_id e) eid') as [He'|He']; simpl; [|exact IH].
    replace (eid' =? eid) with false; [reflexivity|].
    symmetry. apply Z.eqb_neq. congruence.
Qed.

Lemma status_of_set_status st eid s eid' :
  status_of (with_experiments st (set_status eid s (experiments st))) eid' =
  option_map (fun x => if eid' =? eid then s else x) (status_of st eid').
Proof. apply find_set_status. Qed.

Lemma set_status_twice eid s1 s2 l :
  set_status eid s2 (set_status eid s1 l) = set_status eid s2 l.
Proof.
  induction l as [|e l IH]; simpl; [reflexivity|].
  destruct (Z.eqb_spec (e_id e) eid) as [He|He]; simpl.
  - rewrite He, Z.eqb_refl. reflexivity.
  - destruct (Z.eqb_spec (e_id e) eid); [contradiction|]. now rewrite IH.
Qed.

(** The experiment found after a status change is the one found before,
    up to its status. *)
Lemma query_set_status st eid s e :
  query_experiment st eid = Some e ->
  exists e',
    query_experiment (with_experiments st (set_status eid s (experiments st))) eid
      = Some e' /\
    baseline_samples e' = baseline_samples e /\
    selected_models e' = selected_models e /\
    selected_strategies e' = selected_strategies e /\
    selected_tasks e' = selected_tasks e /\
    e_id e' = e_id e.
Proof.
  unfold query_experiment. simpl.
  induction (experiments st) as [|x l IH]; simpl; [discriminate|].
  destruct (Z.eqb_spec (e_id x) eid) as [Hx|Hx].
  - intros [= <-]. simpl. rewrite Hx, Z.eqb_refl. eexists. split; [reflexivity|].
    simpl. auto.
  - intros H. simpl. destruct (Z.eqb_spec (e_id x) eid); [contradiction|].
    auto.
Qed.

(** ** The whole sweep *)

Lemma sweep_loop_app MODELS PRICING self envs eid total cs1 cs2 :
  forall k loc st,
    sweep_loop MODELS PRICING self envs eid total k (cs1 ++ cs2) loc st =
    match sweep_loop MODELS PRICING self envs eid total k cs1 loc st with
    | (inr loc', st') =>
        sweep_loop MODELS PRICING self envs eid total (k + List.length cs1)
          cs2 loc' st'
    | (inl x, st') => (inl x, st')
    end.
Proof.
  induction cs1 as [|c cs1 IH]; intros k loc st; cbn [sweep_loop List.app].
  - unfold ret. cbn [List.length]. now rewrite Nat.add_0_r.
  - unfold bind.
    destruct (sweep_attempt MODELS PRICING self (envs k) eid total c loc st)
      as [[x|loc1] st1]; [reflexivity|].
    rewrite IH. cbn [List.length].
    now replace (S k + List.length cs1)%nat with (k + S (List.length cs1))%nat
      by lia.
Qed.

(** The outer loop runs the two inner ones for the entries before the
    first that lacks a key, and then raises for that key or returns. *)
Lemma sweep_models_run MODELS PRICING self envs eid total e mcs :
  forall k loc st,
    sweep_models MODELS PRICING self envs eid total e k mcs loc st =
    match sweep_loop MODELS PRICING self envs eid total k
            (List.flat_map (inner_combinations e) (swept_models mcs)) loc st with
    | (inr loc', st') =>
        (match missing_key mcs with
         | None => inr loc'
         | Some key => inl (KeyError key)
         end, st')
    | (inl x, st') => (inl x, st')
    end.
Proof.
  induction mcs as [|mc mcs IH]; intros k loc st;
    cbn [sweep_models swept_models missing_key]; [reflexivity|].
  unfold bind at 1. unfold getitem at 1.
  destruct (mc !! "provider") as [provider|]; [|reflexivity].
  unfold ret at 1. unfold bind at 1. unfold getitem at 1.
  destruct (mc !! "model") as [model|]; [|reflexivity].
  unfold ret at 1. cbv zeta. cbn [List.flat_map]. rewrite sweep_loop_app.
  unfold bind at 1.
  destruct (sweep_loop MODELS PRICING self envs eid total k
              (inner_combinations e
                 {| mc_provider := provider; mc_model := model |}) loc st)
    as [[x|loc1] st1]; [reflexivity|].
  apply IH.
Qed.

Lemma inner_combinations_length e mc :
  List.length (inner_combinations e mc) =
  (List.length (selected_strategies e) * List.length (selected_tasks e))%nat.
Proof.
  unfold inner_combinations.
  induction (selected_strategies e) as [|s l IH]; simpl; [reflexivity|].
  now rewrite List.length_app, List.length_map, IH.
Qed.

Lemma swept_models_length mcs :
  (List.length (swept_models mcs) <= List.length mcs)%nat /\
  (missing_key mcs = None -> List.length (swept_models mcs) = List.length mcs).
Proof.
  induction mcs as [|mc mcs [IH1 IH2]]; cbn [swept_models missing_key];
    [split; [simpl; lia|reflexivity]|].
  destruct (mc !! "provider"); [|split; [simpl; lia|discriminate]].
  destruct (mc !! "model"); [|split; [simpl; lia|discriminate]].
  simpl List.length. split; [lia|]. intros H. now rewrite IH2.
Qed.

Lemma combinations_count e :
  count (combinations e) =
  count (swept_models (selected_models e)) * count (selected_strategies e)
  * count (selected_tasks e).
Proof.
  unfold combinations, count.
  induction (swept_models (selected_models e)) as [|mc l IH]; simpl;
    [reflexivity|].
  rewrite List.length_app, Nat2Z.inj_add, IH, inner_combinations_length. lia.
Qed.

(** Without a missing key the loops run through all the combinations;
    otherwise through fewer, or as many. *)
Lemma combinations_length e :
  missing_key (selected_models e) = None ->
  count (combinations e) = total_combinations e.
Proof.
  intros H. rewrite combinations_count. unfold total_combinations, count.
  now rewrite (proj2 (swept_models_length (selected_models e)) H).
Qed.

Lemma combinations_bound e :
  count (combinations e) <= total_combinations e.
Proof.
  rewrite combinations_count. unfold total_combinations, count.
  pose proof (proj1 (swept_models_length (selected_models e))) as H.
  apply Z.mul_le_mono_nonneg_r; [lia|].
  apply Z.mul_le_mono_nonneg_r; lia.
Qed.

Lemma in_swept_models mcs mc :
  In mc (swept_models mcs) ->
  exists model_config, In model_config mcs /\
    model_config !! "provider" = Some (mc_provider mc) /\
    model_config !! "model" = Some (mc_model mc).
Proof.
  induction mcs as [|x mcs IH]; cbn [swept_models]; [intros []|].
  destruct (x !! "provider") as [provider|] eqn:Hp; [|intros []].
  destruct (x !! "model") as [model|] eqn:Hm; [|intros []].
  intros [<-|Hin].
  - exists x. split; [now left|]. now split.
  - destruct (IH Hin) as (y & Hy & H). exists y. split; [now right|exact H].
Qed.

Lemma in_combinations e mc strategy tid :
  In (mc, strategy, tid) (combinations e) ->
  (exists model_config, In model_config (selected_models e) /\
     model_config !! "provider" = Some (mc_provider mc) /\
     model_config !! "model" = Some (mc_model mc)) /\
  In strategy (selected_strategies e) /\
  In tid (selected_tasks e).
Proof.
  unfold combinations. rewrite List.in_flat_map. intros (mc' & Hmc & H).
  unfold inner_combinations in H.
  rewrite List.in_flat_map in H. destruct H as (s' & Hs & H).
  rewrite List.in_map_iff in H. destruct H as (t' & [= <- <- <-] & Ht).
  split; [now apply in_swept_models|]. auto.
Qed.

Lemma attemptable_missing_key MODELS st e :
  attemptable MODELS st e -> missing_key (selected_models e) = None.
Proof.
  intros (_ & _ & H). induction (selected_models e) as [|mc l IH];
    cbn [missing_key]; [reflexivity|].
  destruct (H mc (or_introl eq_refl)) as (p & m & _ & -> & -> & _).
  apply IH. intros x Hx. apply H. now right.
Qed.

(** The sweep of an existing experiment goes through "generating" and
    reports every combination its loops reach. It returns, with the
    status "evaluating", when no entry of [selected_models] lacks a key;
    otherwise the subscript raises and the status stays "generating". *)
Lemma generate_all_effect MODELS PRICING self envs eid st e :
  query_experiment st eid = Some e ->
  exists loc st1 news,
    sweep_loop MODELS PRICING self envs eid (total_combinations e) 0
      (combinations e)
      {| sw_generations := []; sw_completed := 0; sw_progress := [] |}
      (with_experiments st (set_status eid "generating" (experiments st)))
      = (inr loc, st1) /\
    generate_all_for_experiment MODELS PRICING self envs eid st =
      match missing_key (selected_models e) with
      | None =>
          (inr loc,
           with_experiments st1 (set_status eid "evaluating" (experiments st)))
      | Some key => (inl (KeyError key), st1)
      end /\
    generations st1 = generations st ++ news /\
    tasks st1 = tasks st /\ evaluations st1 = evaluations st /\
    blind_id_cache st1 = blind_id_cache st /\
    sw_completed loc = count (combinations e) /\
    sw_progress loc =
      progress_reports 0 (total_combinations e) (List.length (combinations e)) /\
    experiments st1 = set_status eid "generating" (experiments st).
Proof.
  intros He. unfold generate_all_for_experiment.
  unfold bind at 1. unfold get at 1. rewrite He.
  unfold bind at 1. unfold put at 1. unfold bind at 1.
  rewrite sweep_models_run. fold (combinations e).
  match goal with |- context [sweep_loop ?a ?b ?c ?d ?e ?f ?g ?h ?i ?s] =>
    destruct (sweep_loop_effect a b c d e f h g i s)
      as (loc & st1 & news & Hrun & (F1 & F2 & F3 & F4) & Hg & Hc & Hp) end.
  exists loc, st1, news. rewrite Hrun. simpl in F1, F2, F3, F4, Hg, Hc, Hp.
  split; [reflexivity|]. split.
  - destruct (missing_key (selected_models e)); [reflexivity|].
    unfold bind, get, put, ret. rewrite F1, set_status_twice. reflexivity.
  - repeat split; assumption.
Qed.

(** Whatever the sweep does, it leaves the tables of tasks, Evaluations
    and blind assignments, only adds Generations, and changes no status
    but that of its experiment. *)
Lemma generate_all_state MODELS PRICING self envs eid st :
  let st' := snd (generate_all_for_experiment MODELS PRICING self envs eid st) in
  (exists news, generations st' = generations st ++ news) /\
  tasks st' = tasks st /\ evaluations st' = evaluations st /\
  blind_id_cache st' = blind_id_cache st /\
  (experiments st' = experiments st \/
   exists s, (s = "generating" \/ s = "evaluating") /\
     experiments st' = set_status eid s (experiments st)).
Proof.
  cbv zeta. destruct (query_experiment st eid) as [e|] eqn:He.
  - destruct (generate_all_effect MODELS PRICING self envs eid st e He)
      as (loc & st1 & news & _ & -> & Hg & Ht & Hv & Hb & _ & _ & Hx).
    destruct (missing_key (selected_models e));
      cbn [snd generations tasks evaluations blind_id_cache experiments
           with_experiments];
      (split; [eauto|]); repeat (split; [assumption|]); right; eauto.
  - unfold generate_all_for_experiment, bind, get, raise. rewrite He.
    cbn [snd]. split; [exists []; now rewrite List.app_nil_r|]. auto.
Qed.

(** ** C3: resuming a sweep *)

Lemma of_combination_key eid c c' g :
  of_combination eid c g = true -> of_combination eid c' g = true ->
  combination_key c = combination_key c'.
Proof.
  destruct c as [[mc s] t], c' as [[mc' s'] t'].
  unfold of_combination, same_combination, combination_key.
  rewrite !andb_true_iff, !String.eqb_eq.
  intros (((_ & <-) & H1) & H2) (((_ & <-) & H3) & H4). congruence.
Qed.

Lemma combination_stored_ext st st' eid c :
  generations st' = generations st ->
  combination_stored st' eid c = combination_stored st eid c.
Proof.
  destruct c as [[mc s] t]. unfold combination_stored, existing_generation.
  now intros ->.
Qed.

Lemma find_app_one {A} (f : A -> bool) l x :
  List.find f (l ++ [x]) =
  match List.find f l with
  | Some y => Some y
  | None => if f x then Some x else None
  end.
Proof.
  induction l as [|a l IH]; simpl; [reflexivity|].
  destruct (f a); [reflexivity|exact IH].
Qed.

Lemma combination_stored_other st st' eid c c' g :
  generations st' = generations st ++ [g] ->
  of_combination eid c g = true ->
  combination_key c' <> combination_key c ->
  combination_stored st' eid c' = combination_stored st eid c'.
Proof.
  intros Hg Hc Hne.
  assert (of_combination eid c' g = false) as Hf.
  { destruct (of_combination eid c' g) eqn:E; [|reflexivity].
    exfalso. apply Hne. eapply of_combination_key; eassumption. }
  destruct c' as [[mc s] t].
  unfold combination_stored, existing_generation in *. rewrite Hg, find_app_one.
  destruct (List.find _ (generations st)); [reflexivity|].
  unfold of_combination in Hf. now rewrite Hf.
Qed.

Lemma sweep_loop_creates MODELS PRICING self envs eid total cs :
  List.NoDup (List.map combination_key cs) ->
  forall k loc st,
    (exists e, query_experiment st eid = Some e) ->
    (forall c, In c cs -> attemptable_combination MODELS st c) ->
    exists loc' st' news,
      sweep_loop MODELS PRICING self envs eid total k cs loc st = (inr loc', st') /\
      generations st' = generations st ++ news /\
      List.length news =
        List.length
          (List.filter (fun c => negb (combination_stored st eid c)) cs) /\
      (forall g, In g news ->
         exists c, In c cs /\ combination_stored st eid c = false /\
                   of_combination eid c g = true).
Proof.
  induction cs as [|c cs IH]; intros Hnd k loc st Hexp Hok.
  - exists loc, st, []. simpl. rewrite List.app_nil_r.
    repeat split; auto. intros g [].
  - simpl in Hnd. apply List.NoDup_cons_iff in Hnd as [Hfresh Hnd].
    simpl sweep_loop. unfold bind.
    destruct (sweep_attempt_effect MODELS PRICING self (envs k) eid total c loc st)
      as (loc1 & st1 & -> & (F1 & F2 & _) & _ & _ & Hadd & Hkept & Hnew).
    assert (Hexp1 : exists e, query_experiment st1 eid = Some e)
      by (unfold query_experiment; now rewrite F1).
    assert (Hok1 : forall c', In c' cs -> attemptable_combination MODELS st1 c').
    { intros c' Hin. destruct (Hok c' (or_intror Hin)) as (A & B & C).
      unfold attemptable_combination, query_task. rewrite F2. auto. }
    destruct (combination_stored st eid c) eqn:Hstored.
    + specialize (Hkept eq_refl).
      destruct (IH Hnd (S k) loc1 st1 Hexp1 Hok1)
        as (loc' & st' & news & -> & Hg & Hlen & Hkeys).
      exists loc', st', news. split; [reflexivity|].
      split; [congruence|]. simpl. rewrite Hstored. simpl.
      split.
      * rewrite Hlen. f_equal. apply List.filter_ext. intros c'.
        now rewrite (combination_stored_ext st st1 eid c' Hkept).
      * intros g Hin. destruct (Hkeys g Hin) as (c' & Hc' & Hs' & Hof).
        exists c'. rewrite (combination_stored_ext st st1 eid c' Hkept) in Hs'.
        auto.
    + destruct (Hok c (or_introl eq_refl))
        as ((ps & Hps) & (task & Htask) & (params & Hparams)).
      destruct Hexp as (e & He).
      specialize (Hnew ps eq_refl Hps).
      destruct (generate_single_effect MODELS PRICING self (envs k) eid (snd c)
                  (mc_provider (fst (fst c))) (mc_model (fst (fst c))) ps st)
        as (r & st2 & Hrun & _ & Hgen & Hsucc).
      destruct (Hsucc e task params He Htask Hparams) as (g & -> & _).
      rewrite Hrun in Hnew. destruct Hnew as [<- _].
      destruct Hgen as (Hg1 & _).
      assert (of_combination eid c g = true) as Hof.
      { destruct Hadd as [Hsame|(g' & Hg' & _ & Hof')].
        - exfalso. rewrite Hsame in Hg1.
          apply (f_equal (@List.length Generation)) in Hg1.
          rewrite List.length_app in Hg1. simpl in Hg1. lia.
        - rewrite Hg1 in Hg'. apply List.app_inv_head in Hg'.
          now injection Hg' as ->. }
      assert (Hother : forall c', In c' cs ->
                combination_stored st1 eid c' = combination_stored st eid c').
      { intros c' Hin. apply (combination_stored_other st st1 eid c c' g Hg1 Hof).
        intros Heq. apply Hfresh. rewrite <- Heq. now apply List.in_map. }
      destruct (IH Hnd (S k) loc1 st1 Hexp1 Hok1)
        as (loc' & st' & news & -> & Hg & Hlen & Hkeys).
      exists loc', st', (g :: news). split; [reflexivity|].
      split; [rewrite Hg, Hg1, <- List.app_assoc; reflexivity|].
      simpl. rewrite Hstored. simpl. split.
      * rewrite Hlen. f_equal. f_equal. apply List.filter_ext_in.
        intros c' Hin. now rewrite Hother.
      * intros g' [<-|Hin]; [exists c; auto|].
        destruct (Hkeys g' Hin) as (c' & Hc' & Hs' & Hof').
        exists c'. rewrite (Hother c' Hc') in Hs'. auto.
Qed.

Lemma attemptable_combinations MODELS st e c :
  attemptable MODELS st e -> In c (combinations e) ->
  attemptable_combination MODELS st c.
Proof.
  intros (Hs & Ht & Hm) Hin. destruct c as [[mc s] t].
  apply in_combinations in Hin as ((x & Hx & Hp & _) & H2 & H3).
  repeat split; cbn [fst snd]; auto.
  - destruct (Hs s H2) as [->| ->];
      [exists STRUCTURED|exists EXAMPLE_BASED]; reflexivity.
  - destruct (Hm x Hx) as (p & m & params & Hp' & _ & Hparams).
    exists params. congruence.
Qed.

Lemma find_pointwise {A} (f g : A -> bool) l :
  (forall x, f x = g x) -> List.find f l = List.find g l.
Proof.
  intros H. induction l as [|a l IH]; simpl; [reflexivity|].
  now rewrite H, IH.
Qed.

Lemma filter_negb_length {A} (f : A -> bool) l :
  count (List.filter (fun x => negb (f x)) l) = count l - count (List.filter f l).
Proof.
  unfold count. induction l as [|a l IH]; simpl; [reflexivity|].
  destruct (f a); simpl; lia.
Qed.

(** C3, as stated, fails: the experiment of [st_two_models] has M = 2
    combinations (two models of the provider "openai", one strategy, one
    task), none of them stored (N = 0), and its sweep creates one
    Generation, not two. *)
Lemma same_provider_models_are_one_combination :
  query_experiment st_two_models 1 = Some two_models /\
  total_combinations two_models = 2 /\
  stored_combinations st_two_models two_models = 0 /\
  generations st_two_models = [] /\
  exists loc st',
    generate_all_for_experiment demo_models demo_pricing demo_client
      (fun _ => answering) 1 st_two_models = (inr loc, st') /\
    List.map model_name (generations st') = ["gpt-4"].
Proof.
  repeat split; try (vm_compute; reflexivity).
  do 2 eexists. split; vm_compute; reflexivity.
Qed.

(** C3, amended. When the combinations of the experiment have pairwise
    different (task, provider, strategy) keys and each of them can be
    attempted (its strategy is one of the two, its task is in the
    catalog, its entry of [selected_models] has the keys "provider" and
    "model", its provider is configured), a sweep over M combinations of
    which N have a stored Generation returns, keeps the stored
    Generations, and adds exactly M - N new ones, none of them for a key
    that had a Generation. *)
Theorem resumed_sweep_creates_the_missing MODELS PRICING self envs st e :
  query_experiment st (e_id e) = Some e ->
  List.NoDup (List.map combination_key (combinations e)) ->
  attemptable MODELS st e ->
  exists loc st' news,
    generate_all_for_experiment MODELS PRICING self envs (e_id e) st
      = (inr loc, st') /\
    generations st' = generations st ++ news /\
    count news = total_combinations e - stored_combinations st e /\
    (forall g, In g news ->
       g_experiment_id g = e_id e /\
       existing_generation st (e_id e) (g_task_id g) (model_provider g)
         (strategy_value (prompt_strategy g)) = None).
Proof.
  intros He Hnd Hok.
  pose proof (attemptable_missing_key MODELS st e Hok) as Hkeyed.
  destruct (generate_all_effect MODELS PRICING self envs (e_id e) st e He)
    as (loc & st1 & news & Hloop & Hall & Hg & _).
  rewrite Hkeyed in Hall.
  set (st0 := with_experiments st
                (set_status (e_id e) "generating" (experiments st))) in *.
  destruct (query_set_status st (e_id e) "generating" e He) as (e0 & He0 & _).
  destruct (sweep_loop_creates MODELS PRICING self envs (e_id e)
              (total_combinations e) (combinations e) Hnd 0%nat
              {| sw_generations := []; sw_completed := 0; sw_progress := [] |}
              st0)
    as (loc' & st1' & news' & Hloop' & Hg' & Hlen & Hkeys).
  { exists e0. exact He0. }
  { intros c Hin.
    destruct (attemptable_combinations MODELS st e c Hok Hin) as (A & B & C).
    repeat split; assumption. }
  rewrite Hloop in Hloop'. injection Hloop' as <- <-.
  change (generations st0) with (generations st) in Hg'.
  rewrite Hg in Hg'. apply List.app_inv_head in Hg'. subst news'.
  exists loc. eexists. exists news.
  split; [exact Hall|]. split; [exact Hg|]. split.
  - unfold stored_combinations. rewrite <- (combinations_length e Hkeyed).
    rewrite <- filter_negb_length. unfold count. rewrite Hlen.
    reflexivity.
  - intros g Hin. destruct (Hkeys g Hin) as ([[mc s] t] & _ & Hstored & Hof).
    rewrite (combination_stored_ext st st0) in Hstored by reflexivity.
    unfold combination_stored, existing_generation in Hstored.
    unfold of_combination, same_combination in Hof.
    rewrite !andb_true_iff, !String.eqb_eq, Z.eqb_eq in Hof.
    destruct Hof as (((Hexp & Ht) & Hp) & Hs). split; [exact Hexp|].
    unfold existing_generation.
    rewrite (find_pointwise _ (same_combination (e_id e) t (mc_provider mc) s)).
    + destruct (List.find _ _); [discriminate|reflexivity].
    + intros g'. unfold same_combination.
      now rewrite strategy_db_value_value, Ht, Hp, Hs.
Qed.

Lemma resumed_sweep_creates_the_missing_witness :
  total_combinations two_strategies = 2 /\
  stored_combinations st_interrupted two_strategies = 1 /\
  exists loc st' news,
    generate_all_for_experiment demo_models demo_pricing demo_client
      (fun _ => answering) 1 st_interrupted = (inr loc, st') /\
    generations st' = generations st_interrupted ++ news /\
    count news = 1.
Proof.
  split; [reflexivity|]. split; [vm_compute; reflexivity|].
  destruct (resumed_sweep_creates_the_missing demo_models demo_pricing
              demo_client (fun _ => answering) st_interrupted two_strategies)
    as (loc & st' & news & H1 & H2 & H3 & _).
  - vm_compute. reflexivity.
  - repeat constructor; simpl; intuition discriminate.
  - split; [|split].
    + intros s [<-|[<-|[]]]; auto.
    + intros t [<-|[]]. eexists. vm_compute. reflexivity.
    + intros mc [<-|[]]. exists "openai", "gpt-4". eexists.
      repeat split; vm_compute; reflexivity.
  - exists loc, st', news. split; [exact H1|]. split; [exact H2|].
    rewrite H3. vm_compute. reflexivity.
Defined.

(** ** C6: provider failures *)

(** The failures the adapter meets: an exception of the SDK (error,
    timeout) for any of the three providers, and missing credentials. *)
Lemma provider_failures MODELS PRICING self env provider model prompt :
  (In provider ["openai"; "anthropic"; "google"] /\
   (forall params, exists msg,
      sdk_call env provider model prompt params = SdkError msg)) \/
  (provider = "openai" /\ openai_client self = false) \/
  (provider = "anthropic" /\ anthropic_client self = false) ->
  provider_call_fails MODELS PRICING self env provider model prompt.
Proof.
  intros H params _. unfold generate_try.
  destruct H as [(Hp & Hsdk)|[(-> & Hk)|(-> & Hk)]].
  - destruct (Hsdk params) as (msg & Hmsg).
    destruct Hp as [<-|[<-|[<-|[]]]]; simpl; rewrite Hmsg;
      [destruct (openai_client self)|destruct (anthropic_client self)|];
      simpl; eauto.
  - simpl. rewrite Hk. simpl. eauto.
  - simpl. rewrite Hk. simpl. eauto.
Qed.

(** C6. A provider call that fails is caught in [LLMClient.generate],
    which returns no content and zero usage; [generate_single] stores a
    Generation with empty content and zero tokens and cost for it; in the
    sweep the attempt appends this Generation, counts the combination and
    reports it, and returns, so that the loops go on; and the sweep of an
    experiment whose entries of [selected_models] all have their two keys
    returns, whatever the providers did, with every combination counted
    and the experiment in status "evaluating". *)
Theorem provider_failure_is_recorded MODELS PRICING self :
  (forall env provider model prompt params st,
     MODELS !! provider = Some params ->
     provider_call_fails MODELS PRICING self env provider model prompt ->
     exists msg,
       generate MODELS PRICING self env provider model prompt (Some params) st =
       (inr (None,
             {| md_error := Some msg; md_latency_ms := elapsed_ms env;
                md_prompt_tokens := 0; md_completion_tokens := 0;
                md_cost_usd := 0%Q |}), st)) /\
  (forall env eid tid provider model strategy st e task,
     query_experiment st eid = Some e -> query_task st tid = Some task ->
     is_Some (MODELS !! provider) ->
     provider_call_fails MODELS PRICING self env provider model
       (prepare_prompt task strategy (baseline_samples e) (draw1 env) (draw2 env)) ->
     exists g st',
       generate_single MODELS PRICING self env eid tid provider model strategy st
         = (inr g, st') /\
       generations st' = generations st ++ [g] /\
       generated_content g = "" /\ prompt_tokens g = 0 /\
       completion_tokens g = 0 /\ cost_usd g = 0%Q) /\
  (forall env eid total mc strategy tid loc st e task ps,
     query_experiment st eid = Some e -> query_task st tid = Some task ->
     is_Some (MODELS !! mc_provider mc) ->
     strategy_value ps = strategy ->
     combination_stored st eid (mc, strategy, tid) = false ->
     provider_call_fails MODELS PRICING self env (mc_provider mc) (mc_model mc)
       (prepare_prompt task ps (baseline_samples e) (draw1 env) (draw2 env)) ->
     exists g loc' st',
       sweep_attempt MODELS PRICING self env eid total (mc, strategy, tid) loc st
         = (inr loc', st') /\
       generations st' = generations st ++ [g] /\
       generated_content g = "" /\ prompt_tokens g = 0 /\
       completion_tokens g = 0 /\
       sw_generations loc' = sw_generations loc ++ [g] /\
       sw_completed loc' = sw_completed loc + 1 /\
       sw_progress loc' = sw_progress loc ++ [(sw_completed loc + 1, total)]) /\
  (forall envs eid st e,
     query_experiment st eid = Some e ->
     missing_key (selected_models e) = None ->
     exists loc st',
       generate_all_for_experiment MODELS PRICING self envs eid st
         = (inr loc, st') /\
       sw_completed loc = total_combinations e /\
       sw_progress loc =
         progress_reports 0 (total_combinations e)
           (List.length (combinations e)) /\
       status_of st' eid = Some "evaluating").
Proof.
  assert (Hsingle :
    forall env eid tid provider model strategy st e task,
     query_experiment st eid = Some e -> query_task st tid = Some task ->
     is_Some (MODELS !! provider) ->
     provider_call_fails MODELS PRICING self env provider model
       (prepare_prompt task strategy (baseline_samples e) (draw1 env) (draw2 env)) ->
     exists g st',
       generate_single MODELS PRICING self env eid tid provider model strategy st
         = (inr g, st') /\
       generations st' = generations st ++ [g] /\
       generated_content g = "" /\ prompt_tokens g = 0 /\
       completion_tokens g = 0 /\ cost_usd g = 0%Q).
  { intros env eid tid provider model strategy st e task He Ht [params Hm] Hfail.
    destruct (generate_single_effect MODELS PRICING self env eid tid provider
                model strategy st) as (r & st' & Hrun & _ & Hgen & Hsucc).
    destruct (Hsucc e task params He Ht Hm) as (g & -> & Hprompt & _ & Hres).
    rewrite Hprompt in Hres. destruct (Hfail params Hm) as (msg & Hmsg).
    rewrite Hmsg in Hres. destruct Hgen as (Hg & _).
    exists g, st'. tauto. }
  split; [|split; [exact Hsingle|split]].
  - intros env provider model prompt params st Hm Hfail.
    destruct (Hfail params Hm) as (msg & Hmsg). exists msg.
    unfold generate. now rewrite Hmsg.
  - intros env eid total mc strategy tid loc st e task ps He Ht Hm Hps Hstored
      Hfail.
    destruct (Hsingle env eid tid (mc_provider mc) (mc_model mc) ps st e task
                He Ht Hm Hfail) as (g & st1 & Hrun & Hg & Hc & Hp & Hk & _).
    destruct (sweep_attempt_effect MODELS PRICING self env eid total
                (mc, strategy, tid) loc st)
      as (loc' & st' & Hattempt & _ & _ & _ & _ & _ & Hnew).
    specialize (Hnew ps Hstored Hps). simpl in Hnew. rewrite Hrun in Hnew.
    destruct Hnew as [-> ->]. exists g. do 2 eexists.
    split; [exact Hattempt|]. simpl. repeat split; assumption.
  - intros envs eid st e He Hkeyed.
    destruct (generate_all_effect MODELS PRICING self envs eid st e He)
      as (loc & st1 & news & _ & Hall & _ & _ & _ & _ & Hc & Hp & _).
    rewrite Hkeyed in Hall. rewrite (combinations_length e Hkeyed) in Hc.
    do 2 eexists. split; [exact Hall|]. repeat split; try assumption.
    unfold status_of, query_experiment. simpl.
    rewrite find_set_status. unfold query_experiment in He. rewrite He.
    simpl. now rewrite Z.eqb_refl.
Qed.

Lemma provider_failure_is_recorded_witness :
  exists g st',
    generate_single demo_models demo_pricing demo_client timing_out 1 "A"
      "openai" "gpt-4" STRUCTURED st_two_models = (inr g, st') /\
    generations st' = generations st_two_models ++ [g] /\
    generated_content g = "" /\ prompt_tokens g = 0 /\
    completion_tokens g = 0 /\ cost_usd g = 0%Q.
Proof.
  refine (proj1 (proj2 (provider_failure_is_recorded demo_models demo_pricing
                          demo_client))
            timing_out 1 "A" "openai" "gpt-4" STRUCTURED st_two_models
            two_models demo_task _ _ _ _).
  - vm_compute. reflexivity.
  - vm_compute. reflexivity.
  - eexists. vm_compute. reflexivity.
  - apply provider_failures. left. split; [left; reflexivity|].
    intros params. eexists. reflexivity.
Defined.

(** ** C10: generation progress *)

(** C10. The progress of an experiment counts every stored Generation of
    the experiment as completed and takes the product of the three
    selected lists as total, without a cap. [st_regenerated], reached by
    invoking the single-generation path twice for the only combination of
    an experiment and setting its status to "generating", reports
    completed 2 of total 1, 200 percent, and -1 in progress. *)
Theorem progress_is_not_capped :
  (forall st eid e,
     query_experiment st eid = Some e ->
     exists p,
       get_generation_progress st eid = Some p /\
       gp_completed p = count (generations_of st eid) /\
       gp_total p =
         count (selected_models e) * count (selected_strategies e)
         * count (selected_tasks e) /\
       gp_in_progress p =
         (if String.eqb (status e) "generating"
          then gp_total p - gp_completed p else 0)) /\
  (exists st p,
     reachable demo_models demo_pricing demo_client [demo_task] st /\
     List.length (generations_of st 1) = 2%nat /\
     List.Forall
       (fun g => of_combination 1 (gpt4, "structured", "A") g = true)
       (generations_of st 1) /\
     get_generation_progress st 1 = Some p /\
     gp_status p = "generating" /\
     gp_total p = 1 /\ gp_completed p = 2 /\
     gp_total p < gp_completed p /\
     (100 < gp_percentage p)%Q /\
     gp_in_progress p < 0).
Proof.
  split.
  - intros st eid e He. unfold get_generation_progress. rewrite He.
    eexists. split; [reflexivity|]. simpl. repeat split.
  - exists st_regenerated. eexists. split; [|split; [|split; [|split]]].
    + unfold st_regenerated, demo_exec_all. apply reachable_exec_all.
      constructor.
    + vm_compute. reflexivity.
    + vm_compute. repeat constructor.
    + vm_compute. reflexivity.
    + repeat split; vm_compute; reflexivity.
Qed.

Lemma progress_is_not_capped_witness :
  exists p,
    get_generation_progress st_regenerated 1 = Some p /\
    gp_completed p = count (generations_of st_regenerated 1).
Proof.
  destruct (proj1 progress_is_not_capped st_regenerated 1
              {| e_id := 1; e_name := "demo"; e_description := None;
                 baseline_samples := ["A"]; selected_models := [gpt4_entry];
                 selected_strategies := ["structured"];
                 selected_tasks := ["A"]; status := "generating" |})
    as (p & H1 & H2 & _).
  - vm_compute. reflexivity.
  - exists p. split; assumption.
Defined.

(** ** C4: the status of an experiment *)

(** C4, as stated, fails: a status-update request takes the experiment of
    [st_complete] from "complete" back to "setup", and re-running the
    sweep takes it from "complete" back to "evaluating". *)
Lemma status_moves_backward :
  reachable demo_models demo_pricing demo_client [demo_task] st_complete /\
  status_of st_complete 1 = Some "complete" /\
  status_of (exec demo_models demo_pricing demo_client
               (UpdateStatus 1 "setup") st_complete) 1 = Some "setup" /\
  status_of (exec demo_models demo_pricing demo_client
               (GenerateAll (fun _ => answering) 1) st_complete) 1
    = Some "evaluating" /\
  (status_rank "setup" < status_rank "complete")%nat /\
  (status_rank "evaluating" < status_rank "complete")%nat.
Proof.
  split.
  - unfold st_complete, st_one_generation, demo_exec_all.
    do 2 apply reachable_exec_all. constructor.
  - repeat split; try (vm_compute; reflexivity); vm_compute; lia.
Qed.

Lemma status_of_ext st st' eid :
  experiments st' = experiments st -> status_of st' eid = status_of st eid.
Proof. unfold status_of, query_experiment. now intros ->. Qed.

Lemma get_next_blind_item_experiments env eid st :
  experiments (snd (get_next_blind_item env eid st)) = experiments st /\
  generations (snd (get_next_blind_item env eid st)) = generations st /\
  evaluations (snd (get_next_blind_item env eid st)) = evaluations st.
Proof.
  rewrite get_next_blind_item_unfold.
  destruct (unevaluated st eid); [now repeat split|].
  cbv zeta. destruct (query_task st _); now repeat split.
Qed.

Lemma completion_checked_cases st eid :
  completion_checked st eid = experiments st \/
  completion_checked st eid = set_status eid "complete" (experiments st).
Proof. unfold completion_checked. destruct (_ && _); auto. Qed.

Lemma update_experiment_status_unfold eid new st :
  update_experiment_status eid new st =
  match query_experiment st eid with
  | None => (inl (HTTPException 404 "Experiment not found"), st)
  | Some _ =>
      if List.existsb (String.eqb new) valid_statuses
      then (inr tt, with_experiments st (set_status eid new (experiments st)))
      else (inl (HTTPException 400 "Invalid status"), st)
  end.
Proof.
  unfold update_experiment_status, bind, get, put, raise.
  destruct (query_experiment st eid); [|reflexivity].
  destruct (List.existsb _ _); reflexivity.
Qed.

(** C4, amended. A request never takes the status of an experiment out
    of the four values, and what it does to it is this: an accepted
    status-update request sets the requested value, whichever of the four
    it is (also an earlier one); a sweep of the experiment, whatever the
    status was, ends in "evaluating" when it returns, and in "generating"
    when an entry of [selected_models] lacks a key and the subscript
    raises; a submission leaves the status or sets "complete", the last
    of the four, so it never moves the status backward; every other
    request leaves the status as it is. *)
Theorem status_after_request MODELS PRICING client op st eid s :
  status_of st eid = Some s ->
  exists s',
    status_of (exec MODELS PRICING client op st) eid = Some s' /\
    (In s valid_statuses -> In s' valid_statuses) /\
    match op with
    | UpdateStatus eid' new =>
        s' = if (eid' =? eid) && List.existsb (String.eqb new) valid_statuses
             then new else s
    | GenerateAll _ eid' =>
        if eid' =? eid then
          exists e, query_experiment st eid = Some e /\
            s' = match missing_key (selected_models e) with
                 | None => "evaluating"
                 | Some _ => "generating"
                 end
        else s' = s
    | Submit _ _ =>
        (s' = s \/ s' = "complete") /\
        (In s valid_statuses -> (status_rank s <= status_rank s')%nat)
    | _ => s' = s
    end.
Proof.
  intros Hs.
  assert (Hq : exists e, query_experiment st eid = Some e /\ status e = s).
  { unfold status_of in Hs. destruct (query_experiment st eid) as [e|];
      [|discriminate]. exists e. split; [reflexivity|]. now injection Hs. }
  destruct Hq as (e & Hq & He).
  destruct op as [ec|eid' new|env eid' tid provider model strategy|envs eid'
                 |env eid'|data t|blind|id]; simpl exec.
  - (* create_experiment *)
    exists s. split; [|auto]. unfold create_experiment; unfold_m.
    destruct (List.find _ (ec_selected_tasks ec)); simpl; [exact Hs|].
    unfold status_of, query_experiment in *. simpl.
    rewrite find_app_one. now destruct (List.find _ (experiments st)).
  - (* update_experiment_status *)
    rewrite update_experiment_status_unfold.
    destruct (Z.eqb_spec eid' eid) as [->|Hne]; cbn [andb].
    + rewrite Hq.
      destruct (List.existsb (String.eqb new) valid_statuses) eqn:Hv;
        cbn [snd].
      * exists new. rewrite status_of_set_status, Hs. cbn [option_map].
        rewrite Z.eqb_refl. repeat split. intros _.
        apply List.existsb_exists in Hv as (x & Hin & Hx).
        apply String.eqb_eq in Hx. now subst.
      * exists s. auto.
    + exists s. split; [|auto].
      destruct (query_experiment st eid'); cbn [snd]; [|exact Hs].
      destruct (List.existsb _ _); cbn [snd]; [|exact Hs].
      rewrite status_of_set_status, Hs. cbn [option_map].
      destruct (Z.eqb_spec eid eid'); [congruence|reflexivity].
  - (* generate_single *)
    exists s. split; [|auto].
    destruct (generate_single_effect MODELS PRICING client env eid' tid
                provider model strategy st) as (r & st' & -> & (F & _) & _).
    simpl. now rewrite (status_of_ext st st' eid F).
  - (* generate_all_for_experiment *)
    destruct (query_experiment st eid') as [e'|] eqn:Hq'.
    + destruct (generate_all_effect MODELS PRICING client envs eid' st e' Hq')
        as (loc & st1 & news & _ & -> & _ & _ & _ & _ & _ & _ & Hx).
      assert (Hst : forall new st2,
                experiments st2 = set_status eid' new (experiments st) ->
                status_of st2 eid = Some (if eid' =? eid then new else s)).
      { intros new st2 H2. unfold status_of, query_experiment in Hs |- *.
        rewrite H2, find_set_status, Hs. cbn [option_map].
        now rewrite (Z.eqb_sym eid eid'). }
      destruct (missing_key (selected_models e')) as [key|] eqn:Hkey;
        cbn [snd]; eexists; (split; [apply Hst; cbn; try reflexivity|]).
      * exact Hx.
      * destruct (Z.eqb_spec eid' eid) as [->|Hne]; [|auto].
        split; [intros _; simpl; auto|]. exists e'. now rewrite Hkey.
      * destruct (Z.eqb_spec eid' eid) as [->|Hne]; [|auto].
        split; [intros _; simpl; auto|]. exists e'. now rewrite Hkey.
    + exists s. unfold generate_all_for_experiment; unfold_m. rewrite Hq'.
      simpl. split; [exact Hs|]. split; [auto|].
      destruct (Z.eqb_spec eid' eid); [congruence|reflexivity].
  - (* get_next_blind_item *)
    exists s. split; [|auto].
    now rewrite (status_of_ext st _ eid
                   (proj1 (get_next_blind_item_experiments env eid' st))).
  - (* submit_evaluation *)
    destruct (submit_evaluation data t st) as [[ex|ev] st'] eqn:Hrun; simpl.
    + apply submit_evaluation_raises in Hrun as ->. exists s.
      split; [exact Hs|]. auto.
    + apply submit_evaluation_returns in Hrun
        as (g & _ & _ & _ & _ & _ & _ & _ & _ & _ & _ & Hx).
      destruct (completion_checked_cases
                  (with_evaluations st (evaluations st ++ [ev]))
                  (g_experiment_id g)) as [Hc|Hc]; rewrite Hc in Hx.
      * exists s. rewrite (status_of_ext st st' eid Hx). auto.
      * simpl in Hx. unfold status_of, query_experiment. rewrite Hx.
        rewrite find_set_status. unfold query_experiment in Hq. rewrite Hq.
        simpl. rewrite He.
        destruct (eid =? g_experiment_id g); eexists;
          (split; [reflexivity|]); [|auto].
        split; [intros _; simpl; auto|]. split; [auto|].
        intros [<-|[<-|[<-|[<-|[]]]]]; vm_compute; lia.
  - (* skip_blind_item *)
    exists s. split; [|auto]. unfold skip_blind_item; unfold_m.
    now destruct (blind_id_cache st !! blind).
  - (* delete_evaluation *)
    exists s. split; [|auto]. unfold delete_evaluation; unfold_m.
    now destruct (List.find _ (evaluations st)).
Qed.

Lemma status_after_request_witness :
  exists s',
    status_of (exec demo_models demo_pricing demo_client
                 (Submit (scores_for "AAAAAAAA") None)
                 (demo_exec_all [NextBlindItem (minting 0) 1] st_one_generation))
      1 = Some s' /\
    (s' = "evaluating" \/ s' = "complete").
Proof.
  destruct (status_after_request demo_models demo_pricing demo_client
              (Submit (scores_for "AAAAAAAA") None)
              (demo_exec_all [NextBlindItem (minting 0) 1] st_one_generation)
              1 "evaluating")
    as (s' & H1 & _ & H2 & _).
  - vm_compute. reflexivity.
  - exists s'. split; assumption.
Defined.

(** ** C5: Evaluations and Generations *)

Lemma remove_evaluation_In id l ev :
  In ev (remove_evaluation id l) -> In ev l.
Proof.
  induction l as [|a l IH]; simpl; [auto|].
  destruct (ev_id a =? id); simpl; intuition.
Qed.

Lemma remove_evaluation_NoDup id l :
  List.NoDup (List.map generation_id l) ->
  List.NoDup (List.map generation_id (remove_evaluation id l)).
Proof.
  induction l as [|a l IH]; simpl; [auto|].
  intros H. apply List.NoDup_cons_iff in H as [Hn Hd].
  destruct (ev_id a =? id); [assumption|]. simpl.
  apply List.NoDup_cons; [|auto].
  intros Hin. apply Hn. apply List.in_map_iff in Hin as (x & Hx & Hin).
  apply List.in_map_iff. exists x. split; [assumption|].
  eapply remove_evaluation_In; eassumption.
Qed.

Lemma NoDup_snoc {A} (l : list A) x :
  List.NoDup l -> ~ In x l -> List.NoDup (l ++ [x]).
Proof.
  induction l as [|a l IH]; simpl; intros Hnd Hx.
  - constructor; [intros []|constructor].
  - apply List.NoDup_cons_iff in Hnd as [Hn Hd].
    apply List.NoDup_cons.
    + intros Hin. apply List.in_app_or in Hin as [Hin|[<-|[]]]; tauto.
    + apply IH; tauto.
Qed.

(** What a request does to the two tables: Generations are only added;
    Evaluations are left, or one is deleted, or one is added for a stored
    Generation that had none. *)
Lemma exec_store_effect MODELS PRICING client op st :
  let st' := exec MODELS PRICING client op st in
  (exists news, generations st' = generations st ++ news) /\
  (evaluations st' = evaluations st \/
   (exists id, evaluations st' = remove_evaluation id (evaluations st)) \/
   (exists ev g,
      evaluations st' = evaluations st ++ [ev] /\
      In g (generations st) /\ g_id g = generation_id ev /\
      g_experiment_id g = ev_experiment_id ev /\
      ~ In (generation_id ev) (List.map generation_id (evaluations st)))).
Proof.
  assert (Hnil : forall l : list Generation, exists news, l = l ++ news)
    by (intros l; exists []; now rewrite List.app_nil_r).
  destruct op as [ec|eid' new|env eid' tid provider model strategy|envs eid'
                 |env eid'|data t|blind|id]; simpl exec; cbv zeta.
  - unfold create_experiment; unfold_m.
    destruct (List.find _ (ec_selected_tasks ec)); simpl; auto.
  - rewrite update_experiment_status_unfold.
    destruct (query_experiment st eid'); [|simpl; auto].
    destruct (List.existsb _ _); simpl; auto.
  - destruct (generate_single_effect MODELS PRICING client env eid' tid
                provider model strategy st)
      as (r & st' & -> & (_ & _ & F & _) & Hg & _).
    cbn [snd]. split; [|now left].
    destruct r as [e|g]; [rewrite Hg; auto|].
    destruct Hg as (-> & _). eauto.
  - destruct (generate_all_state MODELS PRICING client envs eid' st)
      as (Hg & _ & -> & _).
    auto.
  - destruct (get_next_blind_item_experiments env eid' st) as (_ & -> & ->).
    auto.
  - destruct (submit_evaluation data t st) as [[ex|ev] st'] eqn:Hrun; cbn [snd].
    + apply submit_evaluation_raises in Hrun as ->. auto.
    + apply submit_evaluation_returns in Hrun
        as (g & _ & Hq & Hnone & Hgid & Hexp & _ & He & Hg & _).
      rewrite Hg, He. split; [auto|]. right. right. exists ev, g.
      split; [reflexivity|].
      apply List.find_some in Hq as [Hin _].
      repeat split; auto.
      intros Hin'. apply List.in_map_iff in Hin' as (x & Hx & Hin').
      rewrite find_none_iff in Hnone. specialize (Hnone x Hin').
      apply Z.eqb_neq in Hnone. congruence.
  - unfold skip_blind_item; unfold_m.
    destruct (blind_id_cache st !! blind); simpl; auto.
  - unfold delete_evaluation; unfold_m.
    destruct (List.find _ (evaluations st)); simpl; eauto.
Qed.

Lemma evaluations_backed_reachable MODELS PRICING client catalog st :
  reachable MODELS PRICING client catalog st -> evaluations_backed st.
Proof.
  induction 1 as [|st op _ [Hnd Hback]].
  - split; simpl; [constructor|intros ev []].
  - destruct (exec_store_effect MODELS PRICING client op st)
      as ((news & Hg) & He).
    assert (Hkeep : forall ev, In ev (evaluations st) ->
              exists g, In g (generations (exec MODELS PRICING client op st)) /\
                        g_id g = generation_id ev /\
                        g_experiment_id g = ev_experiment_id ev).
    { intros ev Hin. destruct (Hback ev Hin) as (g & Hgin & Hid).
      exists g. rewrite Hg. split; [apply List.in_or_app; now left|exact Hid]. }
    destruct He as [He|[(id & He)|(ev & g & He & Hgin & Hid & Hexp & Hfresh)]];
      unfold evaluations_backed; rewrite He.
    + auto.
    + split; [now apply remove_evaluation_NoDup|].
      intros ev Hin. apply Hkeep. eapply remove_evaluation_In; eassumption.
    + split.
      * rewrite List.map_app. now apply NoDup_snoc.
      * intros ev' Hin. apply List.in_app_or in Hin as [Hin|[<-|[]]]; [auto|].
        exists g. rewrite Hg. split; [apply List.in_or_app; now left|auto].
Qed.

Lemma backed_counts st eid :
  evaluations_backed st ->
  count (evaluations_of st eid) <= count (generations_of st eid).
Proof.
  intros [Hnd Hback]. unfold count. apply Nat2Z.inj_le.
  rewrite <- (List.length_map generation_id (evaluations_of st eid)).
  rewrite <- (List.length_map g_id (generations_of st eid)).
  apply List.NoDup_incl_length.
  - unfold evaluations_of. clear Hback.
    induction (evaluations st) as [|a l IH]; simpl; [constructor|].
    apply List.NoDup_cons_iff in Hnd as [Hn Hd].
    destruct (ev_experiment_id a =? eid); simpl; [|auto].
    constructor; [|auto]. intros Hin. apply Hn.
    apply List.in_map_iff in Hin as (x & Hx & Hin).
    apply List.filter_In in Hin as [Hin _].
    apply List.in_map_iff. eauto.
  - intros gid Hin. apply List.in_map_iff in Hin as (ev & <- & Hin).
    unfold evaluations_of in Hin. apply List.filter_In in Hin as [Hin Heid].
    destruct (Hback ev Hin) as (g & Hgin & Hid & Hexp).
    apply List.in_map_iff. exists g. split; [assumption|].
    unfold generations_of. apply List.filter_In. split; [assumption|].
    now rewrite Hexp.
Qed.

(** C5. A submission that returns has inserted its Evaluation and then
    compared the numbers of stored Generations and stored Evaluations of
    the owning experiment: when they are equal and not zero, the
    experiment has status "complete". And in every state the system
    reaches, no experiment has more Evaluations than Generations. *)
Theorem completion_detection MODELS PRICING client :
  (forall data t st ev st',
     submit_evaluation data t st = (inr ev, st') ->
     In ev (evaluations st') /\
     (0 < count (generations_of st' (ev_experiment_id ev)) ->
      count (generations_of st' (ev_experiment_id ev)) =
        count (evaluations_of st' (ev_experiment_id ev)) ->
      forall e, query_experiment st' (ev_experiment_id ev) = Some e ->
                status e = "complete")) /\
  (forall catalog st eid,
     reachable MODELS PRICING client catalog st ->
     count (evaluations_of st eid) <= count (generations_of st eid)).
Proof.
  split.
  - intros data t st ev st' Hrun.
    apply submit_evaluation_returns in Hrun
      as (g & _ & _ & _ & _ & Hexp & _ & He & Hg & _ & _ & Hx).
    split; [rewrite He; apply List.in_or_app; right; now left|].
    rewrite Hexp. intros Hpos Heq e Hq.
    unfold completion_checked, generations_of, evaluations_of in Hx.
    cbn [generations evaluations with_evaluations experiments] in Hx.
    unfold generations_of, evaluations_of in Hpos, Heq.
    rewrite Hg in Hpos, Heq. rewrite He in Heq.
    apply Z.ltb_lt in Hpos. apply Z.eqb_eq in Heq.
    rewrite Hpos, Heq in Hx. cbn [andb] in Hx.
    pose proof (find_set_status (g_experiment_id g) "complete"
                  (experiments st) (g_experiment_id g)) as Hs.
    unfold query_experiment in Hq. rewrite <- Hx, Hq in Hs. simpl in Hs.
    destruct (List.find _ (experiments st)); simpl in Hs; [|discriminate].
    rewrite Z.eqb_refl in Hs. now injection Hs.
  - intros catalog st eid Hreach. apply backed_counts.
    eapply evaluations_backed_reachable; eassumption.
Qed.

Lemma completion_detection_witness :
  status_of
    (snd (submit_evaluation (scores_for "AAAAAAAA") None
            (demo_exec_all [NextBlindItem (minting 0) 1] st_one_generation)))
    1 = Some "complete".
Proof.
  pose (st := demo_exec_all [NextBlindItem (minting 0) 1] st_one_generation).
  destruct (submit_evaluation (scores_for "AAAAAAAA") None st)
    as [[ex|ev] st'] eqn:Hrun; [vm_compute in Hrun; discriminate|].
  assert (Hexp : ev_experiment_id ev = 1)
    by (vm_compute in Hrun; injection Hrun as <- _; reflexivity).
  assert (Hq : exists e, query_experiment st' 1 = Some e)
    by (vm_compute in Hrun; injection Hrun as _ <-; eexists;
        vm_compute; reflexivity).
  destruct Hq as (e & Hq).
  destruct (proj1 (completion_detection demo_models demo_pricing demo_client)
              (scores_for "AAAAAAAA") None st ev st' Hrun) as (_ & Hdone).
  rewrite Hexp in Hdone. fold st. rewrite Hrun. cbn [snd].
  unfold status_of. rewrite Hq. simpl. f_equal. apply Hdone.
  - vm_compute in Hrun. injection Hrun as _ <-. vm_compute. reflexivity.
  - vm_compute in Hrun. injection Hrun as _ <-. vm_compute. reflexivity.
  - exact Hq.
Defined.

(** * Further properties *)

(** ** Well-formed stores *)

Lemma next_id_fresh ids :
  0 < next_id ids /\ forall x, In x ids -> x < next_id ids.
Proof.
  unfold next_id. induction ids as [|a l [IH1 IH2]]; simpl.
  - split; [lia|intros x []].
  - split; [lia|]. intros x [<-|Hin]; [lia|]. specialize (IH2 x Hin). lia.
Qed.

Lemma well_formed_ext st st' :
  generations st' = generations st -> tasks st' = tasks st ->
  blind_id_cache st' = blind_id_cache st ->
  well_formed st -> well_formed st'.
Proof.
  unfold well_formed, query_task. intros -> -> ->. auto.
Qed.

(** What a single generation that returns has stored. *)
Lemma generate_single_stored MODELS PRICING self env eid tid provider model
    strategy st g st' :
  generate_single MODELS PRICING self env eid tid provider model strategy st
    = (inr g, st') ->
  g_id g = next_id (List.map g_id (generations st)) /\
  (exists e, query_experiment st eid = Some e) /\
  (exists task, query_task st tid = Some task) /\
  is_Some (MODELS !! provider).
Proof.
  unfold generate_single; unfold_m.
  destruct (query_experiment st eid) as [e|]; [|discriminate].
  destruct (query_task st tid) as [task|]; [|discriminate].
  destruct (MODELS !! provider) as [params|]; [|discriminate].
  match goal with |- context [generate ?a ?b ?c ?d ?e ?f ?g (Some ?h) ?s] =>
    destruct (generate_returns a b c d e f g h s) as (r & -> & _) end.
  intros [= <- <-]. simpl. repeat split; eexists; reflexivity.
Qed.

Lemma generate_single_well_formed MODELS PRICING self env eid tid provider
    model strategy st :
  well_formed st ->
  well_formed
    (snd (generate_single MODELS PRICING self env eid tid provider model
            strategy st)).
Proof.
  intros Hwf.
  destruct (generate_single_effect MODELS PRICING self env eid tid provider
              model strategy st)
    as (r & st' & Hrun & (_ & Ft & _ & Fc) & Hg & _).
  rewrite Hrun. cbn [snd]. destruct r as [e|g].
  { now apply (well_formed_ext st st'). }
  destruct Hg as (Hg & _ & Htid & _).
  apply generate_single_stored in Hrun as (Hid & _ & (task & Htask) & _).
  destruct Hwf as (Hnd & Hrows & Hcache).
  destruct (next_id_fresh (List.map g_id (generations st))) as [Hpos Hfresh].
  unfold well_formed, query_task. rewrite Hg, Ft, Fc. split; [|split].
  - rewrite List.map_app. apply NoDup_snoc; [assumption|].
    intros Hin. rewrite Hid in Hin. specialize (Hfresh _ Hin). lia.
  - intros g' Hin. apply List.in_app_or in Hin as [Hin|[<-|[]]]; [auto|].
    split; [lia|]. rewrite Htid. eauto.
  - intros blind gid Hb. destruct (Hcache blind gid Hb) as (g' & Hin & Hgid).
    exists g'. split; [apply List.in_or_app; now left|assumption].
Qed.

(** The state an attempt of the sweep leaves: the one it found, or the
    one of the single generation it ran. *)
Lemma sweep_attempt_state MODELS PRICING self env eid total c loc st :
  snd (sweep_attempt MODELS PRICING self env eid total c loc st) = st \/
  exists ps,
    snd (sweep_attempt MODELS PRICING self env eid total c loc st) =
    snd (generate_single MODELS PRICING self env eid (snd c)
           (mc_provider (fst (fst c))) (mc_model (fst (fst c))) ps st).
Proof.
  destruct c as [[mc strategy] tid].
  unfold sweep_attempt, try_except, bind, get, ret. cbn [fst snd].
  destruct (existing_generation st eid tid (mc_provider mc) strategy);
    [now left|].
  destruct (PromptStrategy_of_effect strategy st) as (r & -> & _).
  destruct r as [e|ps]; [now left|]. right. exists ps.
  destruct (generate_single _ _ _ _ _ _ _ _ _ st) as [[e|g] st']; reflexivity.
Qed.

Lemma sweep_loop_well_formed MODELS PRICING self envs eid total cs :
  forall k loc st,
    well_formed st ->
    well_formed (snd (sweep_loop MODELS PRICING self envs eid total k cs loc st)).
Proof.
  induction cs as [|c cs IH]; intros k loc st Hwf; [exact Hwf|].
  simpl sweep_loop. unfold bind.
  destruct (sweep_attempt_effect MODELS PRICING self (envs k) eid total c loc st)
    as (loc1 & st1 & Hrun & _).
  pose proof (sweep_attempt_state MODELS PRICING self (envs k) eid total c loc st)
    as Hst.
  rewrite Hrun in *. cbn [snd] in Hst. apply IH.
  destruct Hst as [->|(ps & ->)]; [assumption|].
  now apply generate_single_well_formed.
Qed.

Lemma exec_tasks MODELS PRICING client op st :
  tasks (exec MODELS PRICING client op st) = tasks st.
Proof.
  destruct op as [ec|eid' new|env eid' tid provider model strategy|envs eid'
                 |env eid'|data t|blind|id]; simpl exec.
  - unfold create_experiment; unfold_m.
    now destruct (List.find _ (ec_selected_tasks ec)).
  - rewrite update_experiment_status_unfold.
    destruct (query_experiment st eid'); [|reflexivity].
    now destruct (List.existsb _ _).
  - destruct (generate_single_effect MODELS PRICING client env eid' tid
                provider model strategy st) as (r & st' & -> & (_ & F & _) & _).
    exact F.
  - now destruct (generate_all_state MODELS PRICING client envs eid' st)
      as (_ & F & _).
  - rewrite get_next_blind_item_unfold.
    destruct (unevaluated st eid'); [reflexivity|].
    cbv zeta. now destruct (query_task st _).
  - destruct (submit_evaluation data t st) as [[ex|ev] st'] eqn:Hrun; cbn [snd].
    + now apply submit_evaluation_raises in Hrun as ->.
    + apply submit_evaluation_returns in Hrun
        as (g & _ & _ & _ & _ & _ & _ & _ & _ & F & _). exact F.
  - unfold skip_blind_item; unfold_m.
    now destruct (blind_id_cache st !! blind).
  - unfold delete_evaluation; unfold_m.
    now destruct (List.find _ (evaluations st)).
Qed.

Lemma exec_well_formed MODELS PRICING client op st :
  well_formed st -> well_formed (exec MODELS PRICING client op st).
Proof.
  intros Hwf.
  destruct op as [ec|eid' new|env eid' tid provider model strategy|envs eid'
                 |env eid'|data t|blind|id]; simpl exec.
  - unfold create_experiment; unfold_m.
    destruct (List.find _ (ec_selected_tasks ec)); simpl; [assumption|].
    now apply (well_formed_ext st).
  - rewrite update_experiment_status_unfold.
    destruct (query_experiment st eid'); [|assumption].
    destruct (List.existsb _ _); [|assumption]. now apply (well_formed_ext st).
  - now apply generate_single_well_formed.
  - destruct (query_experiment st eid') as [e'|] eqn:Hq'.
    + destruct (generate_all_effect MODELS PRICING client envs eid' st e' Hq')
        as (loc & st1 & news & Hrun & -> & _).
      match type of Hrun with
      | sweep_loop ?a ?b ?c ?d ?e ?f ?g ?h ?i ?s = _ =>
          pose proof (sweep_loop_well_formed a b c d e f h g i s) as Hloop
      end.
      rewrite Hrun in Hloop. cbn [snd] in Hloop.
      assert (well_formed st1) as Hwf1
        by (apply Hloop; now apply (well_formed_ext st)).
      destruct (missing_key (selected_models e')); cbn [snd]; [assumption|].
      now apply (well_formed_ext st1).
    + unfold generate_all_for_experiment, bind, get, raise. rewrite Hq'.
      assumption.
  - rewrite get_next_blind_item_unfold.
    destruct (unevaluated st eid') as [|g0 pool] eqn:Hp; [assumption|].
    cbv zeta.
    set (g := List.nth _ (g0 :: pool) g0).
    assert (In g (generations st)) as Hin.
    { apply (unevaluated_In st eid'). rewrite Hp. apply List.nth_In.
      apply Nat.mod_upper_bound. discriminate. }
    assert (well_formed
              (with_cache st
                 (<[generate_blind_id (id_draws env) := g_id g]>
                    (blind_id_cache st)))) as Hwf'.
    { destruct Hwf as (Hnd & Hrows & Hcache). split; [|split]; try assumption.
      intros blind gid. cbn [blind_id_cache with_cache generations].
      rewrite lookup_insert. case_decide.
      - intros [= <-]. eauto.
      - apply Hcache. }
    now destruct (query_task st (g_task_id g)).
  - destruct (submit_evaluation data t st) as [[ex|ev] st'] eqn:Hrun; cbn [snd].
    + now apply submit_evaluation_raises in Hrun as ->.
    + apply submit_evaluation_returns in Hrun
        as (g & _ & _ & _ & _ & _ & _ & _ & Fg & Ft & Fc & _).
      destruct Hwf as (Hnd & Hrows & Hcache).
      unfold well_formed, query_task. rewrite Fg, Ft, Fc.
      split; [|split]; try assumption.
      intros blind gid Hb. apply lookup_delete_Some in Hb as [_ Hb]. eauto.
  - unfold skip_blind_item; unfold_m.
    destruct (blind_id_cache st !! blind); simpl; [|assumption].
    destruct Hwf as (Hnd & Hrows & Hcache).
    split; [|split]; try assumption.
    intros b gid Hb. simpl in Hb. apply lookup_delete_Some in Hb as [_ Hb]. eauto.
  - unfold delete_evaluation; unfold_m.
    destruct (List.find _ (evaluations st)); simpl; [|assumption].
    now apply (well_formed_ext st).
Qed.

Lemma reachable_well_formed MODELS PRICING client catalog st :
  reachable MODELS PRICING client catalog st -> well_formed st.
Proof.
  induction 1 as [|st op _ IH].
  - split; [constructor|]. split; [intros g []|].
    intros blind gid H. simpl in H. now rewrite lookup_empty in H.
  - now apply exec_well_formed.
Qed.

(** ** Blind identifiers *)

Lemma length_string_of_list_ascii l :
  String.length (string_of_list_ascii l) = List.length l.
Proof. induction l as [|c l IH]; simpl; [reflexivity|now rewrite IH]. Qed.

(** X1. A minted blind identifier has eight characters, each an
    uppercase letter or a digit, whatever the generator draws. *)
Theorem blind_id_format draws :
  String.length (generate_blind_id draws) = 8%nat /\
  List.Forall (fun c => In c alphabet)
    (list_ascii_of_string (generate_blind_id draws)).
Proof.
  unfold generate_blind_id. split.
  - now rewrite length_string_of_list_ascii, List.length_map, List.length_seq.
  - rewrite list_ascii_of_string_of_list_ascii.
    apply List.Forall_forall. intros c Hin.
    apply List.in_map_iff in Hin as (i & <- & _).
    apply List.nth_In. change (List.length alphabet) with 36%nat.
    apply Nat.mod_upper_bound. discriminate.
Qed.

(** ** Issuing blind items *)

Lemma unevaluated_nil st eid :
  unevaluated st eid = [] <->
  forall g, In g (generations st) -> g_experiment_id g = eid ->
            has_evaluation st g = true.
Proof.
  split.
  - intros Hnil g Hin He. destruct (has_evaluation st g) eqn:Hh; [reflexivity|].
    assert (In g (unevaluated st eid)) as H by (apply unevaluated_In; auto).
    rewrite Hnil in H. destruct H.
  - intros H. destruct (unevaluated st eid) as [|g l] eqn:Hp; [reflexivity|].
    assert (In g (unevaluated st eid)) as Hin by (rewrite Hp; now left).
    apply unevaluated_In in Hin as (H1 & H2 & H3).
    rewrite (H g H1 H2) in H3. discriminate.
Qed.

Lemma issue_none_iff env eid st :
  fst (get_next_blind_item env eid st) = inr None <-> unevaluated st eid = [].
Proof.
  rewrite get_next_blind_item_unfold.
  destruct (unevaluated st eid) as [|g0 pool]; cbv zeta; [tauto|].
  destruct (query_task st _); simpl; split; discriminate.
Qed.

(** X2. An issue call answers "nothing left" exactly when every
    Generation of the experiment has an Evaluation, and it then leaves the
    state as it is: no blind identifier is minted. *)
Theorem nothing_left_to_evaluate env eid st :
  (fst (get_next_blind_item env eid st) = inr None <->
   forall g, In g (generations st) -> g_experiment_id g = eid ->
             has_evaluation st g = true) /\
  (fst (get_next_blind_item env eid st) = inr None ->
   snd (get_next_blind_item env eid st) = st).
Proof.
  rewrite <- unevaluated_nil, issue_none_iff. split; [reflexivity|].
  intros Hnil. now rewrite get_next_blind_item_unfold, Hnil.
Qed.

Lemma nothing_left_to_evaluate_witness :
  snd (get_next_blind_item (minting 3) 1 st_complete) = st_complete.
Proof.
  apply (proj2 (nothing_left_to_evaluate (minting 3) 1 st_complete)).
  vm_compute. reflexivity.
Defined.

(** X3. In every state the system reaches, an issue call returns: the
    task of the chosen Generation is in the catalog. When it returns an
    item, the identifier of the item is outstanding and stands for a
    stored Generation of the experiment whose content the item shows. *)
Theorem issue_returns MODELS PRICING client catalog env eid st :
  reachable MODELS PRICING client catalog st ->
  exists r st',
    get_next_blind_item env eid st = (inr r, st') /\
    forall item, r = Some item ->
      exists g,
        In g (generations st) /\ g_experiment_id g = eid /\
        blind_id_cache st' !! bi_blind_id item = Some (g_id g) /\
        content item = generated_content g.
Proof.
  intros Hreach.
  destruct (reachable_well_formed _ _ _ _ _ Hreach) as (_ & Hrows & _).
  rewrite get_next_blind_item_unfold.
  destruct (unevaluated st eid) as [|g0 pool] eqn:Hp.
  { do 2 eexists. split; [reflexivity|]. discriminate. }
  cbv zeta. set (g := List.nth _ (g0 :: pool) g0).
  assert (In g (unevaluated st eid)) as Hin.
  { rewrite Hp. apply List.nth_In. apply Nat.mod_upper_bound. discriminate. }
  apply unevaluated_In in Hin as (Hg & He & _).
  destruct (Hrows g Hg) as (_ & task & ->).
  do 2 eexists. split; [reflexivity|].
  intros item [= <-]. exists g. simpl. rewrite lookup_insert_eq. auto.
Qed.

Lemma issue_returns_witness :
  exists r st',
    get_next_blind_item (minting 2) 1 st_issued_twice = (inr r, st').
Proof.
  destruct (issue_returns demo_models demo_pricing demo_client [demo_task]
              (minting 2) 1 st_issued_twice) as (r & st' & H & _).
  - unfold st_issued_twice, st_one_generation, demo_exec_all.
    do 2 apply reachable_exec_all. constructor.
  - exists r, st'. exact H.
Defined.

(** ** Submitting, skipping and revealing *)

(** A submission for an outstanding identifier whose Generation is stored
    and has no Evaluation returns. *)
Lemma submit_evaluation_accepts data t st gid g :
  truthy (blind_id_cache st !! es_blind_id data) = Some gid ->
  query_generation st gid = Some g ->
  List.find (fun ev => generation_id ev =? gid) (evaluations st) = None ->
  exists ev st',
    submit_evaluation data t st = (inr ev, st') /\
    ev_id ev = next_id (List.map ev_id (evaluations st)) /\
    voice_match ev = es_voice_match data /\
    coherence ev = es_coherence data /\
    engaging ev = es_engaging data /\
    meets_brief ev = es_meets_brief data /\
    overall_quality ev = es_overall_quality data /\
    would_publish ev = es_would_publish data /\
    edit_time_minutes ev = es_edit_time_minutes data.
Proof.
  intros Ht Hg Hnone. unfold submit_evaluation; unfold_m.
  rewrite Ht, Hg, Hnone.
  match goal with |- context [_check_experiment_completion ?a ?s] =>
    destruct (check_completion_effect a s) as (s' & -> & _) end.
  do 2 eexists. split; [reflexivity|]. simpl. repeat split.
Qed.

Lemma find_by_id_unique (l : list Generation) g :
  List.NoDup (List.map g_id l) -> In g l ->
  List.find (fun x => g_id x =? g_id g) l = Some g.
Proof.
  induction l as [|a l IH]; simpl; [intros _ []|].
  intros Hnd Hin. apply List.NoDup_cons_iff in Hnd as [Hn Hd].
  destruct Hin as [->|Hin]; [now rewrite Z.eqb_refl|].
  destruct (Z.eqb_spec (g_id a) (g_id g)) as [Heq|_]; [|auto].
  exfalso. apply Hn. rewrite Heq. now apply List.in_map.
Qed.

Lemma has_evaluation_find st g :
  has_evaluation st g = false <->
  List.find (fun ev => generation_id ev =? g_id g) (evaluations st) = None.
Proof.
  unfold has_evaluation. rewrite find_none_iff. split.
  - intros H ev Hin. destruct (generation_id ev =? g_id g) eqn:E; [|reflexivity].
    assert (List.existsb (fun ev => generation_id ev =? g_id g)
              (evaluations st) = true) as Ht
      by (apply List.existsb_exists; eauto).
    congruence.
  - intros H. destruct (List.existsb _ _) eqn:E; [|reflexivity].
    apply List.existsb_exists in E as (ev & Hin & Hev).
    rewrite (H ev Hin) in Hev. discriminate.
Qed.

(** X4. In every state the system reaches, the item an issue call
    returns can be submitted at once: the submission returns an
    Evaluation of the issued Generation, filed under the experiment the
    item was asked for, the Generation then has an Evaluation, and the
    identifier is no longer outstanding. *)
Theorem issued_item_is_accepted MODELS PRICING client catalog env eid st item
    st1 data t :
  reachable MODELS PRICING client catalog st ->
  get_next_blind_item env eid st = (inr (Some item), st1) ->
  es_blind_id data = bi_blind_id item ->
  exists g ev st2,
    submit_evaluation data t st1 = (inr ev, st2) /\
    In g (generations st) /\ has_evaluation st g = false /\
    content item = generated_content g /\
    generation_id ev = g_id g /\ ev_experiment_id ev = eid /\
    blind_id ev = bi_blind_id item /\
    has_evaluation st2 g = true /\
    blind_id_cache st2 !! bi_blind_id item = None.
Proof.
  intros Hreach Hissue Hblind.
  destruct (reachable_well_formed _ _ _ _ _ Hreach) as (Hnd & Hrows & _).
  rewrite get_next_blind_item_unfold in Hissue.
  destruct (unevaluated st eid) as [|g0 pool] eqn:Hp; [discriminate|].
  cbv zeta in Hissue. set (g := List.nth _ (g0 :: pool) g0) in *.
  assert (In g (unevaluated st eid)) as Hin.
  { rewrite Hp. apply List.nth_In. apply Nat.mod_upper_bound. discriminate. }
  apply unevaluated_In in Hin as (Hg & He & Hnone).
  destruct (query_task st (g_task_id g)); [|discriminate].
  injection Hissue as <- <-. simpl in Hblind.
  destruct (Hrows g Hg) as (Hpos & _).
  destruct (submit_evaluation_accepts data t
              (with_cache st
                 (<[generate_blind_id (id_draws env) := g_id g]>
                    (blind_id_cache st))) (g_id g) g)
    as (ev & st2 & Hrun & _).
  { simpl. rewrite Hblind, lookup_insert_eq. simpl.
    destruct (Z.eqb_spec (g_id g) 0); [lia|reflexivity]. }
  { unfold query_generation. simpl. now apply find_by_id_unique. }
  { simpl. now apply has_evaluation_find. }
  exists g, ev, st2. split; [exact Hrun|].
  apply submit_evaluation_returns in Hrun
    as (g' & Ht & Hq & _ & Hgid & Hexp & Hb & Hevs & _ & _ & Hc & _).
  simpl in Ht, Hq, Hc. rewrite Hblind, lookup_insert_eq in Ht. simpl in Ht.
  destruct (Z.eqb_spec (g_id g) 0); [lia|]. injection Ht as Ht.
  rewrite <- Ht in Hq. unfold query_generation in Hq. simpl in Hq.
  rewrite (find_by_id_unique _ g Hnd Hg) in Hq. injection Hq as <-.
  simpl. repeat split; auto; try congruence.
  - unfold has_evaluation. rewrite Hevs. apply List.existsb_exists.
    exists ev. split; [apply List.in_or_app; right; now left|].
    now apply Z.eqb_eq.
  - rewrite Hc, Hblind. simpl. apply lookup_delete_eq.
Qed.

Lemma issued_item_is_accepted_witness :
  exists g ev st2,
    submit_evaluation (scores_for "CCCCCCCC") None
      (snd (get_next_blind_item (minting 2) 1 st_one_generation))
      = (inr ev, st2) /\
    In g (generations st_one_generation) /\ generation_id ev = g_id g.
Proof.
  destruct (issued_item_is_accepted demo_models demo_pricing demo_client
              [demo_task] (minting 2) 1 st_one_generation
              (issued_item (minting 2)
                 (List.nth 0 (generations st_one_generation)
                    {| g_id := 0; g_experiment_id := 0; g_task_id := "";
                       model_provider := ""; model_name := "";
                       prompt_strategy := STRUCTURED; prompt_used := "";
                       generated_content := "";
                       generation_params :=
                         {| temperature := 0; max_tokens := 0 |};
                       latency_ms := 0; prompt_tokens := 0;
                       completion_tokens := 0; cost_usd := 0 |})
                 demo_task)
              (snd (get_next_blind_item (minting 2) 1 st_one_generation))
              (scores_for "CCCCCCCC") None)
    as (g & ev & st2 & H1 & H2 & _ & _ & H3 & _).
  - unfold st_one_generation, demo_exec_all. apply reachable_exec_all.
    constructor.
  - vm_compute. reflexivity.
  - vm_compute. reflexivity.
  - exists g, ev, st2. auto.
Defined.

(** X5. A replay is rejected: once a submission has returned, every
    further submission under the same blind identifier (made before the
    identifier is issued again) raises "Evaluation already exists for
    blind_id" and changes nothing. *)
Theorem replay_is_rejected data t st ev st' data' t' :
  submit_evaluation data t st = (inr ev, st') ->
  es_blind_id data' = es_blind_id data ->
  submit_evaluation data' t' st' =
    (inl (EvaluationExistsForBlindId (es_blind_id data)), st').
Proof.
  intros Hrun Hb.
  apply submit_evaluation_returns in Hrun
    as (g & _ & _ & _ & _ & _ & Hblind & Hevs & _ & _ & Hc & _).
  unfold submit_evaluation; unfold_m. rewrite Hb, Hc, lookup_delete_eq. simpl.
  destruct (find_is_some (fun x => String.eqb (blind_id x) (es_blind_id data))
              (evaluations st') ev) as [y ->]; [| |reflexivity].
  - rewrite Hevs. apply List.in_or_app. right. now left.
  - now apply String.eqb_eq.
Qed.

Lemma replay_is_rejected_witness :
  exists st',
    submit_evaluation (submission "AAAAAAAA" 1 1 1 1 1) None st' =
      (inl (EvaluationExistsForBlindId "AAAAAAAA"), st').
Proof.
  destruct (submit_evaluation (scores_for "AAAAAAAA") None
              (demo_exec_all [NextBlindItem (minting 0) 1] st_one_generation))
    as [[ex|ev] st'] eqn:Hrun; [vm_compute in Hrun; discriminate|].
  exists st'.
  exact (replay_is_rejected (scores_for "AAAAAAAA") None _ ev st'
           (submission "AAAAAAAA" 1 1 1 1 1) None Hrun eq_refl).
Defined.

(** X6. In every state the system reaches, a submission fails in one of
    three ways only: the identifier is unknown, an Evaluation carries the
    identifier, or the Generation it stands for has an Evaluation. The
    "Generation not found" error cannot occur, because an outstanding
    identifier always stands for a stored Generation. *)
Theorem submit_failures MODELS PRICING client catalog st data t e st' :
  reachable MODELS PRICING client catalog st ->
  submit_evaluation data t st = (inl e, st') ->
  (e = InvalidBlindId (es_blind_id data) /\
   forall ev, In ev (evaluations st) -> blind_id ev <> es_blind_id data) \/
  (e = EvaluationExistsForBlindId (es_blind_id data) /\
   blind_id_cache st !! es_blind_id data = None) \/
  (exists gid ev,
     e = EvaluationExistsForGeneration gid /\
     blind_id_cache st !! es_blind_id data = Some gid /\
     In ev (evaluations st) /\ generation_id ev = gid).
Proof.
  intros Hreach.
  destruct (reachable_well_formed _ _ _ _ _ Hreach) as (_ & Hrows & Hcache).
  unfold submit_evaluation; unfold_m.
  destruct (blind_id_cache st !! es_blind_id data) as [gid|] eqn:Hc; simpl.
  - destruct (Hcache _ _ Hc) as (g & Hg & Hgid).
    destruct (Hrows g Hg) as (Hpos & _).
    destruct (Z.eqb_spec gid 0) as [|_]; [lia|].
    destruct (query_generation st gid) as [g'|] eqn:Hq.
    + destruct (List.find _ (evaluations st)) as [ev|] eqn:Hf.
      * intros [= <- <-]. right. right. exists gid, ev.
        apply List.find_some in Hf as [Hin Heq]. apply Z.eqb_eq in Heq. auto.
      * match goal with |- context [_check_experiment_completion ?a ?s] =>
          destruct (check_completion_effect a s) as (s' & -> & _) end.
        discriminate.
    + exfalso. unfold query_generation in Hq.
      rewrite find_none_iff in Hq. specialize (Hq g Hg). simpl in Hq.
      apply Z.eqb_neq in Hq. contradiction.
  - destruct (List.find _ (evaluations st)) as [ev|] eqn:Hf; intros [= <- <-].
    + right. left. auto.
    + left. split; [reflexivity|]. intros ev Hin.
      rewrite find_none_iff in Hf. specialize (Hf ev Hin). simpl in Hf.
      now apply String.eqb_neq.
Qed.

Lemma submit_failures_witness :
  blind_id_cache st_complete !! "AAAAAAAA" = None.
Proof.
  destruct (submit_failures demo_models demo_pricing demo_client [demo_task]
              st_complete (scores_for "AAAAAAAA") None
              (EvaluationExistsForBlindId "AAAAAAAA") st_complete)
    as [[H _]|[[_ H]|(gid & ev & H & _)]]; try discriminate.
  - unfold st_complete, st_one_generation, demo_exec_all.
    do 2 apply reachable_exec_all. constructor.
  - vm_compute. reflexivity.
  - exact H.
Defined.

(** X7. Skipping releases one assignment and nothing else: the call
    answers [True] exactly when the identifier is outstanding (the route
    answers 404 otherwise), afterwards the identifier is not outstanding,
    every other assignment is kept, the store is untouched, so that the
    eligible Generations are the same, and a submission under the skipped
    identifier is rejected without storing anything. *)
Theorem skip_releases_the_assignment blind st :
  let st' := snd (skip_blind_item blind st) in
  fst (skip_blind_item blind st)
    = inr (bool_decide (is_Some (blind_id_cache st !! blind))) /\
  (fst (skip_blind_item_route blind st) = inr tt <->
   is_Some (blind_id_cache st !! blind)) /\
  blind_id_cache st' = delete blind (blind_id_cache st) /\
  experiments st' = experiments st /\ tasks st' = tasks st /\
  generations st' = generations st /\ evaluations st' = evaluations st /\
  (forall eid, unevaluated st' eid = unevaluated st eid) /\
  (forall data t,
     es_blind_id data = blind ->
     exists e, submit_evaluation data t st' = (inl e, st') /\
               (e = InvalidBlindId blind \/ e = EvaluationExistsForBlindId blind)).
Proof.
  cbv zeta. unfold skip_blind_item_route, skip_blind_item; unfold_m.
  destruct (blind_id_cache st !! blind) as [gid|] eqn:Hc; simpl.
  - repeat split; eauto.
    intros data t Hb. unfold submit_evaluation; unfold_m.
    rewrite Hb, lookup_delete_eq. simpl.
    destruct (List.find _ (evaluations st)); eauto.
  - repeat split; try discriminate.
    + intros [x Hx]. discriminate.
    + symmetry. now apply delete_id.
    + intros data t Hb. unfold submit_evaluation; unfold_m.
      rewrite Hb, Hc. simpl. destruct (List.find _ (evaluations st)); eauto.
Qed.

(** ** Revealing *)

(** X8. What was submitted is what is revealed: after a submission that
    returns, under a blind identifier no earlier Evaluation carries, in a
    state the system reaches, revealing the identifier gives the provider,
    the model and the strategy of the evaluated Generation, the title of
    its task and the five scores as they were submitted. *)
Theorem reveal_after_submit MODELS PRICING client catalog st data t ev st' :
  reachable MODELS PRICING client catalog st ->
  submit_evaluation data t st = (inr ev, st') ->
  (forall ev0, In ev0 (evaluations st) -> blind_id ev0 <> es_blind_id data) ->
  exists g task d,
    In g (generations st) /\
    blind_id_cache st !! es_blind_id data = Some (g_id g) /\
    query_task st (g_task_id g) = Some task /\
    reveal_generation_details st' (es_blind_id data) = RevealDetails d /\
    rd_model_provider d = model_provider g /\
    rd_model_name d = model_name g /\
    rd_prompt_strategy d = strategy_value (prompt_strategy g) /\
    rd_task_title d = title task /\
    rd_scores d =
      {| rs_voice_match := es_voice_match data;
         rs_coherence := es_coherence data;
         rs_engaging := es_engaging data;
         rs_meets_brief := es_meets_brief data;
         rs_overall_quality := es_overall_quality data |}.
Proof.
  intros Hreach Hrun Hnew.
  destruct (reachable_well_formed _ _ _ _ _ Hreach) as (_ & Hrows & _).
  pose proof Hrun as Hret.
  apply submit_evaluation_returns in Hret
    as (g & Ht & Hq & Hnone & Hgid & _ & Hb & Hevs & Hg & Htasks & _).
  destruct (submit_evaluation_accepts data t st (g_id g) g Ht Hq Hnone)
    as (ev' & st'' & Hrun' & _ & S1 & S2 & S3 & S4 & S5 & _).
  rewrite Hrun in Hrun'. injection Hrun' as <- <-.
  pose proof Hq as Hin. apply List.find_some in Hin as [Hin _].
  destruct (Hrows g Hin) as (_ & task & Htask).
  assert (Hc : blind_id_cache st !! es_blind_id data = Some (g_id g)).
  { unfold truthy in Ht. destruct (blind_id_cache st !! es_blind_id data);
      [|discriminate]. destruct (_ =? 0); [discriminate|]. exact Ht. }
  exists g, task. eexists. split; [exact Hin|]. split; [exact Hc|].
  split; [exact Htask|].
  unfold reveal_generation_details. rewrite Hevs, find_app_one.
  replace (List.find _ (evaluations st)) with (@None Evaluation).
  2:{ symmetry. apply find_none_iff. intros ev0 Hin0.
      apply String.eqb_neq. now apply Hnew. }
  simpl. rewrite Hb, String.eqb_refl.
  unfold query_generation, query_task in *. rewrite Hg, Htasks, Hgid, Hq, Htask.
  split; [reflexivity|]. simpl. repeat split. now rewrite S1, S2, S3, S4, S5.
Qed.

Lemma reveal_after_submit_witness :
  exists d,
    reveal_generation_details
      (snd (submit_evaluation (scores_for "AAAAAAAA") None
              (demo_exec_all [NextBlindItem (minting 0) 1] st_one_generation)))
      "AAAAAAAA" = RevealDetails d /\
    rd_model_name d = "gpt-4".
Proof.
  pose (st := demo_exec_all [NextBlindItem (minting 0) 1] st_one_generation).
  destruct (submit_evaluation (scores_for "AAAAAAAA") None st)
    as [[ex|ev] st'] eqn:Hrun; [vm_compute in Hrun; discriminate|].
  destruct (reveal_after_submit demo_models demo_pricing demo_client
              [demo_task] st (scores_for "AAAAAAAA") None ev st')
    as (g & task & d & Hg & Hc & _ & Hd & _ & Hm & _).
  - unfold st, st_one_generation, demo_exec_all.
    do 2 apply reachable_exec_all. constructor.
  - exact Hrun.
  - intros ev0 [].
  - exists d. fold st. rewrite Hrun. split; [exact Hd|]. rewrite Hm.
    destruct Hg as [<-|[]]. reflexivity.
Defined.

(** X9. In every state the system reaches, revealing never fails on a
    missing row: it answers "Evaluation not found" exactly when no
    Evaluation carries the identifier (an identifier that is only
    outstanding reveals nothing), and the details otherwise. *)
Theorem reveal_outcomes MODELS PRICING client catalog st blind :
  reachable MODELS PRICING client catalog st ->
  (reveal_generation_details st blind = RevealNotFound <->
   forall ev, In ev (evaluations st) -> blind_id ev <> blind) /\
  reveal_generation_details st blind <> RevealAttributeError.
Proof.
  intros Hreach.
  destruct (reachable_well_formed _ _ _ _ _ Hreach) as (_ & Hrows & _).
  destruct (evaluations_backed_reachable _ _ _ _ _ Hreach) as (_ & Hback).
  unfold reveal_generation_details.
  destruct (List.find _ (evaluations st)) as [ev|] eqn:Hf.
  - apply List.find_some in Hf as [Hin Heq]. apply String.eqb_eq in Heq.
    destruct (Hback ev Hin) as (g & Hg & Hid & _).
    destruct (query_generation st (generation_id ev)) as [g'|] eqn:Hq.
    + apply List.find_some in Hq as [Hg' _].
      destruct (Hrows g' Hg') as (_ & task & ->).
      split; [|discriminate]. split; [discriminate|].
      intros H. exfalso. now apply (H ev Hin).
    + exfalso. unfold query_generation in Hq. rewrite find_none_iff in Hq.
      specialize (Hq g Hg). simpl in Hq. apply Z.eqb_neq in Hq. contradiction.
  - split; [|discriminate]. split; [|reflexivity].
    intros _ ev Hin. rewrite find_none_iff in Hf. specialize (Hf ev Hin).
    now apply String.eqb_neq.
Qed.

Lemma reveal_outcomes_witness :
  reveal_generation_details st_issued_twice "AAAAAAAA" = RevealNotFound.
Proof.
  apply (proj1 (reveal_outcomes demo_models demo_pricing demo_client
                  [demo_task] st_issued_twice "AAAAAAAA"
                  ltac:(unfold st_issued_twice, st_one_generation, demo_exec_all;
                        do 2 apply reachable_exec_all; constructor))).
  intros ev [].
Defined.

Lemma skip_releases_the_assignment_witness :
  exists e,
    submit_evaluation (scores_for "AAAAAAAA") None
      (snd (skip_blind_item "AAAAAAAA" st_issued_twice))
    = (inl e, snd (skip_blind_item "AAAAAAAA" st_issued_twice)) /\
    (e = InvalidBlindId "AAAAAAAA" \/ e = EvaluationExistsForBlindId "AAAAAAAA").
Proof.
  exact (proj2 (proj2 (proj2 (proj2 (proj2 (proj2 (proj2 (proj2
           (skip_releases_the_assignment "AAAAAAAA" st_issued_twice))))))))
           (scores_for "AAAAAAAA") None eq_refl).
Defined.

(** ** Deleting an Evaluation *)

Lemma remove_last_evaluation l ev :
  (forall x, In x l -> ev_id x <> ev_id ev) ->
  remove_evaluation (ev_id ev) (l ++ [ev]) = l.
Proof.
  induction l as [|a l IH]; simpl; intros H.
  - now rewrite Z.eqb_refl.
  - destruct (Z.eqb_spec (ev_id a) (ev_id ev)) as [Heq|_].
    + exfalso. apply (H a); auto.
    + rewrite IH; auto.
Qed.

Lemma unevaluated_ext st st' eid :
  generations st' = generations st -> evaluations st' = evaluations st ->
  unevaluated st' eid = unevaluated st eid.
Proof. unfold unevaluated, has_evaluation. now intros -> ->. Qed.

(** X10. Deleting the Evaluation a submission has just inserted restores
    the table of Evaluations, so the Generation is eligible again; it
    restores neither the assignment nor the status of the experiment: an
    experiment the submission completed stays "complete". *)
Theorem delete_undoes_the_insert data t st ev st1 :
  submit_evaluation data t st = (inr ev, st1) ->
  exists st2,
    delete_evaluation (ev_id ev) st1 = (inr tt, st2) /\
    evaluations st2 = evaluations st /\
    generations st2 = generations st /\
    (forall eid, unevaluated st2 eid = unevaluated st eid) /\
    experiments st2 = experiments st1 /\
    blind_id_cache st2 = blind_id_cache st1 /\
    blind_id_cache st2 !! es_blind_id data = None.
Proof.
  intros Hrun. pose proof Hrun as Hret.
  apply submit_evaluation_returns in Hret
    as (g & Ht & Hq & Hnone & _ & _ & _ & Hevs & Hg & _ & Hc & _).
  destruct (submit_evaluation_accepts data t st (g_id g) g Ht Hq Hnone)
    as (ev' & st1' & Hrun' & Hid & _).
  rewrite Hrun in Hrun'. injection Hrun' as <- <-.
  assert (Hfresh : forall x, In x (evaluations st) -> ev_id x <> ev_id ev).
  { intros x Hin. rewrite Hid.
    destruct (next_id_fresh (List.map ev_id (evaluations st))) as [_ Hf].
    specialize (Hf (ev_id x) (List.in_map ev_id _ _ Hin)). lia. }
  unfold delete_evaluation; unfold_m.
  destruct (find_is_some (fun x => ev_id x =? ev_id ev) (evaluations st1) ev)
    as [y ->].
  { rewrite Hevs. apply List.in_or_app. right. now left. }
  { apply Z.eqb_refl. }
  eexists. split; [reflexivity|]. simpl.
  rewrite Hevs, (remove_last_evaluation _ _ Hfresh).
  repeat split; auto.
  - intros eid. apply unevaluated_ext; simpl; auto.
  - rewrite Hc. apply lookup_delete_eq.
Qed.

Lemma delete_undoes_the_insert_witness :
  exists st1 st2 id,
    delete_evaluation id st1 = (inr tt, st2) /\
    status_of st1 1 = Some "complete" /\
    experiments st2 = experiments st1 /\
    List.length (evaluations st2) = 0%nat.
Proof.
  pose (st := demo_exec_all [NextBlindItem (minting 0) 1] st_one_generation).
  destruct (submit_evaluation (scores_for "AAAAAAAA") None st)
    as [[ex|ev] st1] eqn:Hrun; [vm_compute in Hrun; discriminate|].
  destruct (delete_undoes_the_insert _ _ _ _ _ Hrun)
    as (st2 & Hdel & Hevs & _ & _ & Hexp & _).
  exists st1, st2, (ev_id ev). split; [exact Hdel|].
  split; [|split; [exact Hexp|now rewrite Hevs]].
  vm_compute in Hrun. injection Hrun as _ <-. vm_compute. reflexivity.
Defined.

(** ** Evaluation progress *)

Lemma round_half_even_bounds x a b :
  (inject_Z a <= x)%Q -> (x <= inject_Z b)%Q ->
  a <= round_half_even x <= b.
Proof.
  intros Ha Hb. unfold round_half_even.
  assert (a <= Qfloor x) as Hfa
    by (rewrite <- (Qfloor_Z a); now apply Qfloor_resp_le).
  assert (Qfloor x <= b) as Hfb
    by (rewrite <- (Qfloor_Z b); now apply Qfloor_resp_le).
  assert (Hstep : (0 < x - inject_Z (Qfloor x))%Q -> Qfloor x + 1 <= b).
  { intros Hpos. destruct (Z.eq_dec (Qfloor x) b) as [Heq|]; [|lia].
    exfalso. rewrite Heq in Hpos.
    apply (Qlt_not_le _ _ Hpos). unfold Qminus.
    apply (Qplus_le_l _ _ (inject_Z b)). ring_simplify. exact Hb. }
  destruct (Qcompare_spec (x - inject_Z (Qfloor x)) (1 # 2)) as [He|Hl|Hg].
  - destruct (Z.even (Qfloor x)); [lia|]. split; [lia|].
    apply Hstep. rewrite He. reflexivity.
  - lia.
  - split; [lia|]. apply Hstep.
    eapply Qlt_trans; [|exact Hg]. reflexivity.
Qed.

Lemma percentage_bounds c t :
  0 <= c <= t -> 0 < t ->
  (0 <= round_ndigits (inject_Z c / inject_Z t * 100) 1 <= 100)%Q.
Proof.
  intros [Hc Hct] Ht.
  assert (Htq : (0 < inject_Z t)%Q) by (unfold Qlt; simpl; lia).
  assert (Hq0 : (0 <= inject_Z c / inject_Z t * 100)%Q).
  { apply Qmult_le_0_compat; [|discriminate].
    apply Qle_shift_div_l; [exact Htq|].
    rewrite Qmult_0_l. unfold Qle; simpl; lia. }
  assert (Hq1 : (inject_Z c / inject_Z t * 100 <= 100)%Q).
  { rewrite <- (Qmult_1_l 100) at 2.
    apply Qmult_le_compat_r; [|discriminate].
    apply Qle_shift_div_r; [exact Htq|].
    rewrite Qmult_1_l. now rewrite <- Zle_Qle. }
  unfold round_ndigits. change (10 ^ Z.of_nat 1) with 10.
  destruct (round_half_even_bounds
              (inject_Z c / inject_Z t * 100 * inject_Z 10) 0 1000) as [H0 H1].
  - change (inject_Z 0) with (0 * inject_Z 10)%Q.
    apply Qmult_le_compat_r; [exact Hq0|discriminate].
  - change (inject_Z 1000) with (100 * inject_Z 10)%Q.
    apply Qmult_le_compat_r; [exact Hq1|discriminate].
  - split.
    + apply Qle_shift_div_l; [reflexivity|].
      rewrite Qmult_0_l. unfold Qle; simpl; lia.
    + apply Qle_shift_div_r; [reflexivity|].
      change (100 * inject_Z 10)%Q with (inject_Z 1000). now rewrite <- Zle_Qle.
Qed.

(** X11. In every state the system reaches, the evaluation progress of
    an experiment is within bounds: completed is between 0 and total,
    remaining is their difference and is not negative, and the percentage
    is between 0 and 100 (0 for an experiment without Generations). The
    call answers "Experiment not found" exactly when no experiment has
    the identifier. *)
Theorem evaluation_progress_bounds MODELS PRICING client catalog st eid :
  reachable MODELS PRICING client catalog st ->
  (get_evaluation_progress st eid = None <-> query_experiment st eid = None) /\
  forall p, get_evaluation_progress st eid = Some p ->
    ep_total p = count (generations_of st eid) /\
    ep_completed p = count (evaluations_of st eid) /\
    0 <= ep_completed p <= ep_total p /\
    ep_remaining p = ep_total p - ep_completed p /\
    0 <= ep_remaining p /\
    (0 <= ep_percentage p <= 100)%Q /\
    (ep_total p = 0 -> ep_percentage p = 0%Q).
Proof.
  intros Hreach.
  pose proof (backed_counts st eid
                (evaluations_backed_reachable _ _ _ _ _ Hreach)) as Hle.
  unfold get_evaluation_progress.
  destruct (query_experiment st eid) as [e|]; [|split; [tauto|discriminate]].
  split; [split; discriminate|]. intros p [= <-]. simpl.
  assert (0 <= count (evaluations_of st eid)) by (unfold count; lia).
  repeat split; try lia.
  - destruct (Z.ltb_spec 0 (count (generations_of st eid))) as [Hpos|_];
      [|discriminate]. apply percentage_bounds; lia.
  - destruct (Z.ltb_spec 0 (count (generations_of st eid))) as [Hpos|_];
      [|discriminate]. apply percentage_bounds; lia.
  - intros ->. reflexivity.
Qed.

Lemma evaluation_progress_bounds_witness :
  exists p,
    get_evaluation_progress st_reminted 1 = Some p /\
    0 <= ep_remaining p /\ (ep_percentage p <= 100)%Q.
Proof.
  destruct (get_evaluation_progress st_reminted 1) as [p|] eqn:Hp;
    [|vm_compute in Hp; discriminate].
  destruct (proj2 (evaluation_progress_bounds demo_models demo_pricing
                     demo_client [demo_task] st_reminted 1
                     ltac:(unfold st_reminted, st_one_generation, demo_exec_all;
                           do 2 apply reachable_exec_all; constructor))
              p Hp)
    as (_ & _ & _ & _ & H1 & [_ H2] & _).
  exists p. auto.
Defined.

Lemma NoDup_map_filter {A B} (f : A -> B) (p : A -> bool) l :
  List.NoDup (List.map f l) -> List.NoDup (List.map f (List.filter p l)).
Proof.
  induction l as [|a l IH]; simpl; [auto|]. intros H.
  apply List.NoDup_cons_iff in H as [Hn Hd].
  destruct (p a); simpl; [|auto]. constructor; [|auto].
  intros Hin. apply Hn. apply List.in_map_iff in Hin as (x & Hx & Hin).
  apply List.filter_In in Hin as [Hin _]. apply List.in_map_iff. eauto.
Qed.

(** In a well-formed store whose Evaluations are backed, the Evaluations
    of an experiment are as many as its Generations exactly when none of
    its Generations is left without one. *)
Lemma all_evaluated_iff st eid :
  well_formed st -> evaluations_backed st ->
  (count (evaluations_of st eid) = count (generations_of st eid) <->
   unevaluated st eid = []).
Proof.
  intros (Hnd & _ & _) (Hend & Hback).
  assert (Hincl : List.incl (List.map generation_id (evaluations_of st eid))
                    (List.map g_id (generations_of st eid))).
  { intros gid Hin. apply List.in_map_iff in Hin as (ev & <- & Hin).
    apply List.filter_In in Hin as [Hin Heid].
    destruct (Hback ev Hin) as (g & Hgin & Hid & Hexp).
    apply List.in_map_iff. exists g. split; [assumption|].
    apply List.filter_In. split; [assumption|]. now rewrite Hexp. }
  pose proof (NoDup_map_filter generation_id
                (fun ev => ev_experiment_id ev =? eid) _ Hend) as Hnde.
  pose proof (NoDup_map_filter g_id
                (fun g => g_experiment_id g =? eid) _ Hnd) as Hndg.
  fold (evaluations_of st eid) in Hnde. fold (generations_of st eid) in Hndg.
  split.
  - intros Hcount. apply unevaluated_nil. intros g Hg He.
    assert (In (g_id g) (List.map generation_id (evaluations_of st eid))) as Hin.
    { assert (List.length (List.map g_id (generations_of st eid)) <=
              List.length (List.map generation_id (evaluations_of st eid)))%nat
        as Hlen by (rewrite !List.length_map; unfold count in Hcount; lia).
      apply (List.NoDup_length_incl Hnde Hlen Hincl).
      apply List.in_map. apply List.filter_In. split; [assumption|].
      now apply Z.eqb_eq. }
    apply List.in_map_iff in Hin as (ev & Hid & Hin).
    apply List.filter_In in Hin as [Hin _].
    unfold has_evaluation. apply List.existsb_exists. exists ev.
    split; [assumption|]. now apply Z.eqb_eq.
  - intros Hnil. rewrite unevaluated_nil in Hnil.
    apply Z.le_antisymm; [now apply backed_counts|].
    unfold count. apply Nat2Z.inj_le.
    rewrite <- (List.length_map g_id), <- (List.length_map generation_id).
    apply List.NoDup_incl_length; [exact Hndg|].
    intros gid Hin. apply List.in_map_iff in Hin as (g & <- & Hin).
    apply List.filter_In in Hin as [Hg He]. apply Z.eqb_eq in He.
    specialize (Hnil g Hg He). unfold has_evaluation in Hnil.
    apply List.existsb_exists in Hnil as (ev & Hin & Hid).
    apply Z.eqb_eq in Hid.
    apply List.in_map_iff. exists ev. split; [assumption|].
    apply List.filter_In. split; [assumption|].
    destruct (Hback ev Hin) as (g' & Hg' & Hid' & Hexp).
    assert (g' = g) as ->.
    { pose proof (find_by_id_unique _ g Hnd Hg) as F1.
      pose proof (find_by_id_unique _ g' Hnd Hg') as F2.
      replace (g_id g') with (g_id g) in F2 by congruence. congruence. }
    apply Z.eqb_eq. congruence.
Qed.

(** X12. The two views of what is left agree: in every state the system
    reaches, the evaluation progress of an experiment reports nothing
    remaining exactly when an issue call for it answers "nothing left". *)
Theorem remaining_agrees_with_issue MODELS PRICING client catalog st eid p env :
  reachable MODELS PRICING client catalog st ->
  get_evaluation_progress st eid = Some p ->
  (ep_remaining p = 0 <-> fst (get_next_blind_item env eid st) = inr None).
Proof.
  intros Hreach Hp.
  pose proof (reachable_well_formed _ _ _ _ _ Hreach) as Hwf.
  pose proof (evaluations_backed_reachable _ _ _ _ _ Hreach) as Hback.
  rewrite issue_none_iff, <- (all_evaluated_iff st eid Hwf Hback).
  unfold get_evaluation_progress in Hp.
  destruct (query_experiment st eid); [|discriminate].
  injection Hp as <-. simpl. lia.
Qed.

Lemma remaining_agrees_with_issue_witness :
  fst (get_next_blind_item (minting 0) 1 st_complete) = inr None.
Proof.
  destruct (get_evaluation_progress st_complete 1) as [p|] eqn:Hp;
    [|vm_compute in Hp; discriminate].
  apply (proj1 (remaining_agrees_with_issue demo_models demo_pricing
                  demo_client [demo_task] st_complete 1 p (minting 0)
                  ltac:(unfold st_complete, st_one_generation, demo_exec_all;
                        do 2 apply reachable_exec_all; constructor)
                  Hp)).
  vm_compute in Hp. injection Hp as <-. reflexivity.
Defined.

(** ** More on the sweep *)

Lemma state_eq st st' :
  experiments st' = experiments st -> tasks st' = tasks st ->
  generations st' = generations st -> evaluations st' = evaluations st ->
  blind_id_cache st' = blind_id_cache st -> st' = st.
Proof. destruct st, st'. simpl. now intros -> -> -> -> ->. Qed.

Lemma combination_stored_mono st st' eid c news :
  generations st' = generations st ++ news ->
  combination_stored st eid c = true -> combination_stored st' eid c = true.
Proof.
  destruct c as [[mc s] t]. unfold combination_stored, existing_generation.
  intros ->. destruct (List.find _ (generations st)) as [g|] eqn:Hf;
    [|discriminate]. intros _.
  apply List.find_some in Hf as [Hin Hg].
  destruct (find_is_some _ (generations st ++ news) g
              (List.in_or_app _ _ _ (or_introl Hin)) Hg) as [y ->].
  reflexivity.
Qed.

(** An attempt for a stored combination returns the stored Generation
    and touches nothing. *)
Lemma sweep_attempt_stored MODELS PRICING self env eid total c loc st :
  combination_stored st eid c = true ->
  exists g,
    In g (generations st) /\ of_combination eid c g = true /\
    sweep_attempt MODELS PRICING self env eid total c loc st =
      (inr (report total (appended g loc)), st).
Proof.
  destruct c as [[mc strategy] tid]. rewrite combination_stored_find.
  unfold sweep_attempt, try_except, bind, get, ret. cbn [fst snd].
  unfold of_combination.
  destruct (existing_generation st eid tid (mc_provider mc) strategy)
    as [g|] eqn:Hex; [|discriminate].
  intros _. exists g. apply List.find_some in Hex as [Hin Hg]. auto.
Qed.

Lemma sweep_loop_of_stored MODELS PRICING self envs eid total cs :
  forall k loc st,
    (forall c, In c cs -> combination_stored st eid c = true) ->
    exists found,
      sweep_loop MODELS PRICING self envs eid total k cs loc st =
        (inr {| sw_generations := sw_generations loc ++ found;
                sw_completed := sw_completed loc + count cs;
                sw_progress :=
                  sw_progress loc
                  ++ progress_reports (sw_completed loc) total (List.length cs) |},
         st) /\
      Forall2 (fun c g => In g (generations st) /\ of_combination eid c g = true)
        cs found.
Proof.
  induction cs as [|c cs IH]; intros k loc st Hall.
  - exists []. destruct loc. unfold count, progress_reports. simpl.
    rewrite !List.app_nil_r, Z.add_0_r. split; [reflexivity|constructor].
  - destruct (sweep_attempt_stored MODELS PRICING self (envs k) eid total c loc
                st (Hall c (or_introl eq_refl))) as (g & Hin & Hof & Hrun).
    simpl sweep_loop. unfold bind. rewrite Hrun.
    destruct (IH (S k) (report total (appended g loc)) st
                (fun c' H => Hall c' (or_intror H))) as (found & -> & Hf).
    exists (g :: found). split; [|constructor; auto].
    simpl. rewrite progress_reports_cons, <- !List.app_assoc. simpl.
    do 2 f_equal. unfold count. simpl List.length. f_equal. lia.
Qed.

Lemma sweep_of_stored MODELS PRICING self envs st eid e :
  query_experiment st eid = Some e ->
  missing_key (selected_models e) = None ->
  (forall c, In c (combinations e) -> combination_stored st eid c = true) ->
  exists loc,
    generate_all_for_experiment MODELS PRICING self envs eid st
      = (inr loc,
         with_experiments st (set_status eid "evaluating" (experiments st))) /\
    Forall2 (fun c g => In g (generations st) /\ of_combination eid c g = true)
      (combinations e) (sw_generations loc) /\
    sw_completed loc = total_combinations e.
Proof.
  intros He Hkeyed Hall.
  unfold generate_all_for_experiment.
  unfold bind at 1. unfold get at 1. rewrite He.
  unfold bind at 1. unfold put at 1. unfold bind at 1.
  rewrite sweep_models_run, Hkeyed. fold (combinations e).
  destruct (sweep_loop_of_stored MODELS PRICING self envs eid
              (total_combinations e) (combinations e) 0%nat
              {| sw_generations := []; sw_completed := 0; sw_progress := [] |}
              (with_experiments st
                 (set_status eid "generating" (experiments st))))
    as (found & -> & Hf).
  { intros c Hin. rewrite <- (Hall c Hin). now apply combination_stored_ext. }
  eexists. cbn [sw_generations sw_completed]. split; [|split].
  - unfold bind, get, put, ret, with_experiments.
    cbn [experiments tasks generations evaluations blind_id_cache].
    now rewrite set_status_twice.
  - exact Hf.
  - rewrite Z.add_0_l. now apply combinations_length.
Qed.

(** X13. A sweep over an experiment whose entries of [selected_models]
    all have their two keys and whose combinations all have a stored
    Generation calls no provider and stores nothing: it returns, leaves
    the Generations, the Evaluations and the assignments as they are,
    gives back one stored Generation per combination, in the order of the
    loops, counts each of them, and sets the status to "evaluating". *)
Theorem complete_sweep_adds_nothing MODELS PRICING self envs st e :
  query_experiment st (e_id e) = Some e ->
  missing_key (selected_models e) = None ->
  (forall c, In c (combinations e) ->
             combination_stored st (e_id e) c = true) ->
  exists loc st',
    generate_all_for_experiment MODELS PRICING self envs (e_id e) st
      = (inr loc, st') /\
    st' = with_experiments st
            (set_status (e_id e) "evaluating" (experiments st)) /\
    Forall2 (fun c g => In g (generations st) /\
                        of_combination (e_id e) c g = true)
      (combinations e) (sw_generations loc) /\
    sw_completed loc = total_combinations e.
Proof.
  intros He Hkeyed Hall.
  destruct (sweep_of_stored MODELS PRICING self envs st (e_id e) e He Hkeyed
              Hall)
    as (loc & Hrun & Hf & Hc).
  exists loc. eexists. split; [exact Hrun|]. auto.
Qed.

Lemma complete_sweep_adds_nothing_witness :
  exists loc st',
    generate_all_for_experiment demo_models demo_pricing demo_client
      (fun _ => timing_out) 1 st_one_generation = (inr loc, st') /\
    generations st' = generations st_one_generation.
Proof.
  destruct (complete_sweep_adds_nothing demo_models demo_pricing demo_client
              (fun _ => timing_out) st_one_generation
              {| e_id := 1; e_name := "demo"; e_description := None;
                 baseline_samples := ["A"]; selected_models := [gpt4_entry];
                 selected_strategies := ["structured"];
                 selected_tasks := ["A"]; status := "evaluating" |})
    as (loc & st' & H1 & H2 & _).
  - vm_compute. reflexivity.
  - vm_compute. reflexivity.
  - intros c Hin. vm_compute in Hin. destruct Hin as [<-|[]].
    vm_compute. reflexivity.
  - exists loc, st'. split; [exact H1|]. now rewrite H2.
Defined.

Lemma sweep_loop_stores MODELS PRICING self envs eid total cs :
  forall k loc st,
    (exists e, query_experiment st eid = Some e) ->
    (forall c, In c cs -> attemptable_combination MODELS st c) ->
    forall c, In c cs ->
      combination_stored
        (snd (sweep_loop MODELS PRICING self envs eid total k cs loc st)) eid c
      = true.
Proof.
  induction cs as [|c cs IH]; intros k loc st Hexp Hok c0 Hin; [destruct Hin|].
  simpl sweep_loop. unfold bind.
  destruct (sweep_attempt_effect MODELS PRICING self (envs k) eid total c loc st)
    as (loc1 & st1 & -> & (F1 & F2 & _) & _ & _ & Hadd & Hkept & Hnew).
  assert (Hexp1 : exists e, query_experiment st1 eid = Some e)
    by (unfold query_experiment; now rewrite F1).
  assert (Hok1 : forall c', In c' cs -> attemptable_combination MODELS st1 c').
  { intros c' Hin'. destruct (Hok c' (or_intror Hin')) as (A & B & C).
    unfold attemptable_combination, query_task. rewrite F2. auto. }
  destruct Hin as [<-|Hin]; [|now apply IH].
  assert (combination_stored st1 eid c = true) as Hst1.
  { destruct (combination_stored st eid c) eqn:Hstored.
    - rewrite (combination_stored_ext st st1 eid c (Hkept eq_refl)). exact Hstored.
    - destruct (Hok c (or_introl eq_refl))
        as ((ps & Hps) & (task & Htask) & (params & Hparams)).
      destruct Hexp as (e & He). specialize (Hnew ps eq_refl Hps).
      destruct (generate_single_effect MODELS PRICING self (envs k) eid (snd c)
                  (mc_provider (fst (fst c))) (mc_model (fst (fst c))) ps st)
        as (r & st2 & Hrun & _ & Hgen & Hsucc).
      destruct (Hsucc e task params He Htask Hparams) as (g & -> & _).
      rewrite Hrun in Hnew. destruct Hnew as [<- _]. destruct Hgen as (Hg1 & _).
      destruct Hadd as [Hsame|(g' & Hg' & _ & Hof')].
      + exfalso. rewrite Hsame in Hg1.
        apply (f_equal (@List.length Generation)) in Hg1.
        rewrite List.length_app in Hg1. simpl in Hg1. lia.
      + destruct c as [[mc s] t].
        unfold combination_stored, existing_generation. rewrite Hg', find_app_one.
        destruct (List.find _ (generations st)); [reflexivity|].
        unfold of_combination in Hof'. now rewrite Hof'. }
  destruct (sweep_loop_effect MODELS PRICING self envs eid total cs (S k) loc1 st1)
    as (loc' & st' & news & -> & _ & Hg & _).
  cbn [snd]. eapply combination_stored_mono; eassumption.
Qed.

(** X14. A sweep in which every combination can be attempted (its
    strategy is one of the two, its task is in the catalog, its entry of
    [selected_models] has the two keys, its provider is configured)
    leaves a stored Generation for every combination of the experiment
    (a failed provider call leaves one with empty content), so that
    sweeping again stores nothing more. *)
Theorem sweep_is_idempotent MODELS PRICING self envs envs' st e :
  query_experiment st (e_id e) = Some e ->
  attemptable MODELS st e ->
  exists loc st1 loc' st2,
    generate_all_for_experiment MODELS PRICING self envs (e_id e) st
      = (inr loc, st1) /\
    (forall c, In c (combinations e) ->
               combination_stored st1 (e_id e) c = true) /\
    generate_all_for_experiment MODELS PRICING self envs' (e_id e) st1
      = (inr loc', st2) /\
    generations st2 = generations st1 /\ st2 = st1.
Proof.
  intros He Hok.
  pose proof (attemptable_missing_key MODELS st e Hok) as Hkeyed.
  destruct (generate_all_effect MODELS PRICING self envs (e_id e) st e He)
    as (loc & st1 & news & Hloop & Hall & Hg & Ht & Hev & Hc & _).
  rewrite Hkeyed in Hall.
  set (st0 := with_experiments st
                (set_status (e_id e) "generating" (experiments st))) in *.
  destruct (query_set_status st (e_id e) "generating" e He) as (e0 & He0 & _).
  assert (Hstored1 : forall c, In c (combinations e) ->
                       combination_stored st1 (e_id e) c = true).
  { intros c Hin.
    pose proof (sweep_loop_stores MODELS PRICING self envs (e_id e)
                  (total_combinations e) (combinations e) 0%nat
                  {| sw_generations := []; sw_completed := 0; sw_progress := [] |}
                  st0 (ex_intro _ e0 He0)) as Hs.
    rewrite Hloop in Hs. apply Hs; [|exact Hin].
    intros c' Hin'.
    destruct (attemptable_combinations MODELS st e c' Hok Hin') as (A & B & C).
    repeat split; assumption. }
  set (stA := with_experiments st1
                (set_status (e_id e) "evaluating" (experiments st))) in *.
  destruct (query_set_status st (e_id e) "evaluating" e He)
    as (e1 & He1 & B1 & B2 & B3 & B4 & B5).
  assert (HeA : query_experiment stA (e_id e) = Some e1) by exact He1.
  assert (Hcomb : combinations e1 = combinations e)
    by (unfold combinations, inner_combinations; now rewrite B2, B3, B4).
  destruct (sweep_of_stored MODELS PRICING self envs' stA (e_id e) e1 HeA)
    as (loc' & Hrun2 & _).
  { now rewrite B2. }
  { intros c Hin. rewrite Hcomb in Hin. rewrite <- (Hstored1 c Hin).
    now apply combination_stored_ext. }
  exists loc, stA, loc'. eexists. split; [exact Hall|].
  split; [intros c Hin; rewrite <- (Hstored1 c Hin);
          now apply combination_stored_ext|].
  split; [exact Hrun2|]. split; [reflexivity|].
  apply state_eq; try reflexivity.
  subst stA. cbn [experiments with_experiments]. apply set_status_twice.
Qed.

Lemma sweep_is_idempotent_witness :
  exists loc st1 loc' st2,
    generate_all_for_experiment demo_models demo_pricing demo_client
      (fun _ => answering) 1 st_interrupted = (inr loc, st1) /\
    generate_all_for_experiment demo_models demo_pricing demo_client
      (fun _ => timing_out) 1 st1 = (inr loc', st2) /\
    st2 = st1.
Proof.
  destruct (sweep_is_idempotent demo_models demo_pricing demo_client
              (fun _ => answering) (fun _ => timing_out) st_interrupted
              two_strategies)
    as (loc & st1 & loc' & st2 & H1 & _ & H2 & _ & H3).
  - vm_compute. reflexivity.
  - split; [|split].
    + intros s [<-|[<-|[]]]; auto.
    + intros t [<-|[]]. eexists. vm_compute. reflexivity.
    + intros mc [<-|[]]. exists "openai", "gpt-4". eexists.
      repeat split; vm_compute; reflexivity.
  - exists loc, st1, loc', st2. auto.
Defined.

Lemma filter_length_mono {A} (p q : A -> bool) l :
  (forall x, In x l -> p x = true -> q x = true) ->
  (List.length (List.filter p l) <= List.length (List.filter q l))%nat.
Proof.
  induction l as [|a l IH]; simpl; intros H; [lia|].
  assert (Hl : forall x, In x l -> p x = true -> q x = true)
    by (intros x Hx; apply H; now right).
  specialize (IH Hl).
  destruct (p a) eqn:Hp; [rewrite (H a (or_introl eq_refl) Hp); simpl; lia|].
  destruct (q a); simpl; lia.
Qed.

Lemma sweep_loop_bound MODELS PRICING self envs eid total cs :
  forall k loc st,
  exists loc' st' news,
    sweep_loop MODELS PRICING self envs eid total k cs loc st = (inr loc', st') /\
    generations st' = generations st ++ news /\
    (List.length news <=
     List.length (List.filter (fun c => negb (combination_stored st eid c)) cs))%nat /\
    (forall g, In g news ->
       exists c, In c cs /\ combination_stored st eid c = false /\
                 of_combination eid c g = true).
Proof.
  induction cs as [|c cs IH]; intros k loc st.
  - exists loc, st, []. simpl. rewrite List.app_nil_r.
    repeat split; auto. intros g [].
  - simpl sweep_loop. unfold bind.
    destruct (sweep_attempt_effect MODELS PRICING self (envs k) eid total c loc st)
      as (loc1 & st1 & -> & _ & _ & _ & Hadd & Hkept & _).
    destruct (IH (S k) loc1 st1) as (loc' & st' & news & -> & Hg & Hlen & Hkeys).
    destruct Hadd as [Hsame|(g & Hg1 & Hstored & Hof)].
    + exists loc', st', news. split; [reflexivity|]. split; [congruence|].
      assert (Hext : forall c', combination_stored st1 eid c'
                                = combination_stored st eid c')
        by (intros c'; now apply combination_stored_ext).
      split.
      * assert (Heq : List.filter
                        (fun c' => negb (combination_stored st1 eid c')) cs =
                      List.filter
                        (fun c' => negb (combination_stored st eid c')) cs)
          by (apply List.filter_ext; intros c'; now rewrite Hext).
        rewrite Heq in Hlen. simpl.
        destruct (combination_stored st eid c); simpl; lia.
      * intros g Hin. destruct (Hkeys g Hin) as (c' & Hc' & Hs' & Hof).
        exists c'. rewrite Hext in Hs'. split; [now right|auto].
    + assert (Hmono : forall c', combination_stored st1 eid c' = false ->
                                 combination_stored st eid c' = false).
      { intros c' H1. destruct (combination_stored st eid c') eqn:E;
          [|reflexivity].
        rewrite (combination_stored_mono st st1 eid c' [g] Hg1 E) in H1.
        discriminate. }
      exists loc', st', (g :: news). split; [reflexivity|].
      split; [rewrite Hg, Hg1, <- List.app_assoc; reflexivity|]. split.
      * simpl. rewrite Hstored. simpl.
        apply le_n_S. etransitivity; [exact Hlen|].
        apply filter_length_mono. intros c' _ H1.
        apply negb_true_iff in H1. apply negb_true_iff. auto.
      * intros g' [<-|Hin]; [exists c; split; [now left|auto]|].
        destruct (Hkeys g' Hin) as (c' & Hc' & Hs' & Hof').
        exists c'. split; [now right|auto].
Qed.

(** X15. Whatever the experiment and whatever the providers do, a sweep
    of an experiment that exists returns with the status "evaluating"
    when every entry of [selected_models] has its two keys, and raises a
    [KeyError] for the first missing key otherwise, leaving the status
    "generating". Either way it keeps every stored Generation, in place,
    adds at most M - N new ones, each for the experiment and for a
    combination that had no stored Generation, and touches neither the
    tasks, nor the Evaluations, nor the outstanding assignments. A sweep
    of an experiment that does not exist raises and changes nothing. *)
Theorem sweep_adds_at_most_the_missing MODELS PRICING self envs st eid :
  (forall e, query_experiment st eid = Some e ->
     exists r st' news,
       generate_all_for_experiment MODELS PRICING self envs eid st
         = (r, st') /\
       match missing_key (selected_models e) with
       | None =>
           (exists loc, r = inr loc) /\ status_of st' eid = Some "evaluating"
       | Some key =>
           r = inl (KeyError key) /\ status_of st' eid = Some "generating"
       end /\
       generations st' = generations st ++ news /\
       count news <= total_combinations e - stored_combinations st e /\
       (forall g, In g news ->
          g_experiment_id g = eid /\
          existing_generation st eid (g_task_id g) (model_provider g)
            (strategy_value (prompt_strategy g)) = None) /\
       tasks st' = tasks st /\ evaluations st' = evaluations st /\
       blind_id_cache st' = blind_id_cache st) /\
  (query_experiment st eid = None ->
   generate_all_for_experiment MODELS PRICING self envs eid st
     = (inl (ExperimentNotFound eid), st)).
Proof.
  split.
  - intros e He.
    assert (Heid : e_id e = eid).
    { apply List.find_some in He as [_ He]. now apply Z.eqb_eq in He. }
    destruct (generate_all_effect MODELS PRICING self envs eid st e He)
      as (loc & st1 & news & Hloop & Hall & Hg & Ht & Hev & Hc & _ & _ & Hx).
    set (st0 := with_experiments st
                  (set_status eid "generating" (experiments st))) in *.
    destruct (sweep_loop_bound MODELS PRICING self envs eid
                (total_combinations e) (combinations e) 0%nat
                {| sw_generations := []; sw_completed := 0; sw_progress := [] |}
                st0)
      as (loc' & st1' & news' & Hloop' & Hg' & Hlen & Hkeys).
    rewrite Hloop in Hloop'. injection Hloop' as <- <-.
    change (generations st0) with (generations st) in Hg'.
    rewrite Hg in Hg'. apply List.app_inv_head in Hg'. subst news'.
    assert (Hst : forall new st2,
              experiments st2 = set_status eid new (experiments st) ->
              status_of st2 eid = Some new).
    { intros new st2 H2. unfold status_of, query_experiment in He |- *.
      rewrite H2, find_set_status, He. cbn [option_map].
      now rewrite Z.eqb_refl. }
    assert (Hbound : count news
                     <= total_combinations e - stored_combinations st e).
    { pose proof (combinations_bound e) as Hb.
      unfold stored_combinations. rewrite Heid.
      pose proof (filter_negb_length (combination_stored st eid)
                    (combinations e)) as Hn.
      assert (count news <=
              count (List.filter
                       (fun c => negb (combination_stored st eid c))
                       (combinations e)))
        by (unfold count; apply Nat2Z.inj_le; exact Hlen).
      lia. }
    assert (Hnew : forall g, In g news ->
              g_experiment_id g = eid /\
              existing_generation st eid (g_task_id g) (model_provider g)
                (strategy_value (prompt_strategy g)) = None).
    { intros g Hin. destruct (Hkeys g Hin) as ([[mc s] t] & _ & Hstored & Hof).
      rewrite (combination_stored_ext st st0) in Hstored by reflexivity.
      unfold combination_stored, existing_generation in Hstored.
      unfold of_combination, same_combination in Hof.
      rewrite !andb_true_iff, !String.eqb_eq, Z.eqb_eq in Hof.
      destruct Hof as (((Hexp & Htask) & Hp) & Hs). split; [exact Hexp|].
      unfold existing_generation.
      rewrite (find_pointwise _ (same_combination eid t (mc_provider mc) s)).
      + destruct (List.find _ _); [discriminate|reflexivity].
      + intros g'. unfold same_combination.
        now rewrite strategy_db_value_value, Htask, Hp, Hs. }
    rewrite Hall.
    destruct (missing_key (selected_models e)) as [key|]; do 2 eexists;
      exists news; (split; [reflexivity|]).
    + split; [split; [reflexivity|now apply Hst]|].
      repeat split; try assumption; now apply Hnew.
    + split; [split; [eauto|now apply Hst]|].
      cbn [generations tasks evaluations blind_id_cache with_experiments].
      repeat split; try assumption; now apply Hnew.
  - intros He. unfold generate_all_for_experiment, bind, get, raise.
    now rewrite He.
Qed.

Lemma sweep_adds_at_most_the_missing_witness :
  exists st' news,
    generate_all_for_experiment demo_models demo_pricing demo_client
      (fun _ => answering) 1 st_keyless = (inl (KeyError "provider"), st') /\
    status_of st' 1 = Some "generating" /\
    generations st' = generations st_keyless ++ news /\
    count news <= 2.
Proof.
  destruct (proj1 (sweep_adds_at_most_the_missing demo_models demo_pricing
                     demo_client (fun _ => answering) st_keyless 1)
              keyless)
    as (r & st' & news & H1 & H2 & H3 & H4 & _).
  - vm_compute. reflexivity.
  - change (missing_key (selected_models keyless)) with (Some "provider") in H2.
    destruct H2 as [-> H2].
    exists st', news. split; [exact H1|]. split; [exact H2|].
    split; [exact H3|].
    etransitivity; [exact H4|]. vm_compute. discriminate.
Defined.

(** ** Routes of the generation service *)

(** X16. The background task of the sweep never raises: it returns
    whether or not the experiment exists, and whether or not the sweep
    raised. For an experiment that does not exist it leaves the state as
    it is; for one that exists it leaves the status "evaluating" when
    every entry of [selected_models] has its two keys, and "generating"
    when the sweep stopped at a missing key. *)
Theorem background_sweep_never_raises MODELS PRICING client envs eid st :
  exists st',
    run_all_generations MODELS PRICING client envs eid st = (inr tt, st') /\
    (query_experiment st eid = None -> st' = st) /\
    (forall e, query_experiment st eid = Some e ->
               status_of st' eid =
               Some (match missing_key (selected_models e) with
                     | None => "evaluating"
                     | Some _ => "generating"
                     end)).
Proof.
  unfold run_all_generations, try_except, bind, ret.
  destruct (query_experiment st eid) as [e|] eqn:He.
  - destruct (generate_all_effect MODELS PRICING client envs eid st e He)
      as (loc & st1 & news & _ & -> & _ & _ & _ & _ & _ & _ & Hx).
    assert (Hst : forall new st2,
              experiments st2 = set_status eid new (experiments st) ->
              status_of st2 eid = Some new).
    { intros new st2 H2. unfold status_of, query_experiment in He |- *.
      rewrite H2, find_set_status, He. cbn [option_map].
      now rewrite Z.eqb_refl. }
    destruct (missing_key (selected_models e)) as [key|] eqn:Hkey;
      eexists; (split; [reflexivity|]); (split; [discriminate|]);
      intros e' [= <-]; rewrite Hkey; now apply Hst.
  - unfold generate_all_for_experiment, bind, get, raise. rewrite He.
    eexists. split; [reflexivity|]. split; [reflexivity|discriminate].
Qed.

Lemma generate_single_raises MODELS PRICING self env eid tid provider model
    strategy st e st' :
  generate_single MODELS PRICING self env eid tid provider model strategy st
    = (inl e, st') ->
  st' = st /\
  (query_experiment st eid = None \/ query_task st tid = None \/
   MODELS !! provider = None).
Proof.
  unfold generate_single; unfold_m.
  destruct (query_experiment st eid); [|intros [= <- <-]; auto].
  destruct (query_task st tid); [|intros [= <- <-]; auto].
  destruct (MODELS !! provider) as [params|]; [|intros [= <- <-]; auto].
  match goal with |- context [generate ?a ?b ?c ?d ?e ?f ?g (Some ?h) ?s] =>
    destruct (generate_returns a b c d e f g h s) as (r & -> & _) end.
  discriminate.
Qed.

(** X17. The single-generation route stores a Generation exactly when
    the strategy is one of the two, the experiment exists, the task is in
    the catalog and the provider is configured: a failing provider call
    does not make it fail. Otherwise it answers with status 500 and
    changes nothing. *)
Theorem single_generation_route MODELS PRICING client str env eid tid provider
    model strategy st :
  let outcome :=
    generate_single_route MODELS PRICING client str env eid tid provider model
      strategy st in
  ((exists g, fst outcome = inr g) <->
   (strategy = "structured" \/ strategy = "example_based") /\
   (exists e, query_experiment st eid = Some e) /\
   (exists task, query_task st tid = Some task) /\
   is_Some (MODELS !! provider)) /\
  (forall g, fst outcome = inr g ->
     generations (snd outcome) = generations st ++ [g] /\
     g_experiment_id g = eid /\ g_task_id g = tid /\
     model_provider g = provider /\ model_name g = model /\
     strategy_value (prompt_strategy g) = strategy) /\
  (forall e, fst outcome = inl e ->
     (exists cause, e = HTTPException 500 (str cause)) /\ snd outcome = st).
Proof.
  cbv zeta. unfold generate_single_route, try_except, bind, raise.
  destruct (PromptStrategy_of_effect strategy st) as (r & Hr & Hps).
  rewrite Hr. destruct r as [ex|ps]; cbn [fst snd].
  { split; [|split].
    - split; [intros [g H]; discriminate|].
      intros ([-> | ->] & _); discriminate.
    - discriminate.
    - intros e [= <-]. eauto. }
  destruct (generate_single_effect MODELS PRICING client env eid tid provider
              model ps st) as (r & st' & Hrun & _ & Hgen & Hsucc).
  rewrite Hrun. destruct r as [ex|g]; cbn [fst snd].
  - apply generate_single_raises in Hrun as [-> Hwhy].
    split; [|split].
    + split; [intros [g H]; discriminate|].
      intros (_ & (e & He) & (task & Ht) & [params Hm]).
      destruct Hwhy as [H|[H|H]]; congruence.
    + discriminate.
    + intros e [= <-]. eauto.
  - pose proof Hrun as Hst. apply generate_single_stored in Hst as (_ & A & B & C).
    destruct Hgen as (Hg & G1 & G2 & G3 & G4 & G5).
    split; [|split].
    + split; [intros _|eauto]. split; [|auto].
      rewrite <- Hps. destruct ps; auto.
    + intros g' [= <-]. rewrite G5. repeat split; assumption.
    + discriminate.
Qed.

Lemma single_generation_route_witness :
  exists g,
    fst (generate_single_route demo_models demo_pricing demo_client
           (fun _ => "error") timing_out 1 "A" "openai" "gpt-4" "example_based"
           st_one_generation) = inr g.
Proof.
  apply (proj2 (proj1 (single_generation_route demo_models demo_pricing
                         demo_client (fun _ => "error") timing_out 1 "A"
                         "openai" "gpt-4" "example_based" st_one_generation))).
  split; [now right|]. split; [|split].
  - eexists. vm_compute. reflexivity.
  - eexists. vm_compute. reflexivity.
  - eexists. vm_compute. reflexivity.
Defined.

Lemma background_sweep_never_raises_witness :
  exists st',
    run_all_generations demo_models demo_pricing demo_client
      (fun _ => answering) 1 st_keyless = (inr tt, st') /\
    status_of st' 1 = Some "generating".
Proof.
  destruct (background_sweep_never_raises demo_models demo_pricing demo_client
              (fun _ => answering) 1 st_keyless)
    as (st' & H1 & _ & H2).
  exists st'. split; [exact H1|]. apply (H2 keyless). vm_compute. reflexivity.
Defined.

(** ** Generation progress *)

Lemma generations_of_app st st' eid g :
  generations st' = generations st ++ [g] ->
  generations_of st' eid =
  generations_of st eid ++ (if g_experiment_id g =? eid then [g] else []).
Proof.
  unfold generations_of. intros ->. rewrite List.filter_app. reflexivity.
Qed.

(** X18. Each single generation that returns moves the progress of its
    experiment by one: completed grows by one, total stays, and failed
    grows by one exactly when the stored content is empty, which is the
    case whenever the provider call failed. Failed never exceeds
    completed. *)
Theorem progress_counts_each_generation MODELS PRICING self env eid tid
    provider model strategy st g st' :
  generate_single MODELS PRICING self env eid tid provider model strategy st
    = (inr g, st') ->
  exists p p',
    get_generation_progress st eid = Some p /\
    get_generation_progress st' eid = Some p' /\
    gp_total p' = gp_total p /\
    gp_completed p' = gp_completed p + 1 /\
    gp_failed p' =
      gp_failed p + (if String.eqb (generated_content g) "" then 1 else 0) /\
    0 <= gp_failed p' <= gp_completed p' /\
    (provider_call_fails MODELS PRICING self env provider model (prompt_used g) ->
     gp_failed p' = gp_failed p + 1).
Proof.
  intros Hrun.
  destruct (generate_single_effect MODELS PRICING self env eid tid provider
              model strategy st) as (r & st1 & Hrun' & (F1 & _) & Hgen & Hsucc).
  rewrite Hrun in Hrun'. injection Hrun' as <- <-.
  destruct Hgen as (Hg & Hexp & _).
  pose proof Hrun as Hst.
  apply generate_single_stored in Hst
    as (_ & (e & He) & (task & Ht) & [params Hm]).
  destruct (Hsucc e task params He Ht Hm) as (g' & [= <-] & _ & _ & Hres).
  unfold get_generation_progress, query_experiment in *. rewrite F1, He.
  do 2 eexists. split; [reflexivity|]. split; [reflexivity|]. simpl.
  fold (generations_of st eid).
  change (List.filter (fun g0 => g_experiment_id g0 =? eid) (generations st'))
    with (generations_of st' eid).
  rewrite (generations_of_app st st' eid g Hg), Hexp, Z.eqb_refl.
  rewrite List.filter_app. unfold count. rewrite !List.length_app. simpl.
  split; [reflexivity|]. split; [lia|].
  assert (Hf : (List.length
                  (List.filter (fun g0 => String.eqb (generated_content g0) "")
                     (generations_of st eid)) <=
                List.length (generations_of st eid))%nat)
    by apply List.filter_length_le.
  split; [destruct (String.eqb (generated_content g) ""); simpl; lia|].
  split; [destruct (String.eqb (generated_content g) ""); simpl; lia|].
  intros Hfail. destruct (Hfail params Hm) as (msg & Hmsg).
  rewrite Hmsg in Hres. destruct Hres as (-> & _). simpl. lia.
Qed.

Lemma progress_counts_each_generation_witness :
  exists p p',
    get_generation_progress st_one_generation 1 = Some p /\
    get_generation_progress
      (snd (generate_single demo_models demo_pricing demo_client timing_out 1
              "A" "openai" "gpt-4" STRUCTURED st_one_generation)) 1 = Some p' /\
    gp_failed p' = gp_failed p + 1.
Proof.
  destruct (generate_single demo_models demo_pricing demo_client timing_out 1
              "A" "openai" "gpt-4" STRUCTURED st_one_generation)
    as [[ex|g] st'] eqn:Hrun; [vm_compute in Hrun; discriminate|].
  destruct (progress_counts_each_generation _ _ _ _ _ _ _ _ _ _ _ _ Hrun)
    as (p & p' & H1 & H2 & _ & _ & _ & _ & H3).
  exists p, p'. split; [exact H1|]. split; [exact H2|]. apply H3.
  apply provider_failures. left. split; [left; reflexivity|].
  intros params. eexists. reflexivity.
Defined.

(** ** The cost of a call *)

Lemma round_half_even_lower x a :
  (inject_Z a <= x)%Q -> a <= round_half_even x.
Proof.
  intros Ha. unfold round_half_even.
  assert (a <= Qfloor x) as Hfa
    by (rewrite <- (Qfloor_Z a); now apply Qfloor_resp_le).
  destruct (Qcompare _ _); [destruct (Z.even _)| |]; lia.
Qed.

Lemma round_ndigits_nonneg x n : (0 <= x)%Q -> (0 <= round_ndigits x n)%Q.
Proof.
  intros Hx. unfold round_ndigits.
  assert (Hp : 0 < 10 ^ Z.of_nat n) by (apply Z.pow_pos_nonneg; lia).
  assert (Hq : (0 < inject_Z (10 ^ Z.of_nat n))%Q) by (unfold Qlt; simpl; lia).
  apply Qle_shift_div_l; [exact Hq|]. rewrite Qmult_0_l.
  assert (0 <= round_half_even (x * inject_Z (10 ^ Z.of_nat n))) as H.
  { apply round_half_even_lower. change (inject_Z 0) with 0%Q.
    apply Qmult_le_0_compat; [exact Hx|]. now apply Qlt_le_weak. }
  unfold Qle; simpl; lia.
Qed.

(** X19. The cost of a call is never an error and never negative: a
    provider or a model without an entry in the price table costs 0, and
    with non-negative prices and token counts the cost is not negative. *)
Theorem cost_is_total_and_not_negative PRICING provider model pt ct :
  (PRICING !! provider = None ->
   _calculate_cost PRICING provider model pt ct = 0%Q) /\
  (forall by_model, PRICING !! provider = Some by_model ->
     by_model !! model = None ->
     _calculate_cost PRICING provider model pt ct = 0%Q) /\
  (forall by_model pricing,
     PRICING !! provider = Some by_model -> by_model !! model = Some pricing ->
     0 <= pt -> 0 <= ct ->
     (0 <= price_input pricing)%Q -> (0 <= price_output pricing)%Q ->
     (0 <= _calculate_cost PRICING provider model pt ct)%Q).
Proof.
  unfold _calculate_cost. split; [|split].
  - now intros ->.
  - now intros by_model -> ->.
  - intros by_model pricing -> -> Hpt Hct Hi Ho.
    apply round_ndigits_nonneg.
    assert (forall n, 0 <= n -> (0 <= inject_Z n / 1000)%Q) as Hdiv.
    { intros n Hn. apply Qle_shift_div_l; [reflexivity|].
      rewrite Qmult_0_l. unfold Qle; simpl; lia. }
    rewrite <- (Qplus_0_l 0).
    apply Qplus_le_compat; apply Qmult_le_0_compat; auto.
Qed.

Lemma cost_is_total_and_not_negative_witness :
  (0 <= _calculate_cost
          {[ "openai" := {[ "gpt-4" := {| price_input := 1 # 100;
                                          price_output := 3 # 100 |} ]} ]}
          "openai" "gpt-4" 1000 500)%Q.
Proof.
  refine (proj2 (proj2 (cost_is_total_and_not_negative _ "openai" "gpt-4"
                          1000 500)) _ _ _ _ _ _ _ _);
    try (vm_compute; reflexivity); try lia; discriminate.
Defined.

(** ** Filling the template *)

Lemma app_cons (x : ascii) (a b : string) :
  (String x a +:+ b)%string = String x (a +:+ b).
Proof. reflexivity. Qed.

Lemma app_empty_l (b : string) : ("" +:+ b)%string = b.
Proof. reflexivity. Qed.

Lemma app_empty_r (a : string) : (a +:+ "")%string = a.
Proof.
  induction a as [|x a IH]; [reflexivity|]. now rewrite app_cons, IH.
Qed.

Lemma string_app_assoc (a b c : string) :
  ((a +:+ b) +:+ c = a +:+ (b +:+ c))%string.
Proof.
  induction a as [|x a IH]; [reflexivity|]. now rewrite !app_cons, IH.
Qed.

Lemma brace_free_app a b :
  brace_free (a +:+ b) = brace_free a && brace_free b.
Proof.
  unfold brace_free. induction a as [|x a IH]; [reflexivity|].
  rewrite app_cons. cbn [list_ascii_of_string List.forallb].
  now rewrite IH, andb_assoc.
Qed.

Lemma replace_skips_brace_free o new s t :
  brace_free s = true ->
  str_replace_from (String "{" o) new (s +:+ t) 0 =
  (s +:+ str_replace_from (String "{" o) new t 0)%string.
Proof.
  unfold brace_free. induction s as [|c s IH]; [reflexivity|].
  cbn [list_ascii_of_string List.forallb]. intros H.
  apply andb_true_iff in H as [Hc Hs].
  rewrite !app_cons. cbn [str_replace_from String.prefix].
  destruct (Ascii.ascii_dec "{" c) as [<-|Hne]; [discriminate|].
  now rewrite IH.
Qed.

Lemma replace_brace_free o new s :
  brace_free s = true -> str_replace_from (String "{" o) new s 0 = s.
Proof.
  intros H. pose proof (replace_skips_brace_free o new s "" H) as E.
  now rewrite !app_empty_r in E.
Qed.

Lemma replace_drops_match old new u t :
  str_replace_from old new (u +:+ t) (String.length u) =
  str_replace_from old new t 0.
Proof.
  induction u as [|c u IH]; [rewrite app_empty_l; now destruct t|].
  rewrite app_cons. exact IH.
Qed.

Lemma prefix_app (a b : string) : String.prefix a (a +:+ b) = true.
Proof.
  induction a as [|c a IH]; [now destruct b|].
  rewrite app_cons. cbn [String.prefix].
  destruct (Ascii.ascii_dec c c); [exact IH|contradiction].
Qed.

Lemma replace_at_match c o new t :
  str_replace_from (String c o) new (String c o +:+ t) 0 =
  (new +:+ str_replace_from (String c o) new t 0)%string.
Proof.
  rewrite app_cons. cbn [str_replace_from]. rewrite <- app_cons.
  rewrite prefix_app.
  replace (String.length (String c o) - 1)%nat with (String.length o)
    by (cbn [String.length]; lia).
  now rewrite replace_drops_match.
Qed.

Lemma replace_no_match old new c s :
  String.prefix old (String c s) = false ->
  str_replace_from old new (String c s) 0 =
  String c (str_replace_from old new s 0).
Proof. intros H. cbn [str_replace_from]. now rewrite H. Qed.

(** X20. For a template made of a text, [{sample1}], a text, [{sample2}]
    and a text, the three texts without opening brace, the example-based
    prompt built with a first sample without opening brace is the three
    texts with the two samples in between; an empty pool leaves the three
    texts, a pool of one sample puts it in both places. *)
Theorem template_is_filled task pre mid post :
  example_prompt_template task =
    (pre +:+ "{sample1}" +:+ mid +:+ "{sample2}" +:+ post)%string ->
  brace_free pre = true -> brace_free mid = true -> brace_free post = true ->
  (forall s1 s2, brace_free s1 = true ->
     filled task s1 s2 = (pre +:+ s1 +:+ mid +:+ s2 +:+ post)%string) /\
  (forall r1 r2,
     prepare_prompt task EXAMPLE_BASED [] r1 r2 = (pre +:+ mid +:+ post)%string) /\
  (forall a r1 r2, brace_free a = true ->
     prepare_prompt task EXAMPLE_BASED [a] r1 r2 =
     (pre +:+ a +:+ mid +:+ a +:+ post)%string).
Proof.
  intros Htpl Hpre Hmid Hpost.
  assert (Hfill : forall s1 s2, brace_free s1 = true ->
            filled task s1 s2 = (pre +:+ s1 +:+ mid +:+ s2 +:+ post)%string).
  { intros s1 s2 Hs1. unfold filled, str_replace. rewrite Htpl.
    rewrite (replace_skips_brace_free _ s1 pre _ Hpre).
    rewrite (replace_at_match "{" "sample1}" s1).
    rewrite (replace_skips_brace_free _ s1 mid _ Hmid).
    assert (str_replace_from "{sample1}" s1 ("{sample2}" +:+ post) 0 =
            ("{sample2}" +:+ post)%string) as ->.
    { change ("{sample2}" +:+ post)%string
        with (String "{" ("sample2}" +:+ post)).
      rewrite replace_no_match by reflexivity. f_equal.
      rewrite (replace_skips_brace_free "sample1}" s1 "sample2}" post eq_refl).
      now rewrite (replace_brace_free _ _ post Hpost). }
    replace (pre +:+ s1 +:+ mid +:+ "{sample2}" +:+ post)%string
      with ((pre +:+ s1 +:+ mid) +:+ "{sample2}" +:+ post)%string
      by (now rewrite !string_app_assoc).
    rewrite (replace_skips_brace_free "sample2}" s2 (pre +:+ s1 +:+ mid)).
    2:{ rewrite !brace_free_app, Hpre, Hs1, Hmid. reflexivity. }
    rewrite (replace_at_match "{" "sample2}" s2).
    rewrite (replace_brace_free _ _ post Hpost).
    now rewrite !string_app_assoc. }
  split; [exact Hfill|]. split.
  - intros r1 r2. change (prepare_prompt task EXAMPLE_BASED [] r1 r2)
      with (filled task "" ""). now rewrite Hfill.
  - intros a r1 r2 Ha. change (prepare_prompt task EXAMPLE_BASED [a] r1 r2)
      with (filled task a a). now apply Hfill.
Qed.

Lemma template_is_filled_witness :
  prepare_prompt demo_task EXAMPLE_BASED ["my voice"] 0 0 =
  "In the voice of my voice and my voice.".
Proof.
  exact (proj2 (proj2 (template_is_filled demo_task "In the voice of " " and "
                         "." eq_refl eq_refl eq_refl eq_refl))
           "my voice" 0%nat 0%nat eq_refl).
Defined.

(** ** Creating an experiment *)

(** X21. Creating an experiment stores it exactly when every selected
    task is in the catalog; the stored experiment then has the requested
    lists, status "setup" and an identifier no experiment had, so that it
    is the one found under this identifier. Otherwise the route answers
    with status 400 and stores nothing. *)
Theorem experiment_creation ec st :
  ((exists e st', create_experiment ec st = (inr e, st')) <->
   forall t, In t (ec_selected_tasks ec) ->
             exists task, query_task st t = Some task) /\
  (forall e st', create_experiment ec st = (inr e, st') ->
     experiments st' = experiments st ++ [e] /\
     status e = "setup" /\
     selected_models e = ec_selected_models ec /\
     selected_strategies e = ec_selected_strategies ec /\
     selected_tasks e = ec_selected_tasks ec /\
     baseline_samples e = ec_baseline_samples ec /\
     query_experiment st (e_id e) = None /\
     query_experiment st' (e_id e) = Some e /\
     generations st' = generations st /\ evaluations st' = evaluations st) /\
  (forall x st', create_experiment ec st = (inl x, st') ->
     x = HTTPException 400 "Task not found" /\ st' = st).
Proof.
  unfold create_experiment; unfold_m.
  destruct (List.find _ (ec_selected_tasks ec)) as [t|] eqn:Hf.
  - apply List.find_some in Hf as [Hin Hmiss].
    split; [|split].
    + split; [intros (e & st' & H); discriminate|].
      intros H. destruct (H t Hin) as (task & Ht). rewrite Ht in Hmiss.
      discriminate.
    + discriminate.
    + intros x st' [= <- <-]. auto.
  - split; [|split].
    + split; [intros _|eauto].
      intros t Hin. rewrite find_none_iff in Hf. specialize (Hf t Hin).
      simpl in Hf. destruct (query_task st t); [eauto|discriminate].
    + intros e st' [= <- <-]. simpl.
      assert (Hnone : query_experiment st
                        (next_id (List.map e_id (experiments st))) = None).
      { unfold query_experiment. apply find_none_iff. intros x Hin.
        apply Z.eqb_neq.
        destruct (next_id_fresh (List.map e_id (experiments st))) as [_ Hfr].
        specialize (Hfr (e_id x) (List.in_map e_id _ _ Hin)). lia. }
      repeat split; auto.
      unfold query_experiment in *. simpl. rewrite find_app_one, Hnone. simpl.
      now rewrite Z.eqb_refl.
    + discriminate.
Qed.

Lemma experiment_creation_witness :
  exists e st',
    create_experiment two_models_create st_one_generation = (inr e, st').
Proof.
  apply (proj2 (proj1 (experiment_creation two_models_create
                         st_one_generation))).
  intros t [<-|[]]. eexists. vm_compute. reflexivity.
Defined.

(** ** Progress after a first sweep *)

Lemma round_ndigits_hundred m :
  0 < m -> (round_ndigits (inject_Z m / inject_Z m * 100) 1 == 100)%Q.
Proof.
  intros Hm. unfold round_ndigits. change (10 ^ Z.of_nat 1) with 10.
  assert (Hm' : ~ (inject_Z m == 0)%Q) by (unfold Qeq; simpl; lia).
  assert (Hx : (inject_Z m / inject_Z m * 100 * inject_Z 10 == inject_Z 1000)%Q).
  { change (inject_Z 10) with 10%Q. change (inject_Z 1000) with 1000%Q.
    field. exact Hm'. }
  assert (H1 : (inject_Z 1000 <= inject_Z m / inject_Z m * 100 * inject_Z 10)%Q)
    by (rewrite Hx; apply Qle_refl).
  assert (H2 : (inject_Z m / inject_Z m * 100 * inject_Z 10 <= inject_Z 1000)%Q)
    by (rewrite Hx; apply Qle_refl).
  pose proof (round_half_even_bounds _ 1000 1000 H1 H2) as H.
  replace (round_half_even (inject_Z m / inject_Z m * 100 * inject_Z 10))
    with 1000 by lia.
  reflexivity.
Qed.

Lemma not_stored_when_none st eid c :
  generations_of st eid = [] -> combination_stored st eid c = false.
Proof.
  intros Hnil. destruct c as [[mc s] t].
  unfold combination_stored, existing_generation.
  destruct (List.find _ (generations st)) as [g|] eqn:Hf; [|reflexivity].
  apply List.find_some in Hf as [Hin Hg].
  unfold same_combination in Hg. rewrite !andb_true_iff in Hg.
  destruct Hg as (((He & _) & _) & _).
  assert (In g (generations_of st eid)) as H
    by (apply List.filter_In; auto).
  rewrite Hnil in H. destruct H.
Qed.

Lemma filter_all {A} (p : A -> bool) l :
  (forall x, In x l -> p x = true) -> List.filter p l = l.
Proof.
  induction l as [|a l IH]; simpl; intros H; [reflexivity|].
  rewrite (H a (or_introl eq_refl)), IH; auto.
Qed.

(** X22. The first sweep of an experiment without Generations, whose
    combinations have pairwise different keys and can each be attempted
    (its strategy is one of the two, its task is in the catalog, its
    entry of [selected_models] has the two keys, its provider is
    configured), brings its progress to the end: completed equals total,
    which is the number of combinations, nothing is in progress, the
    status is "evaluating", and for a non-empty experiment the percentage
    is 100, also when provider calls failed. *)
Theorem first_sweep_completes_progress MODELS PRICING self envs st e :
  query_experiment st (e_id e) = Some e ->
  List.NoDup (List.map combination_key (combinations e)) ->
  attemptable MODELS st e ->
  generations_of st (e_id e) = [] ->
  exists loc st' p,
    generate_all_for_experiment MODELS PRICING self envs (e_id e) st
      = (inr loc, st') /\
    get_generation_progress st' (e_id e) = Some p /\
    gp_total p = total_combinations e /\
    gp_completed p = gp_total p /\
    gp_in_progress p = 0 /\
    gp_status p = "evaluating" /\
    (0 < total_combinations e -> (gp_percentage p == 100)%Q).
Proof.
  intros He Hnd Hok Hnone.
  pose proof (attemptable_missing_key MODELS st e Hok) as Hkeyed.
  destruct (generate_all_effect MODELS PRICING self envs (e_id e) st e He)
    as (loc & st1 & news & Hloop & Hall & Hg & _).
  rewrite Hkeyed in Hall.
  set (st0 := with_experiments st
                (set_status (e_id e) "generating" (experiments st))) in *.
  destruct (query_set_status st (e_id e) "generating" e He) as (e0 & He0 & _).
  destruct (sweep_loop_creates MODELS PRICING self envs (e_id e)
              (total_combinations e) (combinations e) Hnd 0%nat
              {| sw_generations := []; sw_completed := 0; sw_progress := [] |}
              st0)
    as (loc' & st1' & news' & Hloop' & Hg' & Hlen & Hkeys).
  { exists e0. exact He0. }
  { intros c Hin.
    destruct (attemptable_combinations MODELS st e c Hok Hin) as (A & B & C).
    repeat split; assumption. }
  rewrite Hloop in Hloop'. injection Hloop' as <- <-.
  change (generations st0) with (generations st) in Hg'.
  rewrite Hg in Hg'. apply List.app_inv_head in Hg'. subst news'.
  rewrite filter_all in Hlen.
  2:{ intros c _. apply negb_true_iff. now apply not_stored_when_none. }
  assert (Hnews : List.filter (fun g => g_experiment_id g =? e_id e) news = news).
  { apply filter_all. intros g Hin.
    destruct (Hkeys g Hin) as ([[mc s] t] & _ & _ & Hof).
    unfold of_combination, same_combination in Hof.
    rewrite !andb_true_iff in Hof. tauto. }
  destruct (query_set_status st (e_id e) "evaluating" e He)
    as (e1 & He1 & _ & B2 & B3 & B4 & _).
  assert (Hs1 : status e1 = "evaluating").
  { pose proof (find_set_status (e_id e) "evaluating" (experiments st) (e_id e))
      as Hs. unfold query_experiment in He, He1. cbn [experiments with_experiments]
      in He1. rewrite He1, He in Hs. simpl in Hs. rewrite Z.eqb_refl in Hs.
    now injection Hs. }
  exists loc. do 2 eexists. split; [exact Hall|].
  unfold get_generation_progress.
  replace (query_experiment _ (e_id e)) with (Some e1) by (symmetry; exact He1).
  split; [reflexivity|]. cbn [gp_total gp_completed gp_in_progress gp_status
                               gp_percentage].
  assert (Htot : total_combinations e1 = total_combinations e)
    by (unfold total_combinations; now rewrite B2, B3, B4).
  assert (Hcount : count (generations_of
                            (with_experiments st1
                               (set_status (e_id e) "evaluating" (experiments st)))
                            (e_id e)) = total_combinations e).
  { unfold generations_of in *. cbn [generations with_experiments].
    rewrite Hg, List.filter_app, Hnone, Hnews. simpl.
    unfold count. rewrite Hlen. now apply combinations_length. }
  rewrite Hcount, Htot, Hs1. repeat split.
  intros Hpos. destruct (Z.ltb_spec 0 (total_combinations e)); [|lia].
  now apply round_ndigits_hundred.
Qed.

Lemma first_sweep_completes_progress_witness :
  exists loc st' p,
    generate_all_for_experiment demo_models demo_pricing demo_client
      (fun _ => timing_out) 1
      (demo_exec_all [CreateExperiment two_strategies_create]
         (initial_state [demo_task])) = (inr loc, st') /\
    get_generation_progress st' 1 = Some p /\
    gp_completed p = 2.
Proof.
  destruct (first_sweep_completes_progress demo_models demo_pricing demo_client
              (fun _ => timing_out)
              (demo_exec_all [CreateExperiment two_strategies_create]
                 (initial_state [demo_task]))
              two_strategies)
    as (loc & st' & p & H1 & H2 & H3 & H4 & _).
  - vm_compute. reflexivity.
  - repeat constructor; simpl; intuition discriminate.
  - split; [|split].
    + intros s [<-|[<-|[]]]; auto.
    + intros t [<-|[]]. eexists. vm_compute. reflexivity.
    + intros mc [<-|[]]. exists "openai", "gpt-4". eexists.
      repeat split; vm_compute; reflexivity.
  - reflexivity.
  - exists loc, st', p. split; [exact H1|]. split; [exact H2|].
    rewrite H4, H3. reflexivity.
Defined.

(** ** Strategies as strings *)



(** ** The adapter *)

(** X24. With parameters given, [LLMClient.generate] never raises and
    never touches the store. Without an OpenAI or Anthropic client it
    fails without calling the SDK: the result does not depend on what the
    SDK would answer. For Google the token counts are the lengths of the
    prompt and of the text divided by 4, whatever usage the SDK reports.
    An error in the metadata comes with no content, zero tokens and zero
    cost. *)
Theorem adapter_outcomes MODELS PRICING self env provider model prompt params st :
  (exists r,
     generate MODELS PRICING self env provider model prompt (Some params) st
       = (inr r, st) /\
     (md_error (snd r) <> None ->
      fst r = None /\ md_prompt_tokens (snd r) = 0 /\
      md_completion_tokens (snd r) = 0 /\ md_cost_usd (snd r) = 0%Q)) /\
  ((provider = "openai" /\ openai_client self = false \/
    provider = "anthropic" /\ anthropic_client self = false) ->
   forall env',
     elapsed_ms env' = elapsed_ms env ->
     generate MODELS PRICING self env' provider model prompt (Some params) st =
     generate MODELS PRICING self env provider model prompt (Some params) st) /\
  (provider = "google" ->
   forall text pt ct,
     sdk_call env provider model prompt params = SdkResponse (Some text) pt ct ->
     exists md,
       generate MODELS PRICING self env provider model prompt (Some params) st
         = (inr (Some text, md), st) /\
       md_error md = None /\
       md_prompt_tokens md = Z.of_nat (String.length prompt) / 4 /\
       md_completion_tokens md = Z.of_nat (String.length text) / 4).
Proof.
  split; [|split].
  - destruct (generate_returns MODELS PRICING self env provider model prompt
                params st) as (r & Hrun & Hr).
    exists r. split; [exact Hrun|].
    destruct (generate_try _ _ _ _ _ _ _) as [msg|[text md]] eqn:Ht.
    + subst r. simpl. auto.
    + subst r. simpl. intros Herr. exfalso. apply Herr.
      unfold generate_try in Ht.
      repeat match type of Ht with
             | (if ?b then _ else _) = _ => destruct b
             | match ?x with _ => _ end = _ => destruct x
             end; try discriminate; injection Ht as _ <-; reflexivity.
  - intros Hmissing env' Hel. unfold generate, generate_try.
    destruct Hmissing as [[-> Hk]|[-> Hk]]; simpl; rewrite Hk, Hel; reflexivity.
  - intros -> text pt ct Hsdk. unfold generate, generate_try. simpl.
    rewrite Hsdk. eexists. split; [reflexivity|]. simpl. auto.
Qed.

Lemma adapter_outcomes_witness :
  generate demo_models demo_pricing demo_client
    {| draw1 := 0; draw2 := 0; sdk_call := sdk_call answering;
       elapsed_ms := elapsed_ms timing_out |}
    "anthropic" "claude-3-opus" "Hi"
    (Some {| temperature := 1; max_tokens := 10 |}) st_complete =
  generate demo_models demo_pricing demo_client timing_out
    "anthropic" "claude-3-opus" "Hi"
    (Some {| temperature := 1; max_tokens := 10 |}) st_complete.
Proof.
  exact (proj1 (proj2 (adapter_outcomes demo_models demo_pricing demo_client
                         timing_out "anthropic" "claude-3-opus" "Hi"
                         {| temperature := 1; max_tokens := 10 |} st_complete))
           (or_intror (conj eq_refl eq_refl))
           {| draw1 := 0; draw2 := 0; sdk_call := sdk_call answering;
              elapsed_ms := elapsed_ms timing_out |} eq_refl).
Defined.

(** ** Analysis by strategy *)

Lemma round_ndigits_bounds x n a b :
  (inject_Z a <= x)%Q -> (x <= inject_Z b)%Q ->
  (inject_Z a <= round_ndigits x n)%Q /\ (round_ndigits x n <= inject_Z b)%Q.
Proof.
  intros Ha Hb. unfold round_ndigits.
  set (p := 10 ^ Z.of_nat n).
  assert (Hp : 0 < p) by (apply Z.pow_pos_nonneg; lia).
  assert (Hq : (0 < inject_Z p)%Q) by (unfold Qlt; simpl; lia).
  destruct (round_half_even_bounds (x * inject_Z p) (a * p) (b * p)) as [H0 H1].
  - rewrite inject_Z_mult. apply Qmult_le_compat_r; [exact Ha|].
    now apply Qlt_le_weak.
  - rewrite inject_Z_mult. apply Qmult_le_compat_r; [exact Hb|].
    now apply Qlt_le_weak.
  - split.
    + apply Qle_shift_div_l; [exact Hq|].
      rewrite <- inject_Z_mult. now rewrite <- Zle_Qle.
    + apply Qle_shift_div_r; [exact Hq|].
      rewrite <- inject_Z_mult. now rewrite <- Zle_Qle.
Qed.

Lemma sum_of_bounds f lo hi l :
  (forall ev, In ev l -> lo <= f ev <= hi) ->
  lo * count l <= sum_of f l <= hi * count l.
Proof.
  unfold count. induction l as [|a l IH]; simpl; intros H; [lia|].
  assert (lo <= f a <= hi) by (apply H; now left).
  assert (lo * Z.of_nat (List.length l) <= sum_of f l
          <= hi * Z.of_nat (List.length l)) by (apply IH; intros; apply H; now right).
  lia.
Qed.

Lemma average_bounds f lo hi l :
  l <> [] ->
  (forall ev, In ev l -> lo <= f ev <= hi) ->
  (inject_Z lo <= average f l)%Q /\ (average f l <= inject_Z hi)%Q.
Proof.
  intros Hne H. unfold average.
  assert (0 < count l) as Hn
    by (unfold count; destruct l; [contradiction|simpl; lia]).
  assert (Hq : (0 < inject_Z (count l))%Q) by (unfold Qlt; simpl; lia).
  destruct (sum_of_bounds f lo hi l H) as [H0 H1]. split.
  - apply Qle_shift_div_l; [exact Hq|].
    rewrite <- inject_Z_mult. now rewrite <- Zle_Qle.
  - apply Qle_shift_div_r; [exact Hq|].
    rewrite <- inject_Z_mult. now rewrite <- Zle_Qle.
Qed.

Lemma analyze_strategy_count st eid s :
  match analyze_strategy st eid s with
  | Some row =>
      sa_strategy row = strategy_value s /\
      1 <= sa_evaluation_count row /\
      sa_evaluation_count row =
        count (joined_evaluations st
                 (fun g => (g_experiment_id g =? eid)
                           && strategy_eqb (prompt_strategy g) s))
  | None =>
      count (joined_evaluations st
               (fun g => (g_experiment_id g =? eid)
                         && strategy_eqb (prompt_strategy g) s)) = 0
  end.
Proof.
  unfold analyze_strategy.
  destruct (joined_evaluations st _) as [|ev l]; [reflexivity|].
  cbn [sa_strategy sa_evaluation_count]. unfold count. simpl List.length.
  repeat split. lia.
Qed.

Lemma filter_split_length {A} (p p1 p2 : A -> bool) l :
  (forall x, In x l -> p x = xorb (p1 x) (p2 x) /\ (p1 x && p2 x = false)) ->
  count (List.filter p1 l) + count (List.filter p2 l) = count (List.filter p l).
Proof.
  unfold count. induction l as [|a l IH]; simpl; intros H; [reflexivity|].
  destruct (H a (or_introl eq_refl)) as [Hp Hex].
  assert (Hl : forall x, In x l ->
                 p x = xorb (p1 x) (p2 x) /\ (p1 x && p2 x = false))
    by (intros; apply H; now right).
  specialize (IH Hl). rewrite Hp.
  destruct (p1 a), (p2 a); simpl in *; try discriminate; lia.
Qed.

(** X25. The analysis by strategy has at most one row per strategy,
    "structured" before "example_based", and only for strategies with at
    least one Evaluation. In every state the system reaches its rows
    account for each Evaluation of the experiment exactly once: their
    evaluation counts add up to the number of Evaluations that the
    evaluation progress reports as completed. *)
Theorem strategy_analysis_accounts MODELS PRICING client catalog st eid :
  reachable MODELS PRICING client catalog st ->
  let rows := analyze_by_strategy st eid in
  In (List.map sa_strategy rows)
    [ []; ["structured"]; ["example_based"]; ["structured"; "example_based"] ] /\
  List.Forall (fun row => 1 <= sa_evaluation_count row) rows /\
  List.fold_right Z.add 0 (List.map sa_evaluation_count rows)
    = count (evaluations_of st eid).
Proof.
  intros Hreach. cbv zeta.
  destruct (reachable_well_formed _ _ _ _ _ Hreach) as (Hnd & _ & _).
  destruct (evaluations_backed_reachable _ _ _ _ _ Hreach) as (_ & Hback).
  assert (Hjoin : evaluations_of st eid =
                  joined_evaluations st (fun g => g_experiment_id g =? eid)).
  { unfold evaluations_of, joined_evaluations. apply List.filter_ext_in.
    intros ev Hin. destruct (Hback ev Hin) as (g & Hg & Hid & Hexp).
    unfold query_generation. rewrite <- Hid.
    rewrite (find_by_id_unique _ g Hnd Hg). now rewrite Hexp. }
  assert (Hsplit :
    count (joined_evaluations st
             (fun g => (g_experiment_id g =? eid)
                       && strategy_eqb (prompt_strategy g) STRUCTURED)) +
    count (joined_evaluations st
             (fun g => (g_experiment_id g =? eid)
                       && strategy_eqb (prompt_strategy g) EXAMPLE_BASED)) =
    count (evaluations_of st eid)).
  { rewrite Hjoin. unfold joined_evaluations. apply filter_split_length.
    intros ev _. destruct (query_generation st (generation_id ev)) as [g|];
      [|auto].
    destruct (g_experiment_id g =? eid), (prompt_strategy g); auto. }
  unfold analyze_by_strategy. cbn [List.flat_map].
  pose proof (analyze_strategy_count st eid STRUCTURED) as H1.
  pose proof (analyze_strategy_count st eid EXAMPLE_BASED) as H2.
  destruct (analyze_strategy st eid STRUCTURED) as [r1|];
    destruct (analyze_strategy st eid EXAMPLE_BASED) as [r2|];
    cbn [List.app List.map List.fold_right];
    try destruct H1 as (S1 & P1 & C1); try destruct H2 as (S2 & P2 & C2);
    rewrite ?S1, ?S2; cbn [strategy_value];
    (split; [simpl; tauto|]);
    (split; [repeat constructor; assumption|]); lia.
Qed.

Lemma strategy_analysis_accounts_witness :
  List.fold_right Z.add 0
    (List.map sa_evaluation_count (analyze_by_strategy st_reminted 1))
  = count (evaluations_of st_reminted 1).
Proof.
  apply (strategy_analysis_accounts demo_models demo_pricing demo_client
           [demo_task] st_reminted 1).
  unfold st_reminted, st_one_generation, demo_exec_all.
  do 2 apply reachable_exec_all. constructor.
Defined.

(** X26. The figures of the analysis by strategy stay within the range
    of what was submitted: when every score of every Evaluation lies
    between two integers, so does each of the five averages of each row,
    after rounding; the publish rate of each row lies between 0 and 1. *)
Theorem strategy_analysis_bounds st eid lo hi row :
  (forall ev, In ev (evaluations st) -> scores_within lo hi ev) ->
  In row (analyze_by_strategy st eid) ->
  let between (x : Q) := (inject_Z lo <= x)%Q /\ (x <= inject_Z hi)%Q in
  between (avg_voice_match (sa_avg_scores row)) /\
  between (avg_coherence (sa_avg_scores row)) /\
  between (avg_engaging (sa_avg_scores row)) /\
  between (avg_meets_brief (sa_avg_scores row)) /\
  between (avg_overall_quality (sa_avg_scores row)) /\
  (0 <= sa_would_publish_rate row)%Q /\ (sa_would_publish_rate row <= 1)%Q.
Proof.
  intros Hscores Hin. cbv zeta.
  assert (Hrow : exists s, analyze_strategy st eid s = Some row).
  { unfold analyze_by_strategy in Hin. cbn [List.flat_map] in Hin.
    apply List.in_app_or in Hin as [Hin|Hin].
    - exists STRUCTURED. destruct (analyze_strategy st eid STRUCTURED);
        [destruct Hin as [->|[]]; reflexivity|destruct Hin].
    - rewrite List.app_nil_r in Hin. exists EXAMPLE_BASED.
      destruct (analyze_strategy st eid EXAMPLE_BASED);
        [destruct Hin as [->|[]]; reflexivity|destruct Hin]. }
  destruct Hrow as (s & Hrow). unfold analyze_strategy in Hrow.
  set (evs := joined_evaluations st _) in *.
  assert (Hsub : forall ev, In ev evs -> scores_within lo hi ev).
  { intros ev Hev. apply Hscores. unfold evs, joined_evaluations in Hev.
    now apply List.filter_In in Hev as [Hev _]. }
  destruct evs as [|ev0 l] eqn:Hevs; [discriminate|].
  injection Hrow as <-. cbn [sa_avg_scores sa_would_publish_rate avg_voice_match
    avg_coherence avg_engaging avg_meets_brief avg_overall_quality].
  assert (Hne : ev0 :: l <> []) by discriminate.
  assert (Havg : forall f,
            (forall ev, In ev (ev0 :: l) -> lo <= f ev <= hi) ->
            (inject_Z lo <= round_ndigits (average f (ev0 :: l)) 2)%Q /\
            (round_ndigits (average f (ev0 :: l)) 2 <= inject_Z hi)%Q).
  { intros f Hf. destruct (average_bounds f lo hi _ Hne Hf).
    now apply round_ndigits_bounds. }
  assert (Hn : (0 < inject_Z (count (ev0 :: l)))%Q).
  { unfold Qlt, count. cbn [Qnum Qden inject_Z List.length]. lia. }
  assert (Hrate :
    (inject_Z 0 <=
     inject_Z (count (List.filter publishes (ev0 :: l)))
     / inject_Z (count (ev0 :: l)))%Q /\
    (inject_Z (count (List.filter publishes (ev0 :: l)))
     / inject_Z (count (ev0 :: l)) <= inject_Z 1)%Q).
  { split.
    - apply Qle_shift_div_l; [exact Hn|]. rewrite <- inject_Z_mult.
      rewrite <- Zle_Qle. unfold count. lia.
    - apply Qle_shift_div_r; [exact Hn|]. rewrite <- inject_Z_mult.
      rewrite <- Zle_Qle. unfold count. rewrite Z.mul_1_l.
      apply Nat2Z.inj_le. apply List.filter_length_le. }
  destruct Hrate as [Hr0 Hr1].
  pose proof (round_ndigits_bounds _ 2 0 1 Hr0 Hr1) as [Hb0 Hb1].
  split; [apply Havg; intros ev Hev; apply (Hsub ev Hev)|].
  split; [apply Havg; intros ev Hev; apply (Hsub ev Hev)|].
  split; [apply Havg; intros ev Hev; apply (Hsub ev Hev)|].
  split; [apply Havg; intros ev Hev; apply (Hsub ev Hev)|].
  split; [apply Havg; intros ev Hev; apply (Hsub ev Hev)|].
  split; [exact Hb0|exact Hb1].
Qed.

Lemma strategy_analysis_bounds_witness :
  exists row,
    In row (analyze_by_strategy st_complete 1) /\
    (avg_overall_quality (sa_avg_scores row) <= inject_Z 5)%Q.
Proof.
  destruct (analyze_by_strategy st_complete 1) as [|row rows] eqn:Hrows;
    [vm_compute in Hrows; discriminate|].
  exists row. split; [now left|].
  assert (Hin : In row (analyze_by_strategy st_complete 1))
    by (rewrite Hrows; now left).
  apply (strategy_analysis_bounds st_complete 1 1 5 row); [|exact Hin].
  intros ev [<-|[]]. vm_compute. intuition discriminate.
Defined.
